(** * AutoTruth contract analyzer: the server action [analyzeContractAction]

  A shallow embedding of [src/app/actions.ts].  The action validates an
  uploaded file, hands it to the generative model, pulls a JSON text out
  of the model's answer with two regular expressions, parses it, and maps
  every failure to a user-facing message in one outer [catch].

  Layout: JavaScript strings, the backtracking regular-expression
  matcher the three regex literals of the source need, [JSON.parse],
  then the action itself; the facts about each layer follow the
  definitions. *)

From Stdlib Require Import String Ascii.
From Stdlib Require Import List NArith Arith Lia Bool.
From Stdlib Require Import Strings.Byte.
Import ListNotations.

Set Implicit Arguments.

(* ================================================================== *)
(** ** JavaScript strings *)
(* ================================================================== *)

Module JsStr.

(** A JavaScript string is a sequence of UTF-16 code units. *)
Definition char := N.
Definition jsstring := list char.

(** ASCII literal. *)
Fixpoint lit (s : string) : jsstring :=
  match s with
  | EmptyString => []
  | String a s' => N_of_ascii a :: lit s'
  end.

(** ASCII literal in which an apostrophe stands for the double quote
    U+0022, so that JSON texts can be written down legibly. *)
Definition dquote : char := 34%N.
Definition jq (s : string) : jsstring :=
  map (fun c => if N.eqb c 39 then dquote else c) (lit s).

Definition eqb (a b : jsstring) : bool :=
  if list_eq_dec N.eq_dec a b then true else false.

(** [strip_prefix p s] is [Some r] when [s = p ++ r]. *)
Fixpoint strip_prefix (p s : jsstring) : option jsstring :=
  match p, s with
  | [], _ => Some s
  | _ :: _, [] => None
  | a :: p', b :: s' => if N.eqb a b then strip_prefix p' s' else None
  end.

(** [String.prototype.startsWith] *)
Definition startsWith (s p : jsstring) : bool :=
  match strip_prefix p s with Some _ => true | None => false end.

(** [String.prototype.includes] *)
Fixpoint includes (s sub : jsstring) : bool :=
  startsWith s sub ||
  match s with
  | [] => false
  | _ :: s' => includes s' sub
  end.

(** The class [\s] of ECMAScript regular expressions: WhiteSpace and
    LineTerminator code points. *)
Definition is_space (c : char) : bool :=
  existsb (N.eqb c)
    [9; 10; 11; 12; 13; 32; 160; 5760; 8232; 8233; 8239; 8287; 12288; 65279]%N
  || (N.leb 8192 c && N.leb c 8202).

(** The class [[\s\S]]: every code unit. *)
Definition any_char (c : char) : bool := is_space c || negb (is_space c).

End JsStr.

(* ================================================================== *)
(** ** Regular expressions (the fragment the source uses) *)
(* ================================================================== *)

Module RegExp.
Import JsStr.

Inductive regex : Type :=
| Chars (l : jsstring)               (* a literal run of characters *)
| StarGreedy (cls : char -> bool)    (* [c*]  on a character class  *)
| StarLazy (cls : char -> bool)      (* [c*?] on a character class  *)
| Group (r : regex)                  (* capturing group 1           *)
| Seq (r1 r2 : regex)
| Alt (r1 r2 : regex).

(** Backtracking in continuation style, as in the ECMAScript matcher:
    the continuation is the rest of the pattern, [None] is failure,
    and alternatives are tried in priority order. *)
Section Star.
Variable R : Type.
Variable cls : char -> bool.

(** Greedy: take as many characters as the class allows, give them
    back one at a time. *)
Fixpoint star_greedy (s : jsstring) (k : jsstring -> option R) : option R :=
  match s with
  | c :: s' =>
      if cls c then
        match star_greedy s' k with
        | Some x => Some x
        | None => k s
        end
      else k s
  | [] => k s
  end.

(** Lazy: try the continuation first, take one more character only
    when it fails. *)
Fixpoint star_lazy (s : jsstring) (k : jsstring -> option R) : option R :=
  match k s with
  | Some x => Some x
  | None =>
      match s with
      | c :: s' => if cls c then star_lazy s' k else None
      | [] => None
      end
  end.
End Star.

(** State of a match: what is left of the input, and the capture. *)
Definition capture := option jsstring.
Definition mstate : Type := jsstring * capture.

(** The characters consumed between input [s] and its suffix [s']. *)
Definition consumed (s s' : jsstring) : jsstring :=
  firstn (length s - length s') s.

Fixpoint run (r : regex) (s : jsstring) (c : capture)
         (k : jsstring -> capture -> option mstate) : option mstate :=
  match r with
  | Chars l =>
      match strip_prefix l s with
      | Some s' => k s' c
      | None => None
      end
  | StarGreedy cls => star_greedy cls s (fun s' => k s' c)
  | StarLazy cls => star_lazy cls s (fun s' => k s' c)
  | Group r1 => run r1 s c (fun s' _ => k s' (Some (consumed s s')))
  | Seq r1 r2 => run r1 s c (fun s' c' => run r2 s' c' k)
  | Alt r1 r2 =>
      match run r1 s c k with
      | Some x => Some x
      | None => run r2 s c k
      end
  end.

(** One attempt at the current position. *)
Definition exec_at (r : regex) (s : jsstring) : option mstate :=
  run r s None (fun s' c => Some (s', c)).

(** The match array of a successful [exec]: index 0 and index 1. *)
Record match_array : Type := MatchArray
  { m0 : jsstring;   (* the whole match  *)
    m1 : capture     (* capturing group 1 *) }.

(** [String.prototype.match] with a regex without the [g] flag: the
    leftmost position at which the pattern matches, [null] if none. *)
Fixpoint js_match (r : regex) (s : jsstring) : option match_array :=
  match exec_at r s with
  | Some (rest, c) => Some (MatchArray (consumed s rest) c)
  | None =>
      match s with
      | [] => None
      | _ :: s' => js_match r s'
      end
  end.

(** [String.prototype.replace] with a regex with the [g] flag and a
    replacement string without [$] patterns.  [skip] counts the
    characters of a match still to be dropped; an empty match keeps
    the character and moves on, as [lastIndex] does. *)
Fixpoint replace_from (r : regex) (repl : jsstring) (s : jsstring)
         (skip : nat) : jsstring :=
  match skip with
  | S n =>
      match s with
      | [] => []
      | _ :: s' => replace_from r repl s' n
      end
  | O =>
      match exec_at r s with
      | Some (rest, _) =>
          repl ++
          match s with
          | [] => []
          | c :: s' =>
              match length s - length rest with
              | O => c :: replace_from r repl s' O
              | S n => replace_from r repl s' n
              end
          end
      | None =>
          match s with
          | [] => []
          | c :: s' => c :: replace_from r repl s' O
          end
      end
  end.

Definition replace_all (r : regex) (repl s : jsstring) : jsstring :=
  replace_from r repl s O.

End RegExp.

(* ================================================================== *)
(** ** [JSON.parse] *)
(* ================================================================== *)

Module JSON.
Import JsStr.

(** The value [JSON.parse] builds, kept as the tree the text denotes: a
    number is kept as its literal (the Number value is a function of
    it), an object as its members in source order (the object, where a
    later duplicate key wins, is a function of them).  Equal trees give
    deep-equal JavaScript values. *)
Unset Elimination Schemes.
Inductive json : Type :=
| JNull
| JBool (b : bool)
| JNumber (literal : jsstring)
| JString (s : jsstring)
| JArray (elements : list json)
| JObject (members : list (jsstring * json)).
Set Elimination Schemes.

Inductive presult (A : Type) : Type :=
| POk (a : A) (rest : jsstring)   (* parsed [a], [rest] is left      *)
| PErr                            (* SyntaxError                     *)
| PFuel.                          (* recursion budget exhausted      *)
Arguments PErr {A}.
Arguments PFuel {A}.

Definition pmap (A B : Type) (f : A -> B) (r : presult A) : presult B :=
  match r with
  | POk a rest => POk (f a) rest
  | PErr => PErr
  | PFuel => PFuel
  end.

(** JSON white space: tab, line feed, carriage return, space. *)
Definition is_ws (c : char) : bool := existsb (N.eqb c) [9; 10; 13; 32]%N.

Fixpoint skip_ws (s : jsstring) : jsstring :=
  match s with
  | c :: s' => if is_ws c then skip_ws s' else s
  | [] => []
  end.

Definition is_digit (c : char) : bool := N.leb 48 c && N.leb c 57.

Definition hex_val (c : char) : option N :=
  if is_digit c then Some (c - 48)%N
  else if N.leb 97 c && N.leb c 102 then Some (c - 87)%N
  else if N.leb 65 c && N.leb c 70 then Some (c - 55)%N
  else None.

Definition hex4 (a b c d : char) : option char :=
  match hex_val a, hex_val b, hex_val c, hex_val d with
  | Some x, Some y, Some z, Some w => Some (((x * 16 + y) * 16 + z) * 16 + w)%N
  | _, _, _, _ => None
  end.

(** The single-character escapes: quote, backslash, slash, b f n r t. *)
Definition escape (e : char) : option char :=
  if N.eqb e 34 then Some 34%N
  else if N.eqb e 92 then Some 92%N
  else if N.eqb e 47 then Some 47%N
  else if N.eqb e 98 then Some 8%N
  else if N.eqb e 102 then Some 12%N
  else if N.eqb e 110 then Some 10%N
  else if N.eqb e 114 then Some 13%N
  else if N.eqb e 116 then Some 9%N
  else None.

(** The characters of a string after its opening quote, up to and
    including the closing quote. *)
Fixpoint parse_chars (s : jsstring) : presult jsstring :=
  match s with
  | [] => PErr
  | c :: s1 =>
      if N.eqb c 34 then POk [] s1
      else if N.eqb c 92 then
        match s1 with
        | [] => PErr
        | e :: s2 =>
            if N.eqb e 117 then
              match s2 with
              | h1 :: h2 :: h3 :: h4 :: s3 =>
                  match hex4 h1 h2 h3 h4 with
                  | Some u => pmap (cons u) (parse_chars s3)
                  | None => PErr
                  end
              | _ => PErr
              end
            else
              match escape e with
              | Some x => pmap (cons x) (parse_chars s2)
              | None => PErr
              end
        end
      else if N.ltb c 32 then PErr
      else pmap (cons c) (parse_chars s1)
  end.

Fixpoint span_digits (s : jsstring) : jsstring * jsstring :=
  match s with
  | c :: s' =>
      if is_digit c then let (ds, r) := span_digits s' in (c :: ds, r)
      else ([], s)
  | [] => ([], [])
  end.

(** int: [0] or a non-zero digit followed by digits. *)
Definition lex_int (s : jsstring) : option (jsstring * jsstring) :=
  match s with
  | c :: r =>
      if N.eqb c 48 then Some ([c], r)
      else if is_digit c then let (ds, r') := span_digits r in Some (c :: ds, r')
      else None
  | [] => None
  end.

(** frac: nothing, or a point followed by at least one digit. *)
Definition lex_frac (s : jsstring) : option (jsstring * jsstring) :=
  match s with
  | c :: r =>
      if N.eqb c 46 then
        match span_digits r with
        | ([], _) => None
        | (ds, r') => Some (c :: ds, r')
        end
      else Some ([], s)
  | [] => Some ([], s)
  end.

Definition lex_sign (s : jsstring) : jsstring * jsstring :=
  match s with
  | d :: r => if N.eqb d 43 || N.eqb d 45 then ([d], r) else ([], s)
  | [] => ([], s)
  end.

(** exp: nothing, or [e]/[E], an optional sign and at least one digit. *)
Definition lex_exp (s : jsstring) : option (jsstring * jsstring) :=
  match s with
  | c :: r =>
      if N.eqb c 101 || N.eqb c 69 then
        let (sg, r1) := lex_sign r in
        match span_digits r1 with
        | ([], _) => None
        | (ds, r2) => Some (c :: sg ++ ds, r2)
        end
      else Some ([], s)
  | [] => Some ([], s)
  end.

Definition lex_minus (s : jsstring) : jsstring * jsstring :=
  match s with
  | c :: r => if N.eqb c 45 then ([c], r) else ([], s)
  | [] => ([], s)
  end.

Definition lex_number (s : jsstring) : presult json :=
  let (sg, s1) := lex_minus s in
  match lex_int s1 with
  | None => PErr
  | Some (i, s2) =>
      match lex_frac s2 with
      | None => PErr
      | Some (f, s3) =>
          match lex_exp s3 with
          | None => PErr
          | Some (e, s4) => POk (JNumber (sg ++ i ++ f ++ e)) s4
          end
      end
  end.

Definition lex_word (w : jsstring) (v : json) (s : jsstring) : presult json :=
  match strip_prefix w s with
  | Some r => POk v r
  | None => PErr
  end.

(** Recursive descent over the JSON grammar.  [parse_value] expects no
    leading white space; [parse_elements] reads [value (, value)* ]] and
    [parse_members] reads [string : value (, string : value)* }]. *)
Fixpoint parse_value (fuel : nat) (s : jsstring) : presult json :=
  match fuel with
  | O => PFuel
  | S f =>
      match s with
      | [] => PErr
      | c :: r =>
          if N.eqb c 34 then pmap JString (parse_chars r)
          else if N.eqb c 91 then
            match skip_ws r with
            | d :: r' =>
                if N.eqb d 93 then POk (JArray []) r'
                else pmap JArray (parse_elements f (d :: r'))
            | [] => PErr
            end
          else if N.eqb c 123 then
            match skip_ws r with
            | d :: r' =>
                if N.eqb d 125 then POk (JObject []) r'
                else pmap JObject (parse_members f (d :: r'))
            | [] => PErr
            end
          else if N.eqb c 116 then lex_word (lit "true") (JBool true) s
          else if N.eqb c 102 then lex_word (lit "false") (JBool false) s
          else if N.eqb c 110 then lex_word (lit "null") JNull s
          else lex_number s
      end
  end
with parse_elements (fuel : nat) (s : jsstring) : presult (list json) :=
  match fuel with
  | O => PFuel
  | S f =>
      match parse_value f s with
      | POk v r =>
          match skip_ws r with
          | d :: r' =>
              if N.eqb d 44 then pmap (cons v) (parse_elements f (skip_ws r'))
              else if N.eqb d 93 then POk [v] r'
              else PErr
          | [] => PErr
          end
      | PErr => PErr
      | PFuel => PFuel
      end
  end
with parse_members (fuel : nat) (s : jsstring)
  : presult (list (jsstring * json)) :=
  match fuel with
  | O => PFuel
  | S f =>
      match s with
      | q :: r =>
          if N.eqb q 34 then
            match parse_chars r with
            | POk key r1 =>
                match skip_ws r1 with
                | col :: r2 =>
                    if N.eqb col 58 then
                      match parse_value f (skip_ws r2) with
                      | POk v r3 =>
                          match skip_ws r3 with
                          | d :: r4 =>
                              if N.eqb d 44 then
                                pmap (cons (key, v))
                                     (parse_members f (skip_ws r4))
                              else if N.eqb d 125 then POk [(key, v)] r4
                              else PErr
                          | [] => PErr
                          end
                      | PErr => PErr
                      | PFuel => PFuel
                      end
                    else PErr
                | [] => PErr
                end
            | PErr => PErr
            | PFuel => PFuel
            end
          else PErr
      | [] => PErr
      end
  end.

(** The recursion budget of a text: enough for every text (see
    [parse_value_fuel] below). *)
Definition budget (text : jsstring) : nat := 2 * length text + 1.

(** [JSON.parse(text)]: [None] is the thrown SyntaxError. *)
Definition JSON_parse (text : jsstring) : option json :=
  match parse_value (budget text) (skip_ws text) with
  | POk v rest =>
      match skip_ws rest with
      | [] => Some v
      | _ :: _ => None
      end
  | PErr => None
  | PFuel => None
  end.

End JSON.

(* ================================================================== *)
(** ** The generative-model client (external collaborator) *)
(* ================================================================== *)

Module GenAI.
Import JsStr.

(** The inline binary part of a request. *)
Record inlineData : Type := InlineData
  { data : jsstring;       (* base64 text *)
    mimeType : jsstring }.

End GenAI.

(* ================================================================== *)
(** ** The result shape of [src/components/contract-analyzer.tsx] *)
(* ================================================================== *)

Module ContractAnalyzer.
Import JsStr JSON.

(** Property read on a parsed object: the last member with that key. *)
Fixpoint get (key : jsstring) (members : list (jsstring * json)) : option json :=
  match members with
  | [] => None
  | (k, v) :: ms =>
      match get key ms with
      | Some x => Some x
      | None => if eqb k key then Some v else None
      end
  end.

Definition is_string (v : json) : bool :=
  match v with JString _ => true | _ => false end.

Definition one_of (allowed : list string) (v : json) : bool :=
  match v with
  | JString s => existsb (fun a => eqb s (lit a)) allowed
  | _ => false
  end.

Definition required (p : json -> bool) (o : option json) : bool :=
  match o with Some v => p v | None => false end.

Definition optional (p : json -> bool) (o : option json) : bool :=
  match o with Some v => p v | None => true end.

Definition array_of (p : json -> bool) (v : json) : bool :=
  match v with JArray l => forallb p l | _ => false end.

Definition decimal (digits : jsstring) : N :=
  fold_left (fun acc c => acc * 10 + (c - 48))%N digits 0%N.

(** [trustworthinessScore: number], with the range the specification
    gives it: an integer literal between 0 and 100. *)
Definition is_score (v : json) : bool :=
  match v with
  | JNumber l => forallb is_digit l && N.leb (decimal l) 100
  | _ => false
  end.

Definition is_contractTerm (v : json) : bool :=
  match v with
  | JObject ms =>
      required is_string (get (lit "term") ms)
      && required is_string (get (lit "value") ms)
      && required (one_of ["normal"; "warning"; "high"; "good"]%string)
                  (get (lit "flag") ms)
      && optional is_string (get (lit "details") ms)
  | _ => false
  end.

Definition is_potentialIssue (v : json) : bool :=
  match v with
  | JObject ms =>
      required is_string (get (lit "title") ms)
      && required is_string (get (lit "description") ms)
      && required (one_of ["high"; "warning"; "good"]%string)
                  (get (lit "severity") ms)
      && optional is_string (get (lit "recommendation") ms)
  | _ => false
  end.

(** [interface AnalysisResults] *)
Definition is_AnalysisResults (v : json) : bool :=
  match v with
  | JObject ms =>
      required (array_of is_contractTerm) (get (lit "contractTerms") ms)
      && required (array_of is_potentialIssue) (get (lit "potentialIssues") ms)
      && required is_score (get (lit "trustworthinessScore") ms)
      && required is_string (get (lit "summary") ms)
  | _ => false
  end.

Definition is_object (v : json) : bool :=
  match v with JObject _ => true | _ => false end.

End ContractAnalyzer.

(* ================================================================== *)
(** ** [src/app/actions.ts] *)
(* ================================================================== *)

Module Actions.
Import JsStr RegExp JSON.

(** What the action reads of a [File]: [file.size], [file.type] and the
    bytes [file.arrayBuffer()] resolves to.  The three are independent
    fields, as they are independent reads in the source. *)
Record File : Type := MkFile
  { size : N;
    type : jsstring;
    arrayBuffer : list byte }.

(** A thrown value: an instance of [Error] with its message, or anything
    else (the handler never looks inside a value that is not an
    [Error]). *)
Inductive thrown : Type :=
| JsError (message : jsstring)
| NonError.

(** How an awaited call completes. *)
Inductive completion (A : Type) : Type :=
| Return (a : A)
| Throw (e : thrown).
Arguments Throw {A}.

(** The effects of one request, in order. *)
Inductive event : Type :=
| GenerateContent (prompt : jsstring) (part : GenAI.inlineData)
| JsonParse (text : jsstring)
| ConsoleError (label : jsstring) (err : thrown).

(** Computations: the events performed, and the completion. *)
Definition M (A : Type) : Type := (list event * completion A)%type.

Definition ret (A : Type) (a : A) : M A := ([], Return a).

Definition throw (A : Type) (e : thrown) : M A := ([], Throw e).
Arguments throw {A} e.

(** [await c] for a call that performs no event of its own. *)
Definition await (A : Type) (c : completion A) : M A := ([], c).

Definition bind (A B : Type) (m : M A) (k : A -> M B) : M B :=
  match m with
  | (tr, Return a) => let (tr', c) := k a in (tr ++ tr', c)
  | (tr, Throw e) => (tr, Throw e)
  end.

(** [try { m } catch (e) { h e }] *)
Definition try_catch (A : Type) (m : M A) (h : thrown -> M A) : M A :=
  match m with
  | (tr, Return a) => (tr, Return a)
  | (tr, Throw e) => let (tr', c) := h e in (tr ++ tr', c)
  end.

Definition emit (e : event) : M unit := ([e], Return tt).

Notation "x <- m ;; k" := (bind m (fun x => k))
  (at level 61, m at next level, right associativity).
Notation "m ;;; k" := (bind m (fun _ => k))
  (at level 61, right associativity).

(** The object the action resolves to: [{ success, data }] or
    [{ success, error }]; an absent property is [None]. *)
Record Outcome : Type := MkOutcome
  { success : bool;
    data : option json;
    error : option jsstring }.

Definition Success (d : json) : Outcome :=
  {| success := true; data := Some d; error := None |}.

Definition Failure (e : jsstring) : Outcome :=
  {| success := false; data := None; error := Some e |}.

(** [buffer.toString("base64")] *)
Definition base64_alphabet : jsstring :=
  lit "ABCDEFGHIJKLMNOPQRSTUVWXYZabcdefghijklmnopqrstuvwxyz0123456789+/".

Definition base64_digit (i : N) : char :=
  nth (N.to_nat i) base64_alphabet 61%N.

Fixpoint toString_base64 (bs : list byte) : jsstring :=
  match bs with
  | [] => []
  | [a] =>
      let x := Byte.to_N a in
      [base64_digit (x / 4); base64_digit (x mod 4 * 16); 61; 61]%N
  | [a; b] =>
      let x := Byte.to_N a in
      let y := Byte.to_N b in
      [base64_digit (x / 4); base64_digit (x mod 4 * 16 + y / 16);
       base64_digit (y mod 16 * 4); 61]%N
  | a :: b :: c :: rest =>
      let x := Byte.to_N a in
      let y := Byte.to_N b in
      let z := Byte.to_N c in
      [base64_digit (x / 4); base64_digit (x mod 4 * 16 + y / 16);
       base64_digit (y mod 16 * 4 + z / 64); base64_digit (z mod 64)]%N
      ++ toString_base64 rest
  end.

(** The instruction text (a template literal without substitutions). *)
Definition prompt : jsstring := jq "
      Analyze this car purchase contract image in detail. 
      
      Provide a comprehensive analysis with the following sections:
      
      1. CONTRACT TERMS: Extract all key terms from the contract including purchase price, interest rate, loan term, down payment, monthly payment, dealer fees, documentation fees, warranties, insurance, and any add-ons. For each term, provide:
         - The exact value
         - Whether the term is normal, concerning (warning), or highly concerning (high)
         - A detailed explanation of why this term is flagged (if applicable)
         
      2. POTENTIAL ISSUES: Identify any concerning elements in the contract such as:
         - Above-market interest rates
         - Overpriced warranties or add-ons
         - Excessive fees
         - Unfavorable clauses
         - Below-market trade-in values
         - missing information
         For each issue, provide:
         - A clear title
         - A detailed description
         - The severity (high, warning, or good)
         - A specific recommendation to address the issue
         
      3. TRUSTWORTHINESS SCORE: Provide a numerical score from 0-100 representing the overall fairness and transparency of the contract, where:
         - 0-59: Poor (many concerning terms)
         - 60-79: Caution (some concerning terms)
         - 80-100: Good (few or no concerning terms)
         
      4. SUMMARY: A concise paragraph summarizing the key findings and recommendations.
      
      Format your response as a JSON object with the following structure:
      {
        'contractTerms': [
          {
            'term': 'string',
            'value': 'string',
            'flag': 'normal|warning|high|good',
            'details': 'string'
          }
        ],
        'potentialIssues': [
          {
            'title': 'string',
            'description': 'string',
            'severity': 'high|warning|good',
            'recommendation': 'string'
          }
        ],
        'trustworthinessScore': number,
        'summary': 'string'
      }
      
      Ensure your response is ONLY the JSON object with no additional text.
    ".

(** The fence markers, and the three regular expressions of the
    source. *)
Definition fence_open : jsstring := lit "```json".
Definition fence_close : jsstring := lit "```".

(** [/```json\s*([\s\S]*?)\s*```/] *)
Definition re_fence : regex :=
  Seq (Chars fence_open)
   (Seq (StarGreedy is_space)
    (Seq (Group (StarLazy any_char))
     (Seq (StarGreedy is_space)
          (Chars fence_close)))).

(** [/{[\s\S]*}/] *)
Definition re_brace : regex :=
  Seq (Chars (lit "{")) (Seq (StarGreedy any_char) (Chars (lit "}"))).

(** [/```json|```/g] *)
Definition re_markers : regex :=
  Alt (Chars fence_open) (Chars fence_close).

(** [text.match(fence) || text.match(brace)]: a match array is truthy,
    [null] is not. *)
Definition jsonMatch (text : jsstring) : option match_array :=
  match js_match re_fence text with
  | Some m => Some m
  | None => js_match re_brace text
  end.

(** [jsonMatch ? jsonMatch[0].replace(markers, "") : text] *)
Definition jsonString (text : jsstring) : jsstring :=
  match jsonMatch text with
  | Some m => replace_all re_markers [] (m0 m)
  | None => text
  end.

(** No closing marker starts inside [mid] when [mid] is followed by
    [tail]: used to say where a fenced block ends. *)
Fixpoint no_fence_before (mid tail : jsstring) : bool :=
  match mid with
  | [] => true
  | _ :: mid' =>
      negb (startsWith (mid ++ tail) fence_close) && no_fence_before mid' tail
  end.

(** The messages of the source. *)
Definition msg_no_file : jsstring := lit "No file provided".
Definition msg_too_large : jsstring := lit "File size exceeds 10MB limit".
Definition msg_bad_type : jsstring :=
  lit "Only image and PDF files are supported".
Definition msg_parse_thrown : jsstring :=
  lit "Failed to parse the AI response. Please try again.".
Definition msg_deprecated : jsstring :=
  lit "The AI model is being updated. Please try again in a few moments.".
Definition msg_rate_limit : jsstring :=
  lit "Too many requests. Please try again in a few minutes.".
Definition msg_parse : jsstring :=
  lit "Unable to analyze the contract. Please try a clearer image or a different file.".
Definition msg_unknown : jsstring :=
  lit "An unknown error occurred while analyzing the contract.".

Definition label_parse : jsstring := lit "Error parsing JSON response:".
Definition label_action : jsstring := lit "Error in analyzeContractAction:".

(** [console.error(label, err)] *)
Definition console_error (label : jsstring) (err : thrown) : M unit :=
  emit (ConsoleError label err).

(** [JSON.parse(text)] as a call: it is logged, and a text outside the
    grammar throws a SyntaxError (its message is the engine's and is
    never read by the action). *)
Definition syntax_error : thrown := JsError (lit "Unexpected token in JSON").

Definition JSON_parse_call (text : jsstring) : M json :=
  emit (JsonParse text) ;;;
  match JSON_parse text with
  | Some v => ret v
  | None => throw syntax_error
  end.

(** The part built from the file: its bytes in base64 and its type. *)
Definition generativePart (file : File) : GenAI.inlineData :=
  {| GenAI.data := toString_base64 (arrayBuffer file);
     GenAI.mimeType := type file |}.

Section Action.

(** The model behind [genAI.getGenerativeModel(...)]: all of
    [generateContent([prompt, part])], [result.response] and
    [response.text()], which give the answer text or throw. *)
Variable generateContent : jsstring -> GenAI.inlineData -> completion jsstring.

Definition generate (part : GenAI.inlineData) : M jsstring :=
  emit (GenerateContent prompt part) ;;;
  await (generateContent prompt part).

(** The inner [try]/[catch] around extraction and parsing. *)
Definition parse_response (text : jsstring) : M Outcome :=
  try_catch
    (v <- JSON_parse_call (jsonString text) ;;
     ret (Success v))
    (fun parseError =>
       console_error label_parse parseError ;;;
       throw (JsError msg_parse_thrown)).

(** The body of the outer [try].  [file] is [formData.get("file") as
    File]: [None] when the form has no such entry (the cast leaves
    entries that are not files out of the model). *)
Definition try_block (file : option File) : M Outcome :=
  match file with
  | None => throw (JsError msg_no_file)
  | Some file =>
      if N.ltb (10 * 1024 * 1024) (size file) then
        throw (JsError msg_too_large)
      else if negb (startsWith (type file) (lit "image/"))
              && negb (eqb (type file) (lit "application/pdf")) then
        throw (JsError msg_bad_type)
      else
        text <- generate (generativePart file) ;;
        parse_response text
  end.

(** The outer [catch]. *)
Definition catch_block (error : thrown) : M Outcome :=
  console_error label_action error ;;;
  match error with
  | JsError message =>
      if includes message (lit "deprecated") then ret (Failure msg_deprecated)
      else if includes message (lit "rate limit") then
        ret (Failure msg_rate_limit)
      else if includes message (lit "parse") then ret (Failure msg_parse)
      else ret (Failure message)
  | NonError => ret (Failure msg_unknown)
  end.

Definition analyzeContractAction (file : option File) : M Outcome :=
  try_catch (try_block file) catch_block.

End Action.

(** *** Vocabulary of the properties *)

(** The two validation rules on a file that is present. *)
Definition type_supported (t : jsstring) : bool :=
  startsWith t (lit "image/") || eqb t (lit "application/pdf").

Definition acceptable (file : File) : bool :=
  N.leb (size file) (10 * 1024 * 1024) && type_supported (type file).

(** Whether the model was called, and how often [JSON.parse] was. *)
Definition invoked (tr : list event) : bool :=
  existsb (fun e => match e with GenerateContent _ _ => true | _ => false end) tr.

Definition parse_attempts (tr : list event) : nat :=
  length (filter (fun e => match e with JsonParse _ => true | _ => false end) tr).

(** What the brace pattern still has to match after its star. *)
Definition brace_tail (s : jsstring) : option mstate :=
  match strip_prefix (lit "}") s with
  | Some s' => Some (s', None)
  | None => None
  end.

End Actions.

(* ================================================================== *)
(** ** Sample inputs *)
(* ================================================================== *)

Module Fixtures.
Import JsStr JSON Actions.

Definition png : File :=
  {| size := 3; type := lit "image/png"; arrayBuffer := [x89; x50; x4e]%byte |}.

(** A file one byte over the limit, of a type that is not supported. *)
Definition big_text : File :=
  {| size := 10 * 1024 * 1024 + 1; type := lit "text/plain"; arrayBuffer := [] |}.

Definition big_png : File :=
  {| size := 10 * 1024 * 1024 + 1; type := lit "image/png"; arrayBuffer := [] |}.

(** Files of exactly 10 MiB. *)
Definition full_pdf : File :=
  {| size := 10 * 1024 * 1024; type := lit "application/pdf"; arrayBuffer := [] |}.

Definition full_text : File :=
  {| size := 10 * 1024 * 1024; type := lit "text/plain"; arrayBuffer := [] |}.

Definition small_text : File :=
  {| size := 12; type := lit "text/plain"; arrayBuffer := [] |}.

(** Stub models: one that always answers [text], one that always
    throws [e]. *)
Definition answers (text : jsstring)
  : jsstring -> GenAI.inlineData -> completion jsstring :=
  fun _ _ => Return text.

Definition fails (e : thrown)
  : jsstring -> GenAI.inlineData -> completion jsstring :=
  fun _ _ => Throw e.

(** A well-formed analysis. *)
Definition report : jsstring :=
  jq "{'contractTerms':[{'term':'APR','value':'7.9%','flag':'warning','details':'Above market'}],'potentialIssues':[{'title':'High APR','description':'Rate is above market','severity':'high','recommendation':'Negotiate'}],'trustworthinessScore':62,'summary':'Proceed with caution.'}".

(** The same with a closing fence marker inside its summary. *)
Definition report_with_marker : jsstring :=
  jq "{'contractTerms':[],'potentialIssues':[],'trustworthinessScore':62,'summary':'See the ``` block.'}".

(** A fenced answer whose content is set off by a line feed and a
    no-break space (U+00A0). *)
Definition fenced_nbsp : jsstring :=
  fence_open ++ [10; 160]%N ++ report ++ [10]%N ++ fence_close.

(** A fenced answer set off by line feeds. *)
Definition fenced : jsstring :=
  lit "Here is the analysis: " ++ fence_open ++ [10]%N ++ report ++ [10]%N
      ++ fence_close ++ lit " Let me know.".

Definition prose_wrapped (object : jsstring) : jsstring :=
  lit "Here is the analysis: " ++ object ++ lit " Let me know.".

End Fixtures.

From Stdlib Require Import ZArith QArith.
Close Scope Q_scope.

(* ================================================================== *)
(** ** More vocabulary for the action *)
(* ================================================================== *)

Module Observed.
Import JsStr RegExp JSON Actions.

(** The requests made to the model, and the texts given to
    [JSON.parse], in the order of the trace. *)
Fixpoint model_calls (tr : list event) : list (jsstring * GenAI.inlineData) :=
  match tr with
  | [] => []
  | GenerateContent p part :: tr' => (p, part) :: model_calls tr'
  | _ :: tr' => model_calls tr'
  end.

Fixpoint parse_calls (tr : list event) : list jsstring :=
  match tr with
  | [] => []
  | JsonParse text :: tr' => text :: parse_calls tr'
  | _ :: tr' => parse_calls tr'
  end.

(** The three words the outer [catch] looks for in a message. *)
Definition trigger_word (message : jsstring) : bool :=
  includes message (lit "deprecated")
  || includes message (lit "rate limit")
  || includes message (lit "parse").

(** The seven messages the action writes itself. *)
Definition own_messages : list jsstring :=
  [msg_no_file; msg_too_large; msg_bad_type;
   msg_deprecated; msg_rate_limit; msg_parse; msg_unknown].

(** The inverse of [base64_digit] on the alphabet, and the decoder it
    gives: [Buffer.from(text, "base64")] on a text the encoder wrote. *)
Fixpoint index_of (c : char) (alphabet : jsstring) (i : N) : N :=
  match alphabet with
  | [] => i
  | a :: rest => if N.eqb a c then i else index_of c rest (i + 1)
  end.

Definition base64_value (c : char) : N := index_of c base64_alphabet 0.

Definition byte_of (n : N) : byte :=
  match Byte.of_N n with Some b => b | None => x00 end.

Fixpoint base64_decode (s : jsstring) : list byte :=
  match s with
  | a :: b :: c :: d :: rest =>
      let a := base64_value a in
      let b := base64_value b in
      if N.eqb c 61 then [byte_of (a * 4 + b / 16)]
      else
        let c := base64_value c in
        if N.eqb d 61 then
          [byte_of (a * 4 + b / 16); byte_of (b mod 16 * 16 + c / 4)]
        else
          let d := base64_value d in
          byte_of (a * 4 + b / 16)
          :: byte_of (b mod 16 * 16 + c / 4)
          :: byte_of (c mod 4 * 64 + d)
          :: base64_decode rest
  | _ => []
  end.

(** The 64 values of a base64 digit, and the characters a base64 text
    is made of. *)
Definition sextets : list N := map N.of_nat (seq 0 64).

Definition base64_char (c : char) : bool :=
  existsb (N.eqb c) base64_alphabet || N.eqb c 61.

End Observed.

(* ================================================================== *)
(** ** JavaScript values as the component reads them *)
(* ================================================================== *)

Module JsValue.
Import JsStr JSON ContractAnalyzer.

(** A Number value.  A finite double is given by the rational it
    denotes, which is all that a comparison looks at. *)
Inductive number : Type :=
| NaN
| NegInfinity
| Finite (q : Q)
| PosInfinity.

(** [a >= b] on Number values. *)
Definition ge (a b : number) : bool :=
  match a, b with
  | NaN, _ => false
  | _, NaN => false
  | PosInfinity, _ => true
  | _, NegInfinity => true
  | NegInfinity, _ => false
  | Finite _, PosInfinity => false
  | Finite x, Finite y => Qle_bool y x
  end.

Definition of_Z (z : Z) : number := Finite (inject_Z z).

(** The digits and the decimal exponent of a JSON number literal: the
    literal denotes [mantissa * 10 ^ exponent], up to its sign. *)
Definition literal_exponent (s : jsstring) : Z :=
  match s with
  | c :: r =>
      if N.eqb c 101 || N.eqb c 69 then
        let (sg, r1) := lex_sign r in
        let (ds, _) := span_digits r1 in
        if eqb sg [45%N] then (- Z.of_N (decimal ds))%Z else Z.of_N (decimal ds)
      else 0%Z
  | [] => 0%Z
  end.

Definition literal_parts (l : jsstring) : N * Z :=
  let (_, s1) := lex_minus l in
  let (int, s2) := span_digits s1 in
  let (frac, s3) :=
    match s2 with
    | c :: r => if N.eqb c 46 then span_digits r else ([], s2)
    | [] => ([], s2)
    end in
  (decimal (int ++ frac), (literal_exponent s3 - Z.of_nat (length frac))%Z).

(** Whether the double nearest to the literal is zero: the literal is
    zero, or at most [2 ^ -1075] in size, half of the least positive
    double (a tie goes to the even neighbour, zero). *)
Definition rounds_to_zero (l : jsstring) : bool :=
  let (m, e) := literal_parts l in
  N.eqb m 0
  || (Z.ltb e 0 && N.leb (m * 2 ^ 1075) (10 ^ Z.to_N (- e))).

(** ToBoolean of a parsed value. *)
Definition truthy (v : json) : bool :=
  match v with
  | JNull => false
  | JBool b => b
  | JNumber l => negb (rounds_to_zero l)
  | JString s => match s with [] => false | _ :: _ => true end
  | JArray _ => true
  | JObject _ => true
  end.

(** ToBoolean of a property that may be absent. *)
Definition truthy_property (o : option json) : bool :=
  match o with Some v => truthy v | None => false end.

(** [s || fallback] on a string property that may be absent. *)
Definition or_else (o : option jsstring) (fallback : jsstring) : jsstring :=
  match o with
  | Some (c :: s) => c :: s
  | Some [] => fallback
  | None => fallback
  end.

(** [v === "literal"] on a property that may be absent. *)
Definition is_literal (o : option json) (literal : string) : bool :=
  match o with
  | Some (JString s) => eqb s (lit literal)
  | _ => false
  end.

End JsValue.

(* ================================================================== *)
(** ** [src/components/contract-analyzer.tsx] *)
(* ================================================================== *)

Module Client.
Import JsStr JSON Actions JsValue.

(** *** The score and its colours *)

Definition getTrustScoreColor (score : number) : jsstring :=
  if ge score (of_Z 80) then lit "text-green-500"
  else if ge score (of_Z 60) then lit "text-yellow-500"
  else lit "text-red-500".

Definition getTrustScoreText (score : number) : jsstring :=
  if ge score (of_Z 80) then lit "Good"
  else if ge score (of_Z 60) then lit "Caution"
  else lit "Poor".

(** The two class expressions of the score tab: the ring around the
    score and the badge under it. *)
Definition scoreRingClass (score : number) : jsstring :=
  if ge score (of_Z 80) then lit "border-green-900/30"
  else if ge score (of_Z 60) then lit "border-yellow-900/30"
  else lit "border-red-900/30".

Definition scoreBadgeClass (score : number) : jsstring :=
  if ge score (of_Z 80) then lit "bg-green-900/50 text-green-400"
  else if ge score (of_Z 60) then lit "bg-yellow-900/50 text-yellow-400"
  else lit "bg-red-900/50 text-red-400".

(** The four of them together, and the three bands of the page. *)
Definition scoreStyles (score : number)
  : jsstring * jsstring * jsstring * jsstring :=
  (getTrustScoreText score, getTrustScoreColor score,
   scoreRingClass score, scoreBadgeClass score).

Definition band_good : jsstring * jsstring * jsstring * jsstring :=
  (lit "Good", lit "text-green-500",
   lit "border-green-900/30", lit "bg-green-900/50 text-green-400").

Definition band_caution : jsstring * jsstring * jsstring * jsstring :=
  (lit "Caution", lit "text-yellow-500",
   lit "border-yellow-900/30", lit "bg-yellow-900/50 text-yellow-400").

Definition band_poor : jsstring * jsstring * jsstring * jsstring :=
  (lit "Poor", lit "text-red-500",
   lit "border-red-900/30", lit "bg-red-900/50 text-red-400").

(** *** Terms and issues *)

Inductive icon : Type := AlertTriangle | CheckCircle.

(** The class of a term's value, and the icons after it. *)
Definition termValueClass (flag : option json) : jsstring :=
  if is_literal flag "high" then lit "text-red-400"
  else if is_literal flag "warning" then lit "text-yellow-400"
  else if is_literal flag "good" then lit "text-green-400"
  else lit "text-gray-300".

Definition termIcons (flag : option json) : list (icon * jsstring) :=
  (if is_literal flag "high"
   then [(AlertTriangle, lit "ml-1 h-4 w-4 text-red-400")] else [])
  ++ (if is_literal flag "warning"
      then [(AlertTriangle, lit "ml-1 h-4 w-4 text-yellow-400")] else [])
  ++ (if is_literal flag "good"
      then [(CheckCircle, lit "ml-1 h-4 w-4 text-green-400")] else []).

(** The class of an issue's box, and the icons in it. *)
Definition issueBoxClass (severity : option json) : jsstring :=
  if is_literal severity "high" then lit "border-red-900/50 bg-red-950/20"
  else if is_literal severity "warning"
       then lit "border-yellow-900/50 bg-yellow-950/20"
  else lit "border-green-900/50 bg-green-950/20".

Definition issueIcons (severity : option json) : list (icon * jsstring) :=
  (if is_literal severity "high"
   then [(AlertTriangle, lit "h-5 w-5 text-red-500 mr-2 flex-shrink-0 mt-0.5")]
   else [])
  ++ (if is_literal severity "warning"
      then [(AlertTriangle, lit "h-5 w-5 text-yellow-500 mr-2 flex-shrink-0 mt-0.5")]
      else [])
  ++ (if is_literal severity "good"
      then [(CheckCircle, lit "h-5 w-5 text-green-500 mr-2 flex-shrink-0 mt-0.5")]
      else []).

(** *** State and handlers *)

(** The state of the component ([progress] and its timers are left
    to the two commands that start and stop the simulation). *)
Record State : Type := MkState
  { file : option File;
    preview : option jsstring;
    isAnalyzing : bool;
    results : option json }.

(** The state after a file was taken and before anything else. *)
Definition with_file (f : File) : State :=
  {| file := Some f; preview := None; isAnalyzing := false; results := None |}.

Definition initial : State :=
  {| file := None; preview := None; isAnalyzing := false; results := None |}.

(** What a handler does, in order: the state setters it calls and its
    other effects. *)
Inductive command : Type :=
| SetFile (f : option File)
| SetPreview (p : option jsstring)
| SetResults (r : option json)
| SetIsAnalyzing (b : bool)
| StartProgressSimulation
| StopProgressSimulation
| ReadAsDataURL (f : File)
| Toast (title description variant : jsstring)
| LogError (label : jsstring) (err : thrown).

Definition set (st : State) (c : command) : State :=
  match c with
  | SetFile f =>
      {| file := f; preview := preview st;
         isAnalyzing := isAnalyzing st; results := results st |}
  | SetPreview p =>
      {| file := file st; preview := p;
         isAnalyzing := isAnalyzing st; results := results st |}
  | SetResults r =>
      {| file := file st; preview := preview st;
         isAnalyzing := isAnalyzing st; results := r |}
  | SetIsAnalyzing b =>
      {| file := file st; preview := preview st;
         isAnalyzing := b; results := results st |}
  | _ => st
  end.

Definition exec (st : State) (cs : list command) : State := fold_left set cs st.

(** The part of the two file handlers after [setFile]. *)
Definition startPreview (f : File) : list command :=
  if startsWith (type f) (lit "image/") then [ReadAsDataURL f]
  else [SetPreview None].

(** [handleFileChange]: [selected] is [e.target.files?.[0] || null]. *)
Definition handleFileChange (selected : option File) : list command :=
  [SetFile selected; SetResults None]
  ++ match selected with
     | Some f => startPreview f
     | None => [SetPreview None]
     end.

(** [handleDrop]: [dropped] is [e.dataTransfer.files?.[0]]. *)
Definition handleDrop (dropped : option File) : list command :=
  match dropped with
  | Some f => [SetFile (Some f); SetResults None] ++ startPreview f
  | None => []
  end.

(** [reader.onload]: [result] is what the reader read. *)
Definition onload (result : jsstring) : list command :=
  [SetPreview (Some result)].

(** The data URL a reader gives for a file with a type. *)
Definition dataURL (f : File) : jsstring :=
  lit "data:" ++ type f ++ lit ";base64," ++ toString_base64 (arrayBuffer f).

Definition resetForm : list command :=
  [SetFile None; SetPreview None; SetResults None].

Definition toast_title : jsstring := lit "Analysis Failed".
Definition toast_default : jsstring :=
  lit "Failed to analyze the contract. Please try again.".
Definition toast_thrown : jsstring :=
  lit "We couldn't analyze your contract. Please try again with a clearer image.".
Definition destructive : jsstring := lit "destructive".

(** [handleAnalyze] up to its [await]. *)
Definition handleAnalyze_start : list command :=
  [SetIsAnalyzing true; SetResults None; StartProgressSimulation].

(** [handleAnalyze] from the completion [c] of the awaited call on: the
    rest of the [try], the [catch] and the [finally]. *)
Definition handleAnalyze_finish (c : completion Outcome) : list command :=
  match c with
  | Return response =>
      if success response && truthy_property (data response) then
        [SetResults (data response)]
      else
        [Toast toast_title (or_else (error response) toast_default) destructive]
  | Throw err =>
      [LogError (lit "Error analyzing contract:") err;
       Toast toast_title
             (match err with
              | JsError message => message
              | NonError => toast_thrown
              end)
             destructive]
  end
  ++ [StopProgressSimulation; SetIsAnalyzing false].

(** [handleAnalyze] with the call [action] of the server action on the
    file of the form. *)
Definition handleAnalyze (action : File -> completion Outcome) (st : State)
  : list command :=
  match file st with
  | None => []
  | Some f => handleAnalyze_start ++ handleAnalyze_finish (action f)
  end.

(** The call of the server action as the component sees it: the
    completion, without the events on the server. *)
Definition callAction
           (generateContent : jsstring -> GenAI.inlineData -> completion jsstring)
           (f : File) : completion Outcome :=
  snd (analyzeContractAction generateContent (Some f)).

Definition toasts (cs : list command) : list (jsstring * jsstring * jsstring) :=
  flat_map (fun c => match c with
                     | Toast t d v => [(t, d, v)]
                     | _ => []
                     end) cs.

(** *** The component over time

    The component with the reads and the calls that are under way.  An
    input is a user action the rendered page offers, or the completion
    of a read or of a call. *)
Record System : Type := MkSystem
  { ui : State;
    reading : list File;      (* files given to [readAsDataURL]      *)
    analysing : list File }.  (* calls of the action not yet answered *)

Definition start : System :=
  {| ui := initial; reading := []; analysing := [] |}.

Inductive input : Type :=
| Choose (selected : option File)     (* change of the file input       *)
| Dropped (dropped : option File)     (* drop on the upload area        *)
| Reset                               (* click on the X button          *)
| Analyze                             (* click on "Analyze Contract"    *)
| Loaded (n : nat)                    (* the n-th read under way ends   *)
| Answered (n : nat) (c : completion Outcome). (* the n-th call ends    *)

Definition reads (cs : list command) : list File :=
  flat_map (fun c => match c with ReadAsDataURL f => [f] | _ => [] end) cs.

Fixpoint remove_nth (A : Type) (n : nat) (l : list A) : list A :=
  match n, l with
  | _, [] => []
  | O, _ :: l' => l'
  | S n', x :: l' => x :: remove_nth n' l'
  end.

Definition perform (s : System) (cs : list command) : System :=
  {| ui := exec (ui s) cs;
     reading := reading s ++ reads cs;
     analysing := analysing s |}.

(** One input.  [None] when the page does not offer it: the upload
    area and its file input are rendered only without a file, the X
    button and the analyze button only with one, and the analyze button
    is disabled while [isAnalyzing]. *)
Definition react (s : System) (i : input) : option System :=
  match i with
  | Choose selected =>
      match file (ui s) with
      | None => Some (perform s (handleFileChange selected))
      | Some _ => None
      end
  | Dropped dropped =>
      match file (ui s) with
      | None => Some (perform s (handleDrop dropped))
      | Some _ => None
      end
  | Reset =>
      match file (ui s) with
      | Some _ => Some (perform s resetForm)
      | None => None
      end
  | Analyze =>
      match file (ui s) with
      | Some f =>
          if isAnalyzing (ui s) then None
          else Some {| ui := exec (ui s) handleAnalyze_start;
                       reading := reading s;
                       analysing := analysing s ++ [f] |}
      | None => None
      end
  | Loaded n =>
      match nth_error (reading s) n with
      | Some f =>
          Some {| ui := exec (ui s) (onload (dataURL f));
                  reading := remove_nth n (reading s);
                  analysing := analysing s |}
      | None => None
      end
  | Answered n c =>
      match nth_error (analysing s) n with
      | Some _ =>
          Some {| ui := exec (ui s) (handleAnalyze_finish c);
                  reading := reading s;
                  analysing := remove_nth n (analysing s) |}
      | None => None
      end
  end.

Fixpoint reacts (s : System) (inputs : list input) : option System :=
  match inputs with
  | [] => Some s
  | i :: rest =>
      match react s i with
      | Some s' => reacts s' rest
      | None => None
      end
  end.

Definition reachable (s : System) : Prop :=
  exists inputs, reacts start inputs = Some s.

(** What the page shows as preview: [preview && file.type.startsWith
    ("image/")] in the branch with a file. *)
Definition shownPreview (st : State) : option jsstring :=
  match file st, preview st with
  | Some f, Some (c :: p) =>
      if startsWith (type f) (lit "image/") then Some (c :: p) else None
  | _, _ => None
  end.

(** The calls under way and the results agree with [isAnalyzing]. *)
Definition tidy (s : System) : Prop :=
  length (analysing s) <= 1
  /\ (isAnalyzing (ui s) = true <-> analysing s <> [])
  /\ (isAnalyzing (ui s) = true -> results (ui s) = None)
  /\ (forall d, results (ui s) = Some d -> truthy d = true).

Definition is_image (f : File) : Prop :=
  startsWith (type f) (lit "image/") = true.

(** The files the inputs bring in. *)
Definition chosen (inputs : list input) : list File :=
  flat_map (fun i => match i with
                     | Choose (Some f) => [f]
                     | Dropped (Some f) => [f]
                     | _ => []
                     end) inputs.

(** The reads under way and the preview come from images among the
    files [seen]. *)
Definition previews_of (seen : list File) (s : System) : Prop :=
  Forall (fun f => In f seen /\ is_image f) (reading s)
  /\ (forall p, preview (ui s) = Some p ->
                exists g, In g seen /\ is_image g /\ p = dataURL g).

(** The system after some inputs from the start (the start itself when
    one of them is not offered). *)
Definition after (inputs : list input) : System :=
  match reacts start inputs with
  | Some s => s
  | None => start
  end.

End Client.

(* ================================================================== *)
(** ** The form entry before the cast *)
(* ================================================================== *)

Module Form.
Import JsStr RegExp JSON Actions.

(** What [formData.get("file")] gives for an entry that is present: a
    [File] or a string.  The cast [as File] checks nothing. *)
Inductive FormDataEntryValue : Type :=
| EntryFile (f : File)
| EntryString (s : jsstring).

Section Action.

(** The message of the TypeError the engine throws for
    [undefined.startsWith]; its wording is the engine's. *)
Variable type_error : jsstring.

Variable generateContent : jsstring -> GenAI.inlineData -> completion jsstring.

(** The body of the outer [try] on any entry.  For a string, [!file]
    holds of the empty one only; [file.size] and [file.type] are
    [undefined], so the size test, [undefined > 10 * 1024 * 1024], is
    false, and [file.type.startsWith] throws. *)
Definition try_block_of_entry (entry : option FormDataEntryValue) : M Outcome :=
  match entry with
  | None => try_block generateContent None
  | Some (EntryFile f) => try_block generateContent (Some f)
  | Some (EntryString []) => throw (JsError msg_no_file)
  | Some (EntryString (_ :: _)) => throw (JsError type_error)
  end.

Definition analyzeContractAction_of_entry (entry : option FormDataEntryValue)
  : M Outcome :=
  try_catch (try_block_of_entry entry) catch_block.

End Action.

End Form.

(* ================================================================== *)
(** ** The action in a world with state *)
(* ================================================================== *)

(** The same source, [analyzeContractAction] of [src/app/actions.ts],
    run in a world that outlives the request: the model service with a
    state of its own, and the console.  Every statement of the source
    is a step on the world, so that a step could read what an earlier
    request left behind. *)
Module Sequential.
Import JsStr RegExp JSON Actions.

Section World.

(** The state of the model service, whatever it is. *)
Variable Service : Type.

Record World : Type := MkWorld
  { service : Service;
    console : list (jsstring * thrown) }.

(** A computation: from a world to the world it leaves and its
    completion. *)
Definition Run (A : Type) : Type := World -> World * completion A.

Definition ret (A : Type) (a : A) : Run A := fun w => (w, Return a).

Definition throw (A : Type) (e : thrown) : Run A := fun w => (w, Throw e).
Arguments throw {A} e.

Definition bind (A B : Type) (m : Run A) (k : A -> Run B) : Run B :=
  fun w =>
    match m w with
    | (w', Return a) => k a w'
    | (w', Throw e) => (w', Throw e)
    end.

(** [try { m } catch (e) { h e }] *)
Definition try_catch (A : Type) (m : Run A) (h : thrown -> Run A) : Run A :=
  fun w =>
    match m w with
    | (w', Return a) => (w', Return a)
    | (w', Throw e) => h e w'
    end.

(** [console.error(label, err)] *)
Definition console_error (label : jsstring) (err : thrown) : Run unit :=
  fun w =>
    ({| service := service w; console := console w ++ [(label, err)] |},
     Return tt).

(** [JSON.parse(text)] *)
Definition JSON_parse_call (text : jsstring) : Run json :=
  fun w =>
    (w, match JSON_parse text with
        | Some v => Return v
        | None => Throw syntax_error
        end).

(** The model service: from its state and a request to its next state
    and the answer text, or what it throws. *)
Variable generateContent :
  Service -> jsstring -> GenAI.inlineData -> Service * completion jsstring.

Definition generate (part : GenAI.inlineData) : Run jsstring :=
  fun w =>
    let (s, c) := generateContent (service w) prompt part in
    ({| service := s; console := console w |}, c).

(** The inner [try]/[catch] around extraction and parsing. *)
Definition parse_response (text : jsstring) : Run Outcome :=
  try_catch
    (bind (JSON_parse_call (jsonString text)) (fun v => ret (Success v)))
    (fun parseError =>
       bind (console_error label_parse parseError)
            (fun _ => throw (JsError msg_parse_thrown))).

(** The body of the outer [try]. *)
Definition try_block (file : option File) : Run Outcome :=
  match file with
  | None => throw (JsError msg_no_file)
  | Some file =>
      if N.ltb (10 * 1024 * 1024) (size file) then
        throw (JsError msg_too_large)
      else if negb (startsWith (type file) (lit "image/"))
              && negb (eqb (type file) (lit "application/pdf")) then
        throw (JsError msg_bad_type)
      else
        bind (generate (generativePart file)) parse_response
  end.

(** The outer [catch]. *)
Definition catch_block (error : thrown) : Run Outcome :=
  bind (console_error label_action error)
       (fun _ =>
          match error with
          | JsError message =>
              if includes message (lit "deprecated") then
                ret (Failure msg_deprecated)
              else if includes message (lit "rate limit") then
                ret (Failure msg_rate_limit)
              else if includes message (lit "parse") then
                ret (Failure msg_parse)
              else ret (Failure message)
          | NonError => ret (Failure msg_unknown)
          end).

Definition analyzeContractAction (file : option File) : Run Outcome :=
  try_catch (try_block file) catch_block.

End World.

(** The lines a run of the action writes on the console. *)
Fixpoint console_lines (tr : list event) : list (jsstring * thrown) :=
  match tr with
  | [] => []
  | ConsoleError label err :: tr' => (label, err) :: console_lines tr'
  | _ :: tr' => console_lines tr'
  end.

(** A service that counts its calls and answers [text] to the first
    [n] of them, and throws from then on. *)
Definition answers_first (n : nat) (text : jsstring)
  : nat -> jsstring -> GenAI.inlineData -> nat * completion jsstring :=
  fun calls _ _ =>
    (S calls,
     if Nat.ltb calls n then Return text
     else Throw (JsError (lit "quota exceeded"))).

(** A service that counts its calls and always answers [text]. *)
Definition answers_counting (text : jsstring)
  : nat -> jsstring -> GenAI.inlineData -> nat * completion jsstring :=
  fun calls _ _ => (S calls, Return text).

End Sequential.

Unset Implicit Arguments.

(* ================================================================== *)
(** ** Facts: strings *)
(* ================================================================== *)

Module JsStrFacts.
Import JsStr.

Lemma strip_prefix_app (p r : jsstring) : strip_prefix p (p ++ r) = Some r.
Proof.
  induction p as [|a p IH]; simpl.
  - destruct r; reflexivity.
  - rewrite N.eqb_refl. exact IH.
Qed.

Lemma strip_prefix_Some (p : jsstring) :
  forall s r, strip_prefix p s = Some r -> s = p ++ r.
Proof.
  induction p as [|a p IH]; intros s r H.
  - destruct s; simpl in H; inversion H; reflexivity.
  - destruct s as [|b s]; simpl in H; [discriminate|].
    destruct (N.eqb_spec a b) as [->|]; [|discriminate].
    simpl. f_equal. apply IH. exact H.
Qed.

Lemma strip_prefix_extend (p : jsstring) :
  forall s r t, strip_prefix p s = Some r -> strip_prefix p (s ++ t) = Some (r ++ t).
Proof.
  intros s r t H. apply strip_prefix_Some in H. subst s.
  rewrite <- app_assoc. apply strip_prefix_app.
Qed.

(** Whether [p] is a prefix of [s] is decided by the first [length p]
    characters of [s]. *)
Lemma strip_prefix_None_extend (p : jsstring) :
  forall s t, length p <= length s -> strip_prefix p s = None ->
              strip_prefix p (s ++ t) = None.
Proof.
  induction p as [|a p IH]; intros s t Hl H.
  - destruct s; discriminate.
  - destruct s as [|b s]; simpl in *; [lia|].
    destruct (N.eqb a b); [|reflexivity].
    apply IH; [lia|exact H].
Qed.

Lemma startsWith_app (p r : jsstring) : startsWith (p ++ r) p = true.
Proof. unfold startsWith. rewrite strip_prefix_app. reflexivity. Qed.

Lemma any_char_true (c : char) : any_char c = true.
Proof. unfold any_char. apply orb_negb_r. Qed.

Lemma eqb_eq (a b : jsstring) : eqb a b = true <-> a = b.
Proof.
  unfold eqb. destruct (list_eq_dec N.eq_dec a b); split; congruence.
Qed.

Lemma includes_here (s sub : jsstring) :
  startsWith s sub = true -> includes s sub = true.
Proof. destruct s; simpl; intros ->; reflexivity. Qed.

Lemma includes_app (pre sub post : jsstring) :
  includes (pre ++ sub ++ post) sub = true.
Proof.
  induction pre as [|c pre IH]; simpl.
  - apply includes_here, startsWith_app.
  - rewrite IH. apply orb_true_r.
Qed.

End JsStrFacts.

(* ================================================================== *)
(** ** Facts: the matcher *)
(* ================================================================== *)

Module RegExpFacts.
Import JsStr RegExp JsStrFacts.

Lemma consumed_app (a s : jsstring) : consumed (a ++ s) s = a.
Proof.
  unfold consumed. rewrite length_app.
  replace (length a + length s - length s) with (length a) by lia.
  rewrite firstn_app, firstn_all, Nat.sub_diag. simpl. apply app_nil_r.
Qed.

Section Stars.
Variable R : Type.
Variable cls : char -> bool.

(** A greedy star that fails has tried the continuation on the spot. *)
Lemma star_greedy_None (s : jsstring) (k : jsstring -> option R) :
  star_greedy cls s k = None -> k s = None.
Proof.
  destruct s as [|c s]; simpl; [tauto|].
  destruct (cls c); [|tauto].
  destruct (star_greedy cls s k); [discriminate|tauto].
Qed.

(** A greedy star that succeeds has consumed characters of the class. *)
Lemma star_greedy_Some (k : jsstring -> option R) (x : R) :
  forall s, star_greedy cls s k = Some x ->
  exists w s', s = w ++ s' /\ forallb cls w = true /\ k s' = Some x.
Proof.
  induction s as [|c s IH]; simpl; intros H.
  - exists [], []. auto.
  - destruct (cls c) eqn:Hc.
    + destruct (star_greedy cls s k) eqn:Hs.
      * inversion H; subst. destruct (IH eq_refl) as (w & s' & -> & Hw & Hk).
        exists (c :: w), s'. simpl. rewrite Hc, Hw. auto.
      * exists [], (c :: s). auto.
    + exists [], (c :: s). auto.
Qed.

(** A lazy star stops at the first suffix the continuation accepts. *)
Lemma star_lazy_Some (k : jsstring -> option R) (x : R) :
  forall s, star_lazy cls s k = Some x ->
  exists a s', s = a ++ s' /\ k s' = Some x /\
    forall a1 a2, a = a1 ++ a2 -> a2 <> [] -> k (a2 ++ s') = None.
Proof.
  induction s as [|c s IH]; simpl; intros H.
  - destruct (k []) eqn:Hk; [|discriminate]. inversion H; subst.
    exists [], []. repeat split; auto.
    intros a1 a2 E. symmetry in E. apply app_eq_nil in E. tauto.
  - destruct (k (c :: s)) eqn:Hk.
    + inversion H; subst. exists [], (c :: s). repeat split; auto.
      intros a1 a2 E. symmetry in E. apply app_eq_nil in E. tauto.
    + destruct (cls c); [|discriminate].
      destruct (IH H) as (a & s' & -> & Hx & Hmin).
      exists (c :: a), s'. repeat split; auto.
      intros [|d a1] a2 E Hne; simpl in E.
      * subst a2. exact Hk.
      * inversion E; subst. apply Hmin with (a1 := a1); auto.
Qed.

(** A greedy star over a class that holds everywhere backtracks from
    the end of the input. *)
Lemma star_greedy_all_None (k : jsstring -> option R) :
  (forall c, cls c = true) ->
  forall s, (forall a b, s = a ++ b -> k b = None) -> star_greedy cls s k = None.
Proof.
  intros Hall. induction s as [|c s IH]; intros Hk; simpl.
  - apply (Hk [] []). reflexivity.
  - rewrite Hall, IH.
    + apply (Hk [] (c :: s)). reflexivity.
    + intros a b ->. apply (Hk (c :: a) b). reflexivity.
Qed.

Lemma star_greedy_all_last (k : jsstring -> option R) (x : R) :
  (forall c, cls c = true) ->
  forall a s, k s = Some x ->
    (forall s1 s2, s = s1 ++ s2 -> s1 <> [] -> k s2 = None) ->
    star_greedy cls (a ++ s) k = Some x.
Proof.
  intros Hall. induction a as [|c a IH]; intros s Hk Hlast; simpl.
  - destruct s as [|d s]; simpl; [exact Hk|].
    rewrite Hall. rewrite star_greedy_all_None; auto.
    intros u v ->. apply (Hlast (d :: u) v); [reflexivity|discriminate].
  - rewrite Hall, (IH s Hk Hlast). reflexivity.
Qed.

End Stars.

(** What [js_match] returns is one successful attempt at some position. *)
Lemma js_match_Some (r : regex) (m : match_array) :
  forall text, js_match r text = Some m ->
  exists pre s rest, text = pre ++ s /\ exec_at r s = Some (rest, m1 m)
                     /\ m0 m = consumed s rest.
Proof.
  induction text as [|c text IH]; simpl; intros H.
  - destruct (exec_at r []) as [[rest c]|] eqn:E; [|discriminate].
    inversion H; subst. exists [], [], rest. auto.
  - destruct (exec_at r (c :: text)) as [[rest c']|] eqn:E.
    + inversion H; subst. exists [], (c :: text), rest. auto.
    + destruct (IH H) as (pre & s & rest & -> & He & Hm).
      exists (c :: pre), s, rest. auto.
Qed.

(** Positions at which every attempt fails are skipped. *)
Lemma js_match_skip (r : regex) :
  forall pre s, (forall a b, pre = a ++ b -> b <> [] -> exec_at r (b ++ s) = None) ->
  js_match r (pre ++ s) = js_match r s.
Proof.
  induction pre as [|c pre IH]; intros s H; [reflexivity|].
  assert (E : exec_at r (c :: pre ++ s) = None)
    by (apply (H [] (c :: pre)); [reflexivity|discriminate]).
  simpl. rewrite E.
  apply IH. intros a b -> Hb. apply (H (c :: a) b); auto.
Qed.

Lemma js_match_here (r : regex) (s rest : jsstring) (c : capture) :
  exec_at r s = Some (rest, c) ->
  js_match r s = Some (MatchArray (consumed s rest) c).
Proof. intros H. destruct s; simpl; rewrite H; reflexivity. Qed.

Lemma replace_from_skip (r : regex) (repl : jsstring) :
  forall a s, replace_from r repl (a ++ s) (length a) = replace_from r repl s 0.
Proof.
  induction a as [|c a IH]; intros s; [reflexivity|].
  simpl. destruct a; simpl in *; apply IH.
Qed.

End RegExpFacts.

(* ================================================================== *)
(** ** Facts: the three regular expressions of the action *)
(* ================================================================== *)

Module ExtractFacts.
Import JsStr RegExp Actions JsStrFacts RegExpFacts.

Lemma space_not_backtick (c : char) : is_space c = true -> N.eqb 96 c = false.
Proof.
  intros H. destruct (N.eqb_spec 96 c) as [<-|]; [|reflexivity].
  vm_compute in H. discriminate.
Qed.

Lemma fence_close_chars : fence_close = [96; 96; 96]%N.
Proof. reflexivity. Qed.

Lemma fence_open_chars : fence_open = fence_close ++ lit "json".
Proof. reflexivity. Qed.

Lemma startsWith_close_cons (c : char) (s : jsstring) :
  N.eqb 96 c = false -> startsWith (c :: s) fence_close = false.
Proof.
  intros H. unfold startsWith. rewrite fence_close_chars.
  cbn [strip_prefix]. rewrite H. reflexivity.
Qed.

Lemma strip_prefix_app_None (p q : jsstring) :
  forall s, strip_prefix p s = None -> strip_prefix (p ++ q) s = None.
Proof.
  induction p as [|a p IH]; intros s H.
  - destruct s; discriminate.
  - destruct s as [|b s]; [reflexivity|]. cbn [strip_prefix app] in *.
    destruct (N.eqb a b); [apply IH; exact H|reflexivity].
Qed.

Lemma open_starts_with_close (s : jsstring) :
  strip_prefix fence_close s = None -> strip_prefix fence_open s = None.
Proof. rewrite fence_open_chars. apply strip_prefix_app_None. Qed.

Lemma no_fence_before_app (a b tail : jsstring) :
  no_fence_before (a ++ b) tail
  = no_fence_before a (b ++ tail) && no_fence_before b tail.
Proof.
  induction a as [|c a IH]; [reflexivity|].
  cbn [no_fence_before app]. rewrite IH.
  change (c :: a ++ b) with ((c :: a) ++ b). rewrite <- !app_assoc.
  apply andb_assoc.
Qed.

Lemma no_fence_before_spaces (w tail : jsstring) :
  forallb is_space w = true -> no_fence_before w tail = true.
Proof.
  induction w as [|c w IH]; [reflexivity|].
  cbn [forallb no_fence_before app]. intros H.
  apply andb_prop in H. destruct H as [Hc Hw].
  rewrite startsWith_close_cons by (apply space_not_backtick; exact Hc).
  rewrite IH by exact Hw. reflexivity.
Qed.

Lemma no_fence_before_minimal (tail : jsstring) :
  forall mid,
    (forall a1 a2, mid = a1 ++ a2 -> a2 <> [] ->
                   strip_prefix fence_close (a2 ++ tail) = None) ->
    no_fence_before mid tail = true.
Proof.
  induction mid as [|c mid IH]; intros H; [reflexivity|].
  cbn [no_fence_before]. unfold startsWith.
  rewrite (H [] (c :: mid)); [|reflexivity|discriminate].
  apply IH. intros a1 a2 -> Hne. apply (H (c :: a1) a2); auto.
Qed.

(** Only the three characters after a position decide whether a closing
    marker starts there. *)
Lemma no_fence_before_tail (rest : jsstring) :
  forall mid, no_fence_before mid (fence_close ++ rest)
              = no_fence_before mid fence_close.
Proof.
  induction mid as [|c mid IH]; [reflexivity|].
  cbn [no_fence_before]. rewrite IH. f_equal. f_equal.
  unfold startsWith.
  destruct (strip_prefix fence_close ((c :: mid) ++ fence_close)) eqn:E.
  - rewrite app_assoc. erewrite strip_prefix_extend by exact E. reflexivity.
  - rewrite app_assoc. rewrite strip_prefix_None_extend; auto.
    rewrite length_app. simpl. lia.
Qed.

(** One attempt of the fence pattern: opening marker, white space, the
    captured content, white space, and the first closing marker after
    the opening one. *)
Lemma exec_at_fence (s rest : jsstring) (c : capture) :
  exec_at re_fence s = Some (rest, c) ->
  exists w1 inner w2,
    c = Some inner
    /\ s = fence_open ++ (w1 ++ inner ++ w2) ++ fence_close ++ rest
    /\ forallb is_space w1 = true
    /\ forallb is_space w2 = true
    /\ no_fence_before (w1 ++ inner ++ w2) (fence_close ++ rest) = true.
Proof.
  unfold exec_at, re_fence. cbn [run]. intros H.
  destruct (strip_prefix fence_open s) as [s1|] eqn:E1; [|discriminate].
  apply strip_prefix_Some in E1. subst s.
  apply star_greedy_Some in H. destruct H as (w1 & s2 & -> & Hw1 & H).
  apply star_lazy_Some in H. destruct H as (inner & s3 & -> & H & Hmin).
  apply star_greedy_Some in H. destruct H as (w2 & s4 & -> & Hw2 & H).
  destruct (strip_prefix fence_close s4) as [s5|] eqn:E5; [|discriminate].
  apply strip_prefix_Some in E5. subst s4.
  inversion H; subst. rewrite consumed_app.
  exists w1, inner, w2. repeat split; auto.
  - rewrite <- !app_assoc. reflexivity.
  - rewrite no_fence_before_app, no_fence_before_app.
    rewrite (no_fence_before_spaces _ _ Hw1), (no_fence_before_spaces _ _ Hw2).
    rewrite andb_true_r. cbn [andb].
    apply no_fence_before_minimal. intros a1 a2 Ea Hne.
    specialize (Hmin a1 a2 Ea Hne). apply star_greedy_None in Hmin.
    destruct (strip_prefix fence_close (a2 ++ w2 ++ fence_close ++ rest));
      [discriminate|reflexivity].
Qed.

(** The match array of the fence pattern. *)
Lemma js_match_fence (text : jsstring) (m : match_array) :
  js_match re_fence text = Some m ->
  exists w1 inner w2,
    m1 m = Some inner
    /\ m0 m = fence_open ++ (w1 ++ inner ++ w2) ++ fence_close
    /\ forallb is_space w1 = true
    /\ forallb is_space w2 = true
    /\ no_fence_before (w1 ++ inner ++ w2) fence_close = true.
Proof.
  intros H. apply js_match_Some in H.
  destruct H as (pre & s & rest & -> & He & Hm).
  apply exec_at_fence in He.
  destruct He as (w1 & inner & w2 & Hc & -> & Hw1 & Hw2 & Hn).
  exists w1, inner, w2. repeat split; auto.
  - rewrite Hm.
    replace (fence_open ++ (w1 ++ inner ++ w2) ++ fence_close ++ rest)
      with ((fence_open ++ (w1 ++ inner ++ w2) ++ fence_close) ++ rest)
      by (rewrite <- !app_assoc; reflexivity).
    apply consumed_app.
  - rewrite no_fence_before_tail in Hn. exact Hn.
Qed.

Lemma exec_at_markers (s : jsstring) :
  exec_at re_markers s =
  match strip_prefix fence_open s with
  | Some r => Some (r, None)
  | None =>
      match strip_prefix fence_close s with
      | Some r => Some (r, None)
      | None => None
      end
  end.
Proof.
  unfold exec_at, re_markers. cbn [run].
  destruct (strip_prefix fence_open s); [reflexivity|].
  destruct (strip_prefix fence_close s); reflexivity.
Qed.

Lemma replace_from_nomatch (r : regex) (repl : jsstring) (c : char) (s : jsstring) :
  exec_at r (c :: s) = None ->
  replace_from r repl (c :: s) 0 = c :: replace_from r repl s 0.
Proof. intros H. cbn [replace_from]. rewrite H. reflexivity. Qed.

Lemma replace_from_match (r : regex) (repl : jsstring) (c : char)
      (s rest : jsstring) (cap : capture) (n : nat) :
  exec_at r (c :: s) = Some (rest, cap) ->
  length (c :: s) - length rest = S n ->
  replace_from r repl (c :: s) 0 = repl ++ replace_from r repl s n.
Proof. intros H Hn. cbn [replace_from]. rewrite H, Hn. reflexivity. Qed.

(** Stripping the markers from text that holds a closing marker only at
    its end leaves what was before it. *)
Lemma replace_markers_closing :
  forall mid, no_fence_before mid fence_close = true ->
              replace_from re_markers [] (mid ++ fence_close) 0 = mid.
Proof.
  induction mid as [|c mid IH]; intros H.
  - reflexivity.
  - cbn [no_fence_before] in H. apply andb_prop in H. destruct H as [Hc Hm].
    unfold startsWith in Hc.
    destruct (strip_prefix fence_close ((c :: mid) ++ fence_close)) eqn:E;
      [discriminate|].
    change ((c :: mid) ++ fence_close) with (c :: mid ++ fence_close) in *.
    rewrite replace_from_nomatch.
    + rewrite IH by exact Hm. reflexivity.
    + rewrite exec_at_markers, (open_starts_with_close _ E), E. reflexivity.
Qed.

(** Stripping the markers from a fenced block gives the text between
    its markers. *)
Lemma replace_markers_fenced (mid : jsstring) :
  no_fence_before mid fence_close = true ->
  replace_all re_markers [] (fence_open ++ mid ++ fence_close) = mid.
Proof.
  intros H. unfold replace_all.
  change (fence_open ++ mid ++ fence_close)
    with (96%N :: lit "``json" ++ mid ++ fence_close).
  rewrite replace_from_match
    with (rest := mid ++ fence_close) (cap := None) (n := 6).
  - rewrite (replace_from_skip re_markers [] (lit "``json")).
    simpl. apply replace_markers_closing. exact H.
  - rewrite exec_at_markers.
    change (96%N :: lit "``json" ++ mid ++ fence_close)
      with (fence_open ++ mid ++ fence_close).
    rewrite strip_prefix_app. reflexivity.
  - change (96%N :: lit "``json" ++ mid ++ fence_close)
      with (fence_open ++ (mid ++ fence_close)).
    rewrite (length_app fence_open). change (length fence_open) with 7. lia.
Qed.

(** Text without a closing marker is left as it is. *)
Lemma replace_markers_id :
  forall s, includes s fence_close = false -> replace_all re_markers [] s = s.
Proof.
  unfold replace_all. induction s as [|c s IH]; intros H; [reflexivity|].
  cbn [includes] in H. apply orb_false_elim in H. destruct H as [Hc Hs].
  unfold startsWith in Hc.
  destruct (strip_prefix fence_close (c :: s)) eqn:E; [discriminate|].
  rewrite replace_from_nomatch.
  - rewrite IH by exact Hs. reflexivity.
  - rewrite exec_at_markers, (open_starts_with_close _ E), E. reflexivity.
Qed.

(** The fence pattern needs an opening marker. *)
Lemma exec_at_fence_None (s : jsstring) :
  strip_prefix fence_open s = None -> exec_at re_fence s = None.
Proof. unfold exec_at, re_fence. cbn [run]. intros ->. reflexivity. Qed.

Lemma js_match_fence_None :
  forall text, includes text fence_open = false -> js_match re_fence text = None.
Proof.
  induction text as [|c text IH]; intros H.
  - reflexivity.
  - cbn [includes] in H. apply orb_false_elim in H. destruct H as [Hc Hs].
    unfold startsWith in Hc.
    destruct (strip_prefix fence_open (c :: text)) eqn:E; [discriminate|].
    cbn [js_match]. rewrite (exec_at_fence_None _ E). apply IH. exact Hs.
Qed.

(** The brace pattern: an attempt needs an opening brace... *)
Lemma exec_at_brace_other (c : char) (s : jsstring) :
  c <> 123%N -> exec_at re_brace (c :: s) = None.
Proof.
  intros H. unfold exec_at, re_brace. cbn [run].
  change (lit "{") with [123%N]. cbn [strip_prefix].
  destruct (N.eqb_spec 123 c); [congruence|reflexivity].
Qed.

Lemma exec_at_brace_nil : exec_at re_brace [] = None.
Proof. reflexivity. Qed.

Lemma brace_tail_no_close :
  forall post a b, ~ In 125%N post -> post = a ++ b -> brace_tail b = None.
Proof.
  intros post a b Hn ->. destruct b as [|d b]; [reflexivity|].
  unfold brace_tail. change (lit "}") with [125%N]. cbn [strip_prefix].
  destruct (N.eqb_spec 125 d) as [<-|]; [|reflexivity].
  exfalso. apply Hn. apply in_or_app. right. left. reflexivity.
Qed.

(** ...and runs to the last closing brace of the text. *)
Lemma exec_at_brace (body post : jsstring) :
  ~ In 125%N post ->
  exec_at re_brace (123%N :: body ++ 125%N :: post) = Some (post, None).
Proof.
  intros Hn. unfold exec_at, re_brace. cbn [run].
  change (strip_prefix (lit "{") (123%N :: body ++ 125%N :: post))
    with (Some (body ++ 125%N :: post)).
  change (star_greedy any_char (body ++ 125%N :: post) brace_tail = Some (post, None)).
  apply star_greedy_all_last.
  - exact any_char_true.
  - reflexivity.
  - intros [|d s1] s2 E Hne; [congruence|].
    inversion E; subst. eapply brace_tail_no_close; eauto.
Qed.

Lemma js_match_brace (pre body post : jsstring) :
  ~ In 123%N pre -> ~ In 125%N post ->
  js_match re_brace (pre ++ 123%N :: body ++ 125%N :: post)
  = Some (MatchArray (123%N :: body ++ [125%N]) None).
Proof.
  intros Hpre Hpost. rewrite js_match_skip.
  - rewrite (js_match_here _ _ _ _ (exec_at_brace body post Hpost)). f_equal. f_equal.
    replace (123%N :: body ++ 125%N :: post)
      with ((123%N :: body ++ [125%N]) ++ post)
      by (simpl; rewrite <- app_assoc; reflexivity).
    apply consumed_app.
  - intros a [|d b] -> Hne; [congruence|].
    apply exec_at_brace_other. intros ->. apply Hpre.
    apply in_or_app. right. left. reflexivity.
Qed.

(** *** The patterns on sample texts *)

Example fence_first_block :
  js_match re_fence (lit "a ```json  {x}  ``` b ``` c")
  = Some (MatchArray (lit "```json  {x}  ```") (Some (lit "{x}"))).
Proof. vm_compute. reflexivity. Qed.

Example fence_unclosed : js_match re_fence (lit "a ```json {x}") = None.
Proof. vm_compute. reflexivity. Qed.

Example brace_greedy :
  js_match re_brace (lit "a {x} b {y} } c { d")
  = Some (MatchArray (lit "{x} b {y} }") None).
Proof. vm_compute. reflexivity. Qed.

Example brace_needs_order : js_match re_brace (lit "a } b { c") = None.
Proof. vm_compute. reflexivity. Qed.

Example markers_stripped :
  replace_all re_markers [] (lit "```json{x}``` and ```js```") = lit "{x} and js".
Proof. vm_compute. reflexivity. Qed.

Example jsonString_fenced :
  jsonString (lit "a ```json  {x}  ``` b {y}") = lit "  {x}  ".
Proof. vm_compute. reflexivity. Qed.

Example jsonString_plain_fence :
  jsonString (lit "```[1]```") = lit "```[1]```".
Proof. vm_compute. reflexivity. Qed.

End ExtractFacts.

(* ================================================================== *)
(** ** Facts: [JSON.parse] *)
(* ================================================================== *)

Module JSONFacts.
Import JsStr JSON JsStrFacts.

Lemma pmap_POk (A B : Type) (f : A -> B) (p : presult A) (b : B) (r : jsstring) :
  pmap f p = POk b r -> exists a, p = POk a r /\ b = f a.
Proof.
  destruct p; simpl; intros H; inversion H; subst. eauto.
Qed.

Lemma pmap_PFuel (A B : Type) (f : A -> B) (p : presult A) :
  pmap f p = PFuel -> p = PFuel.
Proof. destruct p; simpl; intros H; congruence. Qed.

(** *** White space *)

Lemma ws_not_digit (c : char) : is_ws c = true -> is_digit c = false.
Proof.
  unfold is_ws. cbn [existsb]. rewrite !orb_true_iff.
  intros [H|[H|[H|[H|H]]]]; try discriminate;
    apply N.eqb_eq in H; subst; reflexivity.
Qed.

Lemma skip_ws_spaces (w s : jsstring) :
  forallb is_ws w = true -> skip_ws (w ++ s) = skip_ws s.
Proof.
  induction w as [|c w IH]; [reflexivity|]. cbn [forallb app skip_ws].
  intros H. apply andb_prop in H. destruct H as [-> Hw]. apply IH, Hw.
Qed.

Lemma skip_ws_all (w : jsstring) : forallb is_ws w = true -> skip_ws w = [].
Proof.
  intros H. rewrite <- (app_nil_r w). rewrite skip_ws_spaces; auto.
Qed.

Lemma skip_ws_cons_app (t : jsstring) :
  forall r c r', skip_ws r = c :: r' -> skip_ws (r ++ t) = c :: r' ++ t.
Proof.
  induction r as [|d r IH]; intros c r' H; [discriminate|].
  cbn [skip_ws app] in *. destruct (is_ws d); [apply IH; exact H|].
  inversion H; subst. reflexivity.
Qed.

Lemma skip_ws_app (t r : jsstring) :
  skip_ws r <> [] -> skip_ws (r ++ t) = skip_ws r ++ t.
Proof.
  destruct (skip_ws r) as [|c r'] eqn:E; [congruence|].
  intros _. apply skip_ws_cons_app. exact E.
Qed.

Lemma skip_ws_length (s : jsstring) : length (skip_ws s) <= length s.
Proof.
  induction s as [|c s IH]; simpl; [lia|]. destruct (is_ws c); simpl; lia.
Qed.

Lemma skip_ws_cons_length (s : jsstring) (c : char) (r : jsstring) :
  skip_ws s = c :: r -> length r < length s.
Proof.
  intros H. pose proof (skip_ws_length s) as L. rewrite H in L. simpl in L. lia.
Qed.

(** *** Each lexer consumes at least one character *)

Lemma parse_chars_length :
  forall n s x r, length s <= n -> parse_chars s = POk x r -> length r < length s.
Proof.
  induction n as [|n IH]; intros s x r Hn H.
  - destruct s; [discriminate|simpl in Hn; lia].
  - destruct s as [|c s1]; [discriminate|]. cbn [parse_chars] in H.
    cbn [length] in *.
    destruct (N.eqb c 34).
    { inversion H; subst. lia. }
    destruct (N.eqb c 92).
    { destruct s1 as [|e s2]; [discriminate|].
      destruct (N.eqb e 117).
      - destruct s2 as [|h1 [|h2 [|h3 [|h4 s3]]]]; try discriminate.
        destruct (hex4 h1 h2 h3 h4); [|discriminate].
        apply pmap_POk in H. destruct H as (a & H & _).
        apply IH in H; cbn [length] in *; lia.
      - destruct (escape e); [|discriminate].
        apply pmap_POk in H. destruct H as (a & H & _).
        apply IH in H; cbn [length] in *; lia. }
    destruct (N.ltb c 32); [discriminate|].
    apply pmap_POk in H. destruct H as (a & H & _).
    apply IH in H; lia.
Qed.

Lemma span_digits_length (s : jsstring) :
  length (snd (span_digits s)) <= length s.
Proof.
  induction s as [|c s IH]; simpl; [lia|].
  destruct (is_digit c); [|simpl; lia].
  destruct (span_digits s); simpl in *; lia.
Qed.

Lemma lex_int_length (s i r : jsstring) :
  lex_int s = Some (i, r) -> length r < length s.
Proof.
  destruct s as [|c s]; [discriminate|]. cbn [lex_int length].
  destruct (N.eqb c 48).
  - intros H; inversion H; subst. lia.
  - destruct (is_digit c); [|discriminate].
    pose proof (span_digits_length s) as L.
    destruct (span_digits s). intros H; inversion H; subst. simpl in L. lia.
Qed.

Lemma lex_frac_length (s f r : jsstring) :
  lex_frac s = Some (f, r) -> length r <= length s.
Proof.
  destruct s as [|c s]; cbn [lex_frac length].
  - intros H; inversion H; subst. simpl. lia.
  - destruct (N.eqb c 46).
    + pose proof (span_digits_length s) as L.
      destruct (span_digits s) as [[|d ds] r']; [discriminate|].
      intros H; inversion H; subst. simpl in L. lia.
    + intros H; inversion H; subst. simpl. lia.
Qed.

Lemma lex_sign_length (s : jsstring) : length (snd (lex_sign s)) <= length s.
Proof.
  destruct s as [|d s]; simpl; [lia|].
  destruct (N.eqb d 43 || N.eqb d 45); simpl; lia.
Qed.

Lemma lex_exp_length (s e r : jsstring) :
  lex_exp s = Some (e, r) -> length r <= length s.
Proof.
  destruct s as [|c s]; cbn [lex_exp length].
  - intros H; inversion H; subst. simpl. lia.
  - destruct (N.eqb c 101 || N.eqb c 69).
    + pose proof (lex_sign_length s) as L1.
      destruct (lex_sign s) as [sg r1].
      pose proof (span_digits_length r1) as L2.
      destruct (span_digits r1) as [[|d ds] r2]; [discriminate|].
      intros H; inversion H; subst. simpl in *. lia.
    + intros H; inversion H; subst. simpl. lia.
Qed.

Lemma lex_minus_length (s : jsstring) : length (snd (lex_minus s)) <= length s.
Proof.
  destruct s as [|d s]; simpl; [lia|]. destruct (N.eqb d 45); simpl; lia.
Qed.

Lemma lex_number_length (s : jsstring) (v : json) (r : jsstring) :
  lex_number s = POk v r -> length r < length s.
Proof.
  unfold lex_number. pose proof (lex_minus_length s) as L0.
  destruct (lex_minus s) as [sg s1].
  destruct (lex_int s1) as [[i s2]|] eqn:E1; [|discriminate].
  destruct (lex_frac s2) as [[f s3]|] eqn:E2; [|discriminate].
  destruct (lex_exp s3) as [[e s4]|] eqn:E3; [|discriminate].
  intros H; inversion H; subst.
  apply lex_int_length in E1. apply lex_frac_length in E2.
  apply lex_exp_length in E3. simpl in L0. lia.
Qed.

Lemma lex_word_length (w : jsstring) (v0 : json) (s : jsstring) (v : json) (r : jsstring) :
  w <> [] -> lex_word w v0 s = POk v r -> length r < length s.
Proof.
  unfold lex_word. intros Hw.
  destruct (strip_prefix w s) eqn:E; [|discriminate].
  intros H; inversion H; subst. apply strip_prefix_Some in E. subst s.
  rewrite length_app. destruct w; [congruence|simpl; lia].
Qed.

(** *** The parser consumes input, and its budget is enough *)

Lemma parse_progress :
  forall f,
    (forall s v r, parse_value f s = POk v r -> length r < length s)
    /\ (forall s l r, parse_elements f s = POk l r -> length r < length s)
    /\ (forall s l r, parse_members f s = POk l r -> length r < length s).
Proof.
  induction f as [|f (IHv & IHe & IHm)];
    [repeat split; intros; discriminate|].
  repeat split.
  - intros s v r H. destruct s as [|c s0]; [discriminate|].
    cbn [parse_value] in H.
    destruct (N.eqb c 34).
    { apply pmap_POk in H. destruct H as (a & H & _).
      apply parse_chars_length with (n := length s0) in H; simpl; lia. }
    destruct (N.eqb c 91).
    { destruct (skip_ws s0) as [|d r'] eqn:E; [discriminate|].
      apply skip_ws_cons_length in E. destruct (N.eqb d 93).
      - inversion H; subst. simpl. lia.
      - apply pmap_POk in H. destruct H as (a & H & _).
        apply IHe in H. simpl in *. lia. }
    destruct (N.eqb c 123).
    { destruct (skip_ws s0) as [|d r'] eqn:E; [discriminate|].
      apply skip_ws_cons_length in E. destruct (N.eqb d 125).
      - inversion H; subst. simpl. lia.
      - apply pmap_POk in H. destruct H as (a & H & _).
        apply IHm in H. simpl in *. lia. }
    destruct (N.eqb c 116).
    { apply lex_word_length in H; [exact H|discriminate]. }
    destruct (N.eqb c 102).
    { apply lex_word_length in H; [exact H|discriminate]. }
    destruct (N.eqb c 110).
    { apply lex_word_length in H; [exact H|discriminate]. }
    apply lex_number_length in H. exact H.
  - intros s l r H. cbn [parse_elements] in H.
    destruct (parse_value f s) as [v r1| |] eqn:Ev; try discriminate.
    apply IHv in Ev.
    destruct (skip_ws r1) as [|d r'] eqn:E; [discriminate|].
    apply skip_ws_cons_length in E. destruct (N.eqb d 44).
    + apply pmap_POk in H. destruct H as (a & H & _). apply IHe in H.
      pose proof (skip_ws_length r') as Lr. lia.
    + destruct (N.eqb d 93); [|discriminate]. inversion H; subst. lia.
  - intros s l r H. cbn [parse_members] in H.
    destruct s as [|q s0]; [discriminate|].
    destruct (N.eqb q 34); [|discriminate].
    destruct (parse_chars s0) as [key r1| |] eqn:Ek; try discriminate.
    apply parse_chars_length with (n := length s0) in Ek; [|lia].
    destruct (skip_ws r1) as [|col r2] eqn:E1; [discriminate|].
    apply skip_ws_cons_length in E1.
    destruct (N.eqb col 58); [|discriminate].
    destruct (parse_value f (skip_ws r2)) as [v r3| |] eqn:Ev; try discriminate.
    apply IHv in Ev. pose proof (skip_ws_length r2) as Lr2.
    destruct (skip_ws r3) as [|d r4] eqn:E3; [discriminate|].
    apply skip_ws_cons_length in E3. destruct (N.eqb d 44).
    + apply pmap_POk in H. destruct H as (a & H & _). apply IHm in H.
      pose proof (skip_ws_length r4) as Lr4. simpl. lia.
    + destruct (N.eqb d 125); [|discriminate]. inversion H; subst. simpl. lia.
Qed.

Lemma parse_chars_fuel :
  forall n s, length s <= n -> parse_chars s <> PFuel.
Proof.
  induction n as [|n IH]; intros s Hn.
  - destruct s; [discriminate|simpl in Hn; lia].
  - destruct s as [|c s1]; [discriminate|]. cbn [parse_chars length] in *.
    destruct (N.eqb c 34); [discriminate|].
    destruct (N.eqb c 92).
    { destruct s1 as [|e s2]; [discriminate|].
      destruct (N.eqb e 117).
      - destruct s2 as [|h1 [|h2 [|h3 [|h4 s3]]]]; try discriminate.
        destruct (hex4 h1 h2 h3 h4); [|discriminate].
        intros H. apply pmap_PFuel in H. revert H. apply IH.
        cbn [length] in *. lia.
      - destruct (escape e); [|discriminate].
        intros H. apply pmap_PFuel in H. revert H. apply IH.
        cbn [length] in *. lia. }
    destruct (N.ltb c 32); [discriminate|].
    intros H. apply pmap_PFuel in H. revert H. apply IH. lia.
Qed.

Lemma lex_word_fuel (w : jsstring) (v : json) (s : jsstring) :
  lex_word w v s <> PFuel.
Proof. unfold lex_word. destruct (strip_prefix w s); discriminate. Qed.

Lemma lex_number_fuel (s : jsstring) : lex_number s <> PFuel.
Proof.
  unfold lex_number. destruct (lex_minus s) as [sg s1].
  destruct (lex_int s1) as [[i s2]|]; [|discriminate].
  destruct (lex_frac s2) as [[f s3]|]; [|discriminate].
  destruct (lex_exp s3) as [[e s4]|]; discriminate.
Qed.

(** With a budget of twice the length of the text and one more the
    parser never stops for lack of budget. *)
Lemma parse_fuel :
  forall f,
    (forall s, 2 * length s + 1 <= f -> parse_value f s <> PFuel)
    /\ (forall s, 2 * length s + 2 <= f -> parse_elements f s <> PFuel)
    /\ (forall s, 2 * length s + 2 <= f -> parse_members f s <> PFuel).
Proof.
  induction f as [|f (IHv & IHe & IHm)];
    [repeat split; intros; lia|].
  destruct (parse_progress f) as (Pv & Pe & Pm).
  repeat split.
  - intros s Hf. destruct s as [|c s0]; [discriminate|].
    cbn [parse_value length] in *.
    destruct (N.eqb c 34).
    { intros H. apply pmap_PFuel in H. revert H.
      apply parse_chars_fuel with (n := length s0). lia. }
    destruct (N.eqb c 91).
    { destruct (skip_ws s0) as [|d r'] eqn:E; [discriminate|].
      apply skip_ws_cons_length in E.
      destruct (N.eqb d 93); [discriminate|].
      intros H. apply pmap_PFuel in H. revert H. apply IHe. simpl. lia. }
    destruct (N.eqb c 123).
    { destruct (skip_ws s0) as [|d r'] eqn:E; [discriminate|].
      apply skip_ws_cons_length in E.
      destruct (N.eqb d 125); [discriminate|].
      intros H. apply pmap_PFuel in H. revert H. apply IHm. simpl. lia. }
    destruct (N.eqb c 116); [apply lex_word_fuel|].
    destruct (N.eqb c 102); [apply lex_word_fuel|].
    destruct (N.eqb c 110); [apply lex_word_fuel|].
    apply lex_number_fuel.
  - intros s Hf. cbn [parse_elements].
    destruct (parse_value f s) as [v r1| |] eqn:Ev.
    + apply Pv in Ev.
      destruct (skip_ws r1) as [|d r'] eqn:E; [discriminate|].
      apply skip_ws_cons_length in E. destruct (N.eqb d 44).
      * intros H. apply pmap_PFuel in H. revert H. apply IHe.
        pose proof (skip_ws_length r') as Lr. lia.
      * destruct (N.eqb d 93); discriminate.
    + discriminate.
    + exfalso. revert Ev. apply IHv. lia.
  - intros s Hf. cbn [parse_members].
    destruct s as [|q s0]; [discriminate|]. cbn [length] in Hf.
    destruct (N.eqb q 34); [|discriminate].
    destruct (parse_chars s0) as [key r1| |] eqn:Ek.
    + apply parse_chars_length with (n := length s0) in Ek; [|lia].
      destruct (skip_ws r1) as [|col r2] eqn:E1; [discriminate|].
      apply skip_ws_cons_length in E1.
      destruct (N.eqb col 58); [|discriminate].
      pose proof (skip_ws_length r2) as Lr2.
      destruct (parse_value f (skip_ws r2)) as [v r3| |] eqn:Ev.
      * apply Pv in Ev.
        destruct (skip_ws r3) as [|d r4] eqn:E3; [discriminate|].
        apply skip_ws_cons_length in E3. destruct (N.eqb d 44).
        -- intros H. apply pmap_PFuel in H. revert H. apply IHm.
           pose proof (skip_ws_length r4) as Lr4. lia.
        -- destruct (N.eqb d 125); discriminate.
      * discriminate.
      * exfalso. revert Ev. apply IHv. lia.
    + discriminate.
    + exfalso. revert Ek. apply parse_chars_fuel with (n := length s0). lia.
Qed.

(** [JSON_parse] answers [None] only for a text outside the grammar. *)
Lemma JSON_parse_budget (text : jsstring) :
  parse_value (budget text) (skip_ws text) <> PFuel.
Proof.
  apply (parse_fuel (budget text)). unfold budget.
  pose proof (skip_ws_length text). lia.
Qed.

(** A larger budget changes no result. *)
Lemma parse_fuel_mono :
  forall f,
    (forall f' s v r, f <= f' -> parse_value f s = POk v r ->
                      parse_value f' s = POk v r)
    /\ (forall f' s l r, f <= f' -> parse_elements f s = POk l r ->
                         parse_elements f' s = POk l r)
    /\ (forall f' s l r, f <= f' -> parse_members f s = POk l r ->
                         parse_members f' s = POk l r).
Proof.
  induction f as [|f (IHv & IHe & IHm)];
    [repeat split; intros; discriminate|].
  repeat split; intros [|f'] s x r Hle H; try lia;
    assert (Hle' : f <= f') by lia.
  - destruct s as [|c s0]; [discriminate|].
    cbn [parse_value] in *.
    destruct (N.eqb c 34); [exact H|].
    destruct (N.eqb c 91).
    { destruct (skip_ws s0) as [|d r']; [discriminate|].
      destruct (N.eqb d 93); [exact H|].
      apply pmap_POk in H. destruct H as (a & H & ->).
      rewrite (IHe f' _ _ _ Hle' H). reflexivity. }
    destruct (N.eqb c 123).
    { destruct (skip_ws s0) as [|d r']; [discriminate|].
      destruct (N.eqb d 125); [exact H|].
      apply pmap_POk in H. destruct H as (a & H & ->).
      rewrite (IHm f' _ _ _ Hle' H). reflexivity. }
    exact H.
  - cbn [parse_elements] in *.
    destruct (parse_value f s) as [v r1| |] eqn:Ev; try discriminate.
    rewrite (IHv f' _ _ _ Hle' Ev).
    destruct (skip_ws r1) as [|d r']; [discriminate|].
    destruct (N.eqb d 44); [|exact H].
    apply pmap_POk in H. destruct H as (a & H & ->).
    rewrite (IHe f' _ _ _ Hle' H). reflexivity.
  - cbn [parse_members] in *.
    destruct s as [|q s0]; [discriminate|].
    destruct (N.eqb q 34); [|discriminate].
    destruct (parse_chars s0) as [key r1| |]; try discriminate.
    destruct (skip_ws r1) as [|col r2]; [discriminate|].
    destruct (N.eqb col 58); [|discriminate].
    destruct (parse_value f (skip_ws r2)) as [v r3| |] eqn:Ev; try discriminate.
    rewrite (IHv f' _ _ _ Hle' Ev).
    destruct (skip_ws r3) as [|d r4]; [discriminate|].
    destruct (N.eqb d 44); [|exact H].
    apply pmap_POk in H. destruct H as (a & H & ->).
    rewrite (IHm f' _ _ _ Hle' H). reflexivity.
Qed.

(** *** Trailing white space

    Appending JSON white space to a text changes nothing of what a
    lexer or the parser reads at its front. *)

Lemma ws_head (c : char) (t : jsstring) :
  forallb is_ws (c :: t) = true -> is_ws c = true.
Proof. cbn [forallb]. intros H. apply andb_prop in H. tauto. Qed.

Lemma ws_head_neq (c : char) (t : jsstring) (d : char) :
  forallb is_ws (c :: t) = true -> is_ws d = false -> N.eqb c d = false.
Proof.
  intros H Hd. apply ws_head in H.
  destruct (N.eqb_spec c d); [congruence|reflexivity].
Qed.

Section Trailing.
Variable t : jsstring.
Hypothesis t_ws : forallb is_ws t = true.

Lemma parse_chars_app :
  forall n s x r, length s <= n -> parse_chars s = POk x r ->
                  parse_chars (s ++ t) = POk x (r ++ t).
Proof.
  induction n as [|n IH]; intros s x r Hn H.
  - destruct s; [discriminate|simpl in Hn; lia].
  - destruct s as [|c s1]; [discriminate|].
    cbn [parse_chars app length] in *.
    destruct (N.eqb c 34).
    { inversion H; subst. reflexivity. }
    destruct (N.eqb c 92).
    { destruct s1 as [|e s2]; [discriminate|]. cbn [app].
      destruct (N.eqb e 117).
      - destruct s2 as [|h1 [|h2 [|h3 [|h4 s3]]]]; try discriminate.
        cbn [app]. destruct (hex4 h1 h2 h3 h4); [|discriminate].
        apply pmap_POk in H. destruct H as (a & H & ->).
        rewrite (IH s3 a r); [reflexivity| |exact H]. cbn [length] in *. lia.
      - destruct (escape e); [|discriminate].
        apply pmap_POk in H. destruct H as (a & H & ->).
        rewrite (IH s2 a r); [reflexivity| |exact H]. cbn [length] in *. lia. }
    destruct (N.ltb c 32); [discriminate|].
    apply pmap_POk in H. destruct H as (a & H & ->).
    rewrite (IH s1 a r); [reflexivity|lia|exact H].
Qed.

Lemma span_digits_t : span_digits t = ([], t).
Proof.
  pose proof t_ws as H. destruct t as [|c t']; [reflexivity|].
  cbn [span_digits]. rewrite (ws_not_digit c); [reflexivity|].
  eapply ws_head; eauto.
Qed.

Lemma span_digits_app (s : jsstring) :
  span_digits (s ++ t) = (fst (span_digits s), snd (span_digits s) ++ t).
Proof.
  induction s as [|c s IH]; cbn [span_digits app].
  - rewrite span_digits_t. reflexivity.
  - destruct (is_digit c); [|reflexivity].
    rewrite IH. destruct (span_digits s). reflexivity.
Qed.

Lemma lex_int_app (s i r : jsstring) :
  lex_int s = Some (i, r) -> lex_int (s ++ t) = Some (i, r ++ t).
Proof.
  destruct s as [|c s]; [discriminate|]. cbn [lex_int app].
  destruct (N.eqb c 48).
  - intros H; inversion H; subst. reflexivity.
  - destruct (is_digit c); [|discriminate].
    rewrite span_digits_app. destruct (span_digits s).
    intros H; inversion H; subst. reflexivity.
Qed.

Lemma lex_frac_app (s f r : jsstring) :
  lex_frac s = Some (f, r) -> lex_frac (s ++ t) = Some (f, r ++ t).
Proof.
  destruct s as [|c s]; cbn [lex_frac app].
  - intros H; inversion H; subst. cbn [app].
    pose proof t_ws as Ht. destruct t as [|d t']; [reflexivity|].
    cbn [lex_frac]. rewrite (ws_head_neq d t' 46%N); auto.
  - destruct (N.eqb c 46).
    + rewrite span_digits_app.
      destruct (span_digits s) as [[|d ds] r']; [discriminate|].
      intros H; inversion H; subst. reflexivity.
    + intros H; inversion H; subst. reflexivity.
Qed.

Lemma lex_sign_app (s : jsstring) :
  lex_sign (s ++ t) = (fst (lex_sign s), snd (lex_sign s) ++ t).
Proof.
  destruct s as [|d s]; cbn [lex_sign app].
  - pose proof t_ws as Ht. destruct t as [|d t']; [reflexivity|].
    cbn [lex_sign].
    rewrite (ws_head_neq d t' 43%N), (ws_head_neq d t' 45%N); auto.
  - destruct (N.eqb d 43 || N.eqb d 45); reflexivity.
Qed.

Lemma lex_exp_app (s e r : jsstring) :
  lex_exp s = Some (e, r) -> lex_exp (s ++ t) = Some (e, r ++ t).
Proof.
  destruct s as [|c s]; cbn [lex_exp app].
  - intros H; inversion H; subst. cbn [app].
    pose proof t_ws as Ht. destruct t as [|d t']; [reflexivity|].
    cbn [lex_exp].
    rewrite (ws_head_neq d t' 101%N), (ws_head_neq d t' 69%N); auto.
  - destruct (N.eqb c 101 || N.eqb c 69).
    + rewrite lex_sign_app. destruct (lex_sign s) as [sg r1]. cbn [fst snd].
      rewrite span_digits_app.
      destruct (span_digits r1) as [[|d ds] r2]; [discriminate|].
      intros H; inversion H; subst. reflexivity.
    + intros H; inversion H; subst. reflexivity.
Qed.

Lemma lex_minus_app (s : jsstring) :
  lex_minus (s ++ t) = (fst (lex_minus s), snd (lex_minus s) ++ t).
Proof.
  destruct s as [|d s]; cbn [lex_minus app].
  - pose proof t_ws as Ht. destruct t as [|d t']; [reflexivity|].
    cbn [lex_minus]. rewrite (ws_head_neq d t' 45%N); auto.
  - destruct (N.eqb d 45); reflexivity.
Qed.

Lemma lex_number_app (s : jsstring) (v : json) (r : jsstring) :
  lex_number s = POk v r -> lex_number (s ++ t) = POk v (r ++ t).
Proof.
  unfold lex_number. rewrite lex_minus_app.
  destruct (lex_minus s) as [sg s1]. cbn [fst snd].
  destruct (lex_int s1) as [[i s2]|] eqn:E1; [|discriminate].
  rewrite (lex_int_app _ _ _ E1).
  destruct (lex_frac s2) as [[f s3]|] eqn:E2; [|discriminate].
  rewrite (lex_frac_app _ _ _ E2).
  destruct (lex_exp s3) as [[e s4]|] eqn:E3; [|discriminate].
  rewrite (lex_exp_app _ _ _ E3).
  intros H; inversion H; subst. reflexivity.
Qed.

Lemma lex_word_app (w : jsstring) (v0 : json) (s : jsstring) (v : json) (r : jsstring) :
  lex_word w v0 s = POk v r -> lex_word w v0 (s ++ t) = POk v (r ++ t).
Proof.
  unfold lex_word. destruct (strip_prefix w s) eqn:E; [|discriminate].
  rewrite (strip_prefix_extend _ _ _ t E).
  intros H; inversion H; subst. reflexivity.
Qed.

Lemma parse_app :
  forall f,
    (forall s v r, parse_value f s = POk v r ->
                   parse_value f (s ++ t) = POk v (r ++ t))
    /\ (forall s l r, parse_elements f s = POk l r ->
                      parse_elements f (s ++ t) = POk l (r ++ t))
    /\ (forall s l r, parse_members f s = POk l r ->
                      parse_members f (s ++ t) = POk l (r ++ t)).
Proof.
  induction f as [|f (IHv & IHe & IHm)];
    [repeat split; intros; discriminate|].
  assert (Ev0 : forall v r, parse_value f [] <> POk v r)
    by (intros v r; destruct f; discriminate).
  assert (Ee0 : forall l r, parse_elements f [] <> POk l r).
  { intros l r. destruct f as [|f0]; [discriminate|].
    cbn [parse_elements]. destruct f0; discriminate. }
  assert (Em0 : forall l r, parse_members f [] <> POk l r)
    by (intros l r; destruct f; discriminate).
  repeat split.
  - intros s v r H. destruct s as [|c s0]; [discriminate|].
    cbn [parse_value app] in *.
    destruct (N.eqb c 34).
    { apply pmap_POk in H. destruct H as (a & H & ->).
      rewrite (parse_chars_app (length s0) _ _ _ (le_n _) H). reflexivity. }
    destruct (N.eqb c 91).
    { destruct (skip_ws s0) as [|d r'] eqn:E; [discriminate|].
      rewrite (skip_ws_cons_app t _ _ _ E). destruct (N.eqb d 93).
      - inversion H; subst. reflexivity.
      - apply pmap_POk in H. destruct H as (a & H & ->).
        apply IHe in H. cbn [app] in H. rewrite H. reflexivity. }
    destruct (N.eqb c 123).
    { destruct (skip_ws s0) as [|d r'] eqn:E; [discriminate|].
      rewrite (skip_ws_cons_app t _ _ _ E). destruct (N.eqb d 125).
      - inversion H; subst. reflexivity.
      - apply pmap_POk in H. destruct H as (a & H & ->).
        apply IHm in H. cbn [app] in H. rewrite H. reflexivity. }
    destruct (N.eqb c 116); [apply (lex_word_app _ _ (c :: s0) _ _ H)|].
    destruct (N.eqb c 102); [apply (lex_word_app _ _ (c :: s0) _ _ H)|].
    destruct (N.eqb c 110); [apply (lex_word_app _ _ (c :: s0) _ _ H)|].
    apply (lex_number_app (c :: s0) _ _ H).
  - intros s l r H. cbn [parse_elements] in *.
    destruct (parse_value f s) as [v r1| |] eqn:Ev; try discriminate.
    rewrite (IHv _ _ _ Ev).
    destruct (skip_ws r1) as [|d r'] eqn:E; [discriminate|].
    rewrite (skip_ws_cons_app t _ _ _ E). destruct (N.eqb d 44).
    + apply pmap_POk in H. destruct H as (a & H & ->).
      rewrite skip_ws_app by (intros E0; rewrite E0 in H; exact (Ee0 _ _ H)).
      rewrite (IHe _ _ _ H). reflexivity.
    + destruct (N.eqb d 93); [|discriminate]. inversion H; subst. reflexivity.
  - intros s l r H. cbn [parse_members] in *.
    destruct s as [|q s0]; [discriminate|]. cbn [app].
    destruct (N.eqb q 34); [|discriminate].
    destruct (parse_chars s0) as [key r1| |] eqn:Ek; try discriminate.
    rewrite (parse_chars_app (length s0) _ _ _ (le_n _) Ek).
    destruct (skip_ws r1) as [|col r2] eqn:E1; [discriminate|].
    rewrite (skip_ws_cons_app t _ _ _ E1).
    destruct (N.eqb col 58); [|discriminate].
    destruct (parse_value f (skip_ws r2)) as [v r3| |] eqn:Ev; try discriminate.
    rewrite skip_ws_app by (intros E0; rewrite E0 in Ev; exact (Ev0 _ _ Ev)).
    rewrite (IHv _ _ _ Ev).
    destruct (skip_ws r3) as [|d r4] eqn:E3; [discriminate|].
    rewrite (skip_ws_cons_app t _ _ _ E3). destruct (N.eqb d 44).
    + apply pmap_POk in H. destruct H as (a & H & ->).
      rewrite skip_ws_app by (intros E0; rewrite E0 in H; exact (Em0 _ _ H)).
      rewrite (IHm _ _ _ H). reflexivity.
    + destruct (N.eqb d 125); [|discriminate]. inversion H; subst. reflexivity.
Qed.

End Trailing.

(** [JSON.parse] ignores JSON white space around a text it accepts. *)
Lemma JSON_parse_ws (w1 inner w2 : jsstring) (v : json) :
  forallb is_ws w1 = true -> forallb is_ws w2 = true ->
  JSON_parse inner = Some v -> JSON_parse (w1 ++ inner ++ w2) = Some v.
Proof.
  intros H1 H2. unfold JSON_parse.
  destruct (parse_value (budget inner) (skip_ws inner)) as [x rest| |] eqn:E;
    try discriminate.
  destruct (skip_ws rest) eqn:Er; [|discriminate].
  intros H; inversion H; subst x. clear H.
  assert (Hne : skip_ws inner <> []).
  { intros E0. rewrite E0 in E. unfold budget in E.
    rewrite Nat.add_1_r in E. discriminate. }
  rewrite skip_ws_spaces by exact H1.
  rewrite skip_ws_app by exact Hne.
  apply (proj1 (parse_app w2 H2 (budget inner))) in E.
  apply (proj1 (parse_fuel_mono (budget inner)))
    with (f' := budget (w1 ++ inner ++ w2)) in E.
  - rewrite E.
    assert (Hr : forallb is_ws rest = true).
    { clear - Er. induction rest as [|c rest IH]; [reflexivity|].
      cbn [skip_ws forallb] in *. destruct (is_ws c); [|discriminate].
      apply IH, Er. }
    rewrite skip_ws_all; [reflexivity|].
    rewrite forallb_app, Hr, H2. reflexivity.
  - unfold budget. rewrite !length_app. lia.
Qed.

(** White space of the pattern class [\s] that is not JSON white space
    (no-break space, form feed, vertical tab, ...) is rejected when it
    comes before the value. *)
Lemma space_neq (c k : char) :
  is_space c = true -> is_space k = false -> N.eqb c k = false.
Proof.
  intros Hc Hk. destruct (N.eqb_spec c k); [congruence|reflexivity].
Qed.

Lemma space_not_digit (c : char) : is_space c = true -> is_digit c = false.
Proof.
  intros Hc. destruct (is_digit c) eqn:Hd; [|reflexivity].
  unfold is_digit in Hd. apply andb_prop in Hd. destruct Hd as [H1 H2].
  apply N.leb_le in H1. apply N.leb_le in H2.
  assert (E : (c = 48 \/ c = 49 \/ c = 50 \/ c = 51 \/ c = 52 \/ c = 53
               \/ c = 54 \/ c = 55 \/ c = 56 \/ c = 57)%N) by lia.
  repeat (destruct E as [E|E]; [subst c; discriminate Hc|]).
  subst c. discriminate Hc.
Qed.

Lemma JSON_parse_other_space (w : jsstring) (c : char) (s : jsstring) :
  forallb is_ws w = true -> is_space c = true -> is_ws c = false ->
  JSON_parse (w ++ c :: s) = None.
Proof.
  intros Hw Hc Hn. unfold JSON_parse.
  rewrite (skip_ws_spaces w (c :: s) Hw). cbn [skip_ws]. rewrite Hn.
  unfold budget. rewrite Nat.add_1_r. cbn [parse_value].
  rewrite (space_neq c 34%N Hc eq_refl), (space_neq c 91%N Hc eq_refl),
    (space_neq c 123%N Hc eq_refl), (space_neq c 116%N Hc eq_refl),
    (space_neq c 102%N Hc eq_refl), (space_neq c 110%N Hc eq_refl).
  unfold lex_number, lex_minus, lex_int.
  rewrite (space_neq c 45%N Hc eq_refl), (space_neq c 48%N Hc eq_refl),
    (space_not_digit c Hc).
  reflexivity.
Qed.

(** *** The parser on sample texts *)

Example parse_object :
  JSON_parse (jq " {'a' : [1.5e-3, true, null], 'b' : {}} ")
  = Some (JObject [(lit "a", JArray [JNumber (lit "1.5e-3"); JBool true; JNull]);
                   (lit "b", JObject [])]).
Proof. vm_compute. reflexivity. Qed.

Example parse_escapes :
  JSON_parse (jq "'a\nA\/'") = Some (JString [97; 10; 65; 47]%N).
Proof. vm_compute. reflexivity. Qed.

Example parse_trailing_comma : JSON_parse (jq "{'a':1,}") = None.
Proof. vm_compute. reflexivity. Qed.

Example parse_unmatched_brace : JSON_parse (jq "{'a':[1,2}") = None.
Proof. vm_compute. reflexivity. Qed.

Example parse_leading_zero : JSON_parse (lit "01") = None.
Proof. vm_compute. reflexivity. Qed.

Example parse_empty : JSON_parse [] = None.
Proof. vm_compute. reflexivity. Qed.

Example parse_two_values : JSON_parse (lit "1 2") = None.
Proof. vm_compute. reflexivity. Qed.

Example parse_form_feed : JSON_parse (12%N :: lit "1") = None.
Proof. vm_compute. reflexivity. Qed.

End JSONFacts.

(* ================================================================== *)
(** ** Facts: the action *)
(* ================================================================== *)

Module ActionsFacts.
Import JsStr RegExp JSON Actions JsStrFacts RegExpFacts ExtractFacts JSONFacts.

Lemma acceptable_size (f : File) :
  acceptable f = true -> N.ltb (10 * 1024 * 1024) (size f) = false.
Proof.
  unfold acceptable. intros H. apply andb_prop in H. destruct H as [H _].
  apply N.leb_le in H. apply N.ltb_ge. exact H.
Qed.

Lemma acceptable_type (f : File) :
  acceptable f = true ->
  negb (startsWith (type f) (lit "image/"))
  && negb (eqb (type f) (lit "application/pdf")) = false.
Proof.
  unfold acceptable, type_supported. intros H.
  apply andb_prop in H. destruct H as [_ H].
  rewrite <- negb_orb, H. reflexivity.
Qed.

Lemma unsupported_type (t : jsstring) :
  type_supported t = false ->
  negb (startsWith t (lit "image/")) && negb (eqb t (lit "application/pdf")) = true.
Proof. unfold type_supported. intros H. rewrite <- negb_orb, H. reflexivity. Qed.

(** The inner [try]/[catch]: one call of the parser, whose failure is
    logged and rethrown under the action's own message. *)
Lemma parse_response_eq (text : jsstring) :
  parse_response text =
  match JSON_parse (jsonString text) with
  | Some v => ([JsonParse (jsonString text)], Return (Success v))
  | None =>
      ([JsonParse (jsonString text); ConsoleError label_parse syntax_error],
       Throw (JsError msg_parse_thrown))
  end.
Proof.
  unfold parse_response, JSON_parse_call, try_catch, bind, emit, ret, throw,
    console_error.
  destruct (JSON_parse (jsonString text)); reflexivity.
Qed.

Lemma catch_block_parse_thrown :
  catch_block (JsError msg_parse_thrown)
  = ([ConsoleError label_action (JsError msg_parse_thrown)],
     Return (Failure msg_parse)).
Proof. reflexivity. Qed.

(** The outer [catch] always returns a failure object. *)
Lemma catch_block_returns (e : thrown) :
  exists msg, catch_block e = ([ConsoleError label_action e], Return (Failure msg)).
Proof.
  destruct e as [message|]; unfold catch_block, bind, console_error, emit, ret.
  - destruct (includes message (lit "deprecated")); [eauto|].
    destruct (includes message (lit "rate limit")); [eauto|].
    destruct (includes message (lit "parse")); eauto.
  - eauto.
Qed.

(** The candidate of an answer with a fenced block is the text between
    the markers of the block. *)
Lemma jsonString_of_fence (text : jsstring) (m : match_array) (mid : jsstring) :
  js_match re_fence text = Some m ->
  m0 m = fence_open ++ mid ++ fence_close ->
  jsonString text = mid.
Proof.
  intros Hm H0. unfold jsonString, jsonMatch. rewrite Hm, H0.
  apply replace_markers_fenced.
  destruct (js_match_fence text m Hm)
    as (w1 & inner & w2 & _ & H0' & _ & _ & Hn).
  rewrite H0 in H0'. apply app_inv_head in H0'. apply app_inv_tail in H0'.
  rewrite H0'. exact Hn.
Qed.

Section WithModel.
Variable generateContent : jsstring -> GenAI.inlineData -> completion jsstring.

Lemma try_block_acceptable (f : File) :
  acceptable f = true ->
  try_block generateContent (Some f)
  = bind (generate generateContent (generativePart f)) parse_response.
Proof.
  intros H. unfold try_block.
  rewrite (acceptable_size f H), (acceptable_type f H). reflexivity.
Qed.

(** An accepted file whose model call answers [text]. *)
Lemma analyze_text (f : File) (text : jsstring) :
  acceptable f = true ->
  generateContent prompt (generativePart f) = Return text ->
  analyzeContractAction generateContent (Some f) =
  match JSON_parse (jsonString text) with
  | Some v =>
      ([GenerateContent prompt (generativePart f); JsonParse (jsonString text)],
       Return (Success v))
  | None =>
      ([GenerateContent prompt (generativePart f); JsonParse (jsonString text);
        ConsoleError label_parse syntax_error;
        ConsoleError label_action (JsError msg_parse_thrown)],
       Return (Failure msg_parse))
  end.
Proof.
  intros Hf Hg. unfold analyzeContractAction.
  rewrite (try_block_acceptable f Hf).
  unfold generate, await, emit. cbn [bind]. rewrite Hg.
  rewrite parse_response_eq.
  destruct (JSON_parse (jsonString text)); cbn [try_catch app].
  - reflexivity.
  - rewrite catch_block_parse_thrown. reflexivity.
Qed.

(** An accepted file whose model call throws [e]. *)
Lemma analyze_thrown (f : File) (e : thrown) :
  acceptable f = true ->
  generateContent prompt (generativePart f) = Throw e ->
  analyzeContractAction generateContent (Some f) =
  (GenerateContent prompt (generativePart f) :: fst (catch_block e),
   snd (catch_block e)).
Proof.
  intros Hf Hg. unfold analyzeContractAction.
  rewrite (try_block_acceptable f Hf).
  unfold generate, await, emit. cbn [bind]. rewrite Hg.
  cbn [try_catch app]. destruct (catch_block e). reflexivity.
Qed.

(** A fenced block whose content is set off by white space of the
    pattern that is not JSON white space does not parse. *)
Lemma analyze_fence_other_space
      (f : File) (text : jsstring) (m : match_array)
      (w : jsstring) (c : char) (rest : jsstring) :
  acceptable f = true ->
  generateContent prompt (generativePart f) = Return text ->
  js_match re_fence text = Some m ->
  m0 m = fence_open ++ (w ++ c :: rest) ++ fence_close ->
  forallb is_ws w = true -> is_space c = true -> is_ws c = false ->
  snd (analyzeContractAction generateContent (Some f))
  = Return (Failure msg_parse).
Proof.
  intros Hf Hg Hm H0 Hw Hc Hn.
  rewrite (analyze_text f text Hf Hg).
  rewrite (jsonString_of_fence text m _ Hm H0).
  rewrite (JSON_parse_other_space w c rest Hw Hc Hn). reflexivity.
Qed.

Lemma analyze_no_file :
  analyzeContractAction generateContent None
  = ([ConsoleError label_action (JsError msg_no_file)],
     Return (Failure msg_no_file)).
Proof. reflexivity. Qed.

Lemma analyze_too_large (f : File) :
  (10 * 1024 * 1024 < size f)%N ->
  analyzeContractAction generateContent (Some f)
  = ([ConsoleError label_action (JsError msg_too_large)],
     Return (Failure msg_too_large)).
Proof.
  intros H. unfold analyzeContractAction, try_block.
  rewrite (proj2 (N.ltb_lt _ _) H). reflexivity.
Qed.

Lemma analyze_bad_type (f : File) :
  (size f <= 10 * 1024 * 1024)%N ->
  type_supported (type f) = false ->
  analyzeContractAction generateContent (Some f)
  = ([ConsoleError label_action (JsError msg_bad_type)],
     Return (Failure msg_bad_type)).
Proof.
  intros Hs Ht. unfold analyzeContractAction, try_block.
  rewrite (proj2 (N.ltb_ge _ _) Hs), (unsupported_type _ Ht). reflexivity.
Qed.

Lemma unsupported_type_rejected (f : File) :
  (size f <= 10 * 1024 * 1024)%N ->
  startsWith (type f) (lit "image/") = false ->
  type f <> lit "application/pdf" ->
  analyzeContractAction generateContent (Some f)
  = ([ConsoleError label_action (JsError msg_bad_type)],
     Return (Failure msg_bad_type)).
Proof.
  intros Hs Hi Hp. apply analyze_bad_type; [exact Hs|].
  unfold type_supported. rewrite Hi. cbn [orb].
  destruct (eqb (type f) (lit "application/pdf")) eqn:E; [|reflexivity].
  apply eqb_eq in E. contradiction.
Qed.

End WithModel.

(** *** Samples *)

Example base64_three : toString_base64 [x4d; x61; x6e]%byte = lit "TWFu".
Proof. vm_compute. reflexivity. Qed.

Example base64_two : toString_base64 [x4d; x61]%byte = lit "TWE=".
Proof. vm_compute. reflexivity. Qed.

Example base64_one : toString_base64 [x4d]%byte = lit "TQ==".
Proof. vm_compute. reflexivity. Qed.

Example base64_four : toString_base64 [xff; xfe; xfd; x00]%byte = lit "//79AA==".
Proof. vm_compute. reflexivity. Qed.

Example run_fenced :
  analyzeContractAction (Fixtures.answers (lit "```json [true] ```"))
                        (Some Fixtures.png)
  = ([GenerateContent prompt (generativePart Fixtures.png);
      JsonParse (lit " [true] ")],
     Return (Success (JArray [JBool true]))).
Proof. vm_compute. reflexivity. Qed.

(** Of two fenced blocks the first is the one that is parsed. *)
Example run_two_blocks :
  snd (analyzeContractAction
         (Fixtures.answers (lit "```json {oops ``` or ```json [true] ```"))
         (Some Fixtures.png))
  = Return (Failure msg_parse).
Proof. vm_compute. reflexivity. Qed.

Example run_unknown :
  snd (analyzeContractAction (Fixtures.fails NonError) (Some Fixtures.png))
  = Return (Failure msg_unknown).
Proof. vm_compute. reflexivity. Qed.

End ActionsFacts.

(* ================================================================== *)
(** ** The action in a world with state: facts *)
(* ================================================================== *)

Module SequentialFacts.
Import JsStr RegExp JSON GenAI Actions Fixtures.
Import JsStrFacts ActionsFacts.

(** The outer [catch] in a world: what it returns and what it logs do
    not depend on the world. *)
Lemma catch_block_in_world (Service : Type) (e : thrown)
      (w : Sequential.World Service) :
  snd (Sequential.catch_block e w) = snd (catch_block e)
  /\ Sequential.console (fst (Sequential.catch_block e w))
     = Sequential.console w ++ Sequential.console_lines (fst (catch_block e))
  /\ Sequential.service (fst (Sequential.catch_block e w))
     = Sequential.service w.
Proof.
  unfold Sequential.catch_block, Sequential.bind, Sequential.console_error,
    Sequential.ret, catch_block, bind, console_error, emit, ret.
  destruct e as [message|]; [|repeat split].
  destruct (includes message (lit "deprecated")); [repeat split|].
  destruct (includes message (lit "rate limit")); [repeat split|].
  destruct (includes message (lit "parse")); repeat split.
Qed.

(** The two validation rules, as the tests of the source. *)
Lemma acceptable_tests (f : File) :
  acceptable f
  = negb (N.ltb (10 * 1024 * 1024) (size f))
    && negb (negb (startsWith (type f) (lit "image/"))
             && negb (eqb (type f) (lit "application/pdf"))).
Proof.
  unfold acceptable, type_supported. rewrite N.leb_antisym.
  destruct (startsWith (type f) (lit "image/"));
    destruct (eqb (type f) (lit "application/pdf")); reflexivity.
Qed.

(** The run in a world agrees with the run against the answers the
    service gives in the state it is found in: same completion, the
    console gets the lines of that run, and the service is asked once
    when the file passes the validation, and not at all otherwise. *)
Lemma run_in_world (Service : Type)
      (generateContent :
         Service -> jsstring -> inlineData -> Service * completion jsstring)
      (file : option File) (w : Sequential.World Service) :
  snd (Sequential.analyzeContractAction generateContent file w)
  = snd (analyzeContractAction
           (fun p part => snd (generateContent (Sequential.service w) p part))
           file)
  /\ Sequential.console
       (fst (Sequential.analyzeContractAction generateContent file w))
     = Sequential.console w
       ++ Sequential.console_lines
            (fst (analyzeContractAction
                    (fun p part =>
                       snd (generateContent (Sequential.service w) p part))
                    file))
  /\ Sequential.service
       (fst (Sequential.analyzeContractAction generateContent file w))
     = match file with
       | Some f =>
           if acceptable f then
             fst (generateContent (Sequential.service w) prompt
                                  (generativePart f))
           else Sequential.service w
       | None => Sequential.service w
       end.
Proof.
  unfold Sequential.analyzeContractAction, Sequential.try_catch,
    Sequential.try_block, analyzeContractAction, try_block.
  destruct file as [f|].
  2:{ cbn [Sequential.throw try_catch throw].
      destruct (catch_block_in_world Service (JsError msg_no_file) w)
        as (A & B & C).
      destruct (catch_block (JsError msg_no_file)) as [tr c].
      cbn [fst snd app] in *. split; [|split]; assumption. }
  rewrite (acceptable_tests f).
  destruct (N.ltb (10 * 1024 * 1024) (size f)).
  { cbn [Sequential.throw try_catch throw negb andb].
    destruct (catch_block_in_world Service (JsError msg_too_large) w)
      as (A & B & C).
    destruct (catch_block (JsError msg_too_large)) as [tr c].
    cbn [fst snd app] in *. split; [|split]; assumption. }
  destruct (negb (startsWith (type f) (lit "image/"))
            && negb (eqb (type f) (lit "application/pdf"))).
  { cbn [Sequential.throw try_catch throw negb andb].
    destruct (catch_block_in_world Service (JsError msg_bad_type) w)
      as (A & B & C).
    destruct (catch_block (JsError msg_bad_type)) as [tr c].
    cbn [fst snd app] in *. split; [|split]; assumption. }
  cbn [negb andb].
  unfold Sequential.bind, Sequential.generate, generate, await, emit, bind.
  destruct (generateContent (Sequential.service w) prompt (generativePart f))
    as [s [text|e]]; cbn [snd fst].
  - unfold Sequential.parse_response, Sequential.try_catch, Sequential.bind,
      Sequential.JSON_parse_call, Sequential.ret, Sequential.console_error,
      Sequential.throw, parse_response, JSON_parse_call, try_catch, bind,
      console_error, emit, ret, throw.
    destruct (JSON_parse (jsonString text)) as [v|].
    + cbn. rewrite app_nil_r. split; [|split]; reflexivity.
    + cbn [fst snd app].
      match goal with
      | |- context [Sequential.catch_block ?e ?w'] =>
          destruct (catch_block_in_world Service e w') as (A & B & C);
            remember (Sequential.catch_block e w') as r
      end.
      destruct (catch_block (JsError msg_parse_thrown)) as [tr c].
      cbn [fst snd] in A, B. cbn [Sequential.console] in B.
      cbn [Sequential.service] in C.
      cbn [fst snd app Sequential.console_lines].
      rewrite A, B, C, <- app_assoc. split; [|split]; reflexivity.
  - unfold try_catch.
    match goal with
    | |- context [Sequential.catch_block ?e ?w'] =>
        destruct (catch_block_in_world Service e w') as (A & B & C);
          remember (Sequential.catch_block e w') as r
    end.
    destruct (catch_block e) as [tr c].
    cbn [fst snd] in A, B. cbn [Sequential.console] in B.
    cbn [Sequential.service] in C.
    cbn [fst snd app Sequential.console_lines].
    rewrite A, B, C. split; [|split]; reflexivity.
Qed.

(** The run against a model depends on the model through its answers
    only. *)
Lemma analyze_ext
      (g1 g2 : jsstring -> inlineData -> completion jsstring)
      (file : option File) :
  (forall p part, g1 p part = g2 p part) ->
  analyzeContractAction g1 file = analyzeContractAction g2 file.
Proof.
  intros Hg. unfold analyzeContractAction, try_block, generate.
  destruct file as [f|]; [|reflexivity]. rewrite Hg. reflexivity.
Qed.

(** The action returns, whatever the model does. *)
Lemma analyze_returns
      (generateContent : jsstring -> inlineData -> completion jsstring)
      (file : option File) :
  exists o, snd (analyzeContractAction generateContent file) = Return o.
Proof.
  destruct file as [f|]; [|rewrite analyze_no_file; eexists; reflexivity].
  destruct (N.ltb_spec (10 * 1024 * 1024) (size f)) as [Hs|Hs].
  { rewrite (analyze_too_large generateContent f Hs). eexists; reflexivity. }
  destruct (type_supported (type f)) eqn:Ht.
  2:{ rewrite (analyze_bad_type generateContent f Hs Ht). eexists; reflexivity. }
  assert (Hf : acceptable f = true).
  { unfold acceptable. rewrite Ht, (proj2 (N.leb_le _ _) Hs). reflexivity. }
  destruct (generateContent prompt (generativePart f)) as [text|e] eqn:Hg.
  - rewrite (analyze_text generateContent f text Hf Hg).
    destruct (JSON_parse (jsonString text)); eexists; reflexivity.
  - rewrite (analyze_thrown generateContent f e Hf Hg).
    destruct (catch_block_returns e) as (msg & ->). eexists; reflexivity.
Qed.

(** A service whose answers depend on its state is told apart: after a
    first request that succeeds, the same file fails. *)
Lemma service_with_memory_is_seen :
  let w := Sequential.MkWorld 0 [] in
  let first := Sequential.analyzeContractAction
                 (Sequential.answers_first 1 fenced) (Some png) w in
  let second := Sequential.analyzeContractAction
                  (Sequential.answers_first 1 fenced) (Some png) (fst first) in
  (exists d, snd first = Return (Success d))
  /\ snd second = Return (Failure (lit "quota exceeded")).
Proof.
  split; [eexists|]; vm_compute; reflexivity.
Qed.

End SequentialFacts.

(* ================================================================== *)
(** ** The properties of the specification *)
(* ================================================================== *)

Module Spec.
Import JsStr RegExp JSON GenAI ContractAnalyzer Actions Fixtures.
Import JsStrFacts RegExpFacts ExtractFacts JSONFacts ActionsFacts.
Import SequentialFacts.

(** *** Failure classification *)




(** *** Validation *)

(** C2, as stated, fails: a file of an unsupported type that is also
    over the size limit is rejected for its size, the rule tested
    first. *)
Lemma C2_counterexample :
  startsWith (type big_text) (lit "image/") = false
  /\ type big_text <> lit "application/pdf"
  /\ snd (analyzeContractAction (answers report) (Some big_text))
     = Return (Failure msg_too_large)
  /\ snd (analyzeContractAction (answers report) (Some big_text))
     <> Return (Failure msg_bad_type).
Proof.
  repeat split; try (vm_compute; reflexivity); vm_compute; discriminate.
Qed.

(** C2, amended: for every file of at most 10 * 1024 * 1024 bytes whose
    type neither starts with "image/" nor equals "application/pdf", the
    action returns the failure "Only image and PDF files are
    supported", and the model is not called. *)
Theorem C2_unsupported_type
        (generateContent : jsstring -> inlineData -> completion jsstring)
        (f : File) :
  (size f <= 10 * 1024 * 1024)%N ->
  startsWith (type f) (lit "image/") = false ->
  type f <> lit "application/pdf" ->
  snd (analyzeContractAction generateContent (Some f))
  = Return (Failure (lit "Only image and PDF files are supported"))
  /\ invoked (fst (analyzeContractAction generateContent (Some f))) = false.
Proof.
  intros Hs Hi Hp.
  rewrite (unsupported_type_rejected generateContent f Hs Hi Hp).
  split; reflexivity.
Qed.

Lemma C2_unsupported_type_witness :
  snd (analyzeContractAction (answers report) (Some small_text))
  = Return (Failure (lit "Only image and PDF files are supported"))
  /\ invoked (fst (analyzeContractAction (answers report) (Some small_text)))
     = false.
Proof.
  apply (C2_unsupported_type (answers report) small_text).
  - vm_compute. discriminate.
  - vm_compute. reflexivity.
  - vm_compute. discriminate.
Defined.

(** C3: a file of more than 10 * 1024 * 1024 bytes is answered with the
    failure "File size exceeds 10MB limit" and the model is not called;
    a file of exactly that size passes the size rule: it is judged by
    its type, and with a supported type it reaches the model. *)
Theorem C3_size_limit
        (generateContent : jsstring -> inlineData -> completion jsstring)
        (f : File) :
  ((10 * 1024 * 1024 < size f)%N ->
   snd (analyzeContractAction generateContent (Some f))
   = Return (Failure (lit "File size exceeds 10MB limit"))
   /\ invoked (fst (analyzeContractAction generateContent (Some f))) = false)
  /\ (size f = (10 * 1024 * 1024)%N ->
      (type_supported (type f) = false ->
       snd (analyzeContractAction generateContent (Some f))
       = Return (Failure (lit "Only image and PDF files are supported")))
      /\ (type_supported (type f) = true ->
          exists tr,
            fst (analyzeContractAction generateContent (Some f))
            = GenerateContent prompt (generativePart f) :: tr)).
Proof.
  split.
  - intros H. rewrite (analyze_too_large generateContent f H). split; reflexivity.
  - intros H. split; intros Ht.
    + rewrite (analyze_bad_type generateContent f); [reflexivity| |exact Ht].
      rewrite H. apply N.le_refl.
    + assert (Hf : acceptable f = true).
      { unfold acceptable. rewrite H, Ht. reflexivity. }
      destruct (generateContent prompt (generativePart f)) as [text|e] eqn:Hg.
      * rewrite (analyze_text generateContent f text Hf Hg).
        destruct (JSON_parse (jsonString text)); eexists; reflexivity.
      * rewrite (analyze_thrown generateContent f e Hf Hg).
        eexists; reflexivity.
Qed.

Lemma C3_size_limit_witness :
  (snd (analyzeContractAction (answers report) (Some big_png))
   = Return (Failure (lit "File size exceeds 10MB limit"))
   /\ invoked (fst (analyzeContractAction (answers report) (Some big_png)))
      = false)
  /\ snd (analyzeContractAction (answers report) (Some full_text))
     = Return (Failure (lit "Only image and PDF files are supported"))
  /\ exists tr,
      fst (analyzeContractAction (answers report) (Some full_pdf))
      = GenerateContent prompt (generativePart full_pdf) :: tr.
Proof.
  split; [|split].
  - apply (proj1 (C3_size_limit (answers report) big_png)).
    vm_compute. reflexivity.
  - apply (proj2 (C3_size_limit (answers report) full_text));
      vm_compute; reflexivity.
  - apply (proj2 (C3_size_limit (answers report) full_pdf));
      vm_compute; reflexivity.
Defined.

(** *** Extraction and parsing *)

(** C4, as stated, fails: the content of a fenced block can be set off
    by white space that the pattern's [\s] trims and [JSON.parse] does
    not accept (here a no-break space).  The captured content is a
    well-formed analysis, yet the candidate, the match with only its
    markers stripped, does not parse and the action fails. *)
Lemma C4_counterexample :
  exists m v,
    acceptable png = true
    /\ js_match re_fence fenced_nbsp = Some m
    /\ m1 m = Some report
    /\ JSON_parse report = Some v
    /\ is_AnalysisResults v = true
    /\ snd (analyzeContractAction (answers fenced_nbsp) (Some png))
       = Return (Failure msg_parse)
    /\ snd (analyzeContractAction (answers fenced_nbsp) (Some png))
       <> Return (Success v).
Proof.
  eexists. eexists.
  split; [vm_compute; reflexivity|].
  split; [vm_compute; reflexivity|].
  split; [vm_compute; reflexivity|].
  split; [vm_compute; reflexivity|].
  split; [vm_compute; reflexivity|].
  split; [vm_compute; reflexivity|].
  vm_compute. discriminate.
Qed.

(** C4, amended: when the answer holds a fenced block (the first
    match of the fence pattern: the opening marker, white space, the
    captured content, white space, the first closing marker after the
    opening one), the white space on both sides of the content is JSON
    white space (space, tab, line feed, carriage return), and the
    content parses, the action returns success with the value the
    content parses to, whatever else the answer holds (braces
    included).  This covers every content that is a well-formed
    analysis. *)
Theorem C4_fenced_block
        (generateContent : jsstring -> inlineData -> completion jsstring)
        (f : File) (text : jsstring) (m : match_array)
        (w1 inner w2 : jsstring) (v : json) :
  acceptable f = true ->
  generateContent prompt (generativePart f) = Return text ->
  js_match re_fence text = Some m ->
  m1 m = Some inner ->
  m0 m = fence_open ++ (w1 ++ inner ++ w2) ++ fence_close ->
  forallb is_ws w1 = true ->
  forallb is_ws w2 = true ->
  JSON_parse inner = Some v ->
  jsonString text = w1 ++ inner ++ w2
  /\ snd (analyzeContractAction generateContent (Some f)) = Return (Success v).
Proof.
  intros Hf Hg Hm _ H0 Hw1 Hw2 Hv.
  assert (Hs : jsonString text = w1 ++ inner ++ w2)
    by (apply (jsonString_of_fence text m _ Hm H0)).
  split; [exact Hs|].
  rewrite (analyze_text generateContent f text Hf Hg), Hs.
  rewrite (JSON_parse_ws w1 inner w2 v Hw1 Hw2 Hv). reflexivity.
Qed.

Lemma C4_fenced_block_witness :
  exists v,
    JSON_parse report = Some v
    /\ is_AnalysisResults v = true
    /\ jsonString fenced = [10%N] ++ report ++ [10%N]
    /\ snd (analyzeContractAction (answers fenced) (Some png))
       = Return (Success v).
Proof.
  destruct (JSON_parse report) as [v|] eqn:E; [|vm_compute in E; discriminate].
  exists v. split; [reflexivity|]. split.
  - vm_compute in E. inversion E. vm_compute. reflexivity.
  - apply (C4_fenced_block (answers fenced) png fenced
             (MatchArray (fence_open ++ ([10%N] ++ report ++ [10%N]) ++ fence_close)
                         (Some report))
             [10%N] report [10%N] v);
      try (vm_compute; reflexivity).
    exact E.
Defined.

(** C5, as stated, fails: the span from the first opening brace to the
    last closing brace is not what is parsed; the closing fence marker
    is stripped from it first, also inside a JSON string.  The answer
    below holds no JSON code fence and one prose-wrapped object, a
    well-formed analysis; the value returned is not the one the span
    parses to. *)
Lemma C5_counterexample :
  exists v v',
    includes (prose_wrapped report_with_marker) fence_open = false
    /\ js_match re_fence (prose_wrapped report_with_marker) = None
    /\ jsonMatch (prose_wrapped report_with_marker)
       = Some (MatchArray report_with_marker None)
    /\ JSON_parse report_with_marker = Some v
    /\ is_AnalysisResults v = true
    /\ snd (analyzeContractAction
              (answers (prose_wrapped report_with_marker)) (Some png))
       = Return (Success v')
    /\ v' <> v.
Proof.
  eexists. eexists.
  split; [vm_compute; reflexivity|].
  split; [vm_compute; reflexivity|].
  split; [vm_compute; reflexivity|].
  split; [vm_compute; reflexivity|].
  split; [vm_compute; reflexivity|].
  split; [vm_compute; reflexivity|].
  discriminate.
Qed.

(** C5, amended: when the answer holds no fenced block (so in
    particular when it holds no "```json", [js_match_fence_None]) and
    is an opening brace, a body and a closing brace between a prefix
    without opening brace and a suffix without closing brace, the match
    is the span from that first opening brace to that last closing
    brace; the candidate is the span with every fence marker
    ("```json", "```") removed, which is the span itself when it holds
    no "```"; and when the candidate parses the action returns success
    with its value. *)
Theorem C5_brace_span
        (generateContent : jsstring -> inlineData -> completion jsstring)
        (f : File) (text pre body post : jsstring) :
  acceptable f = true ->
  generateContent prompt (generativePart f) = Return text ->
  text = pre ++ 123%N :: body ++ 125%N :: post ->
  existsb (N.eqb 123) pre = false ->
  existsb (N.eqb 125) post = false ->
  js_match re_fence text = None ->
  jsonMatch text = Some (MatchArray (123%N :: body ++ [125%N]) None)
  /\ jsonString text = replace_all re_markers [] (123%N :: body ++ [125%N])
  /\ (includes (123%N :: body ++ [125%N]) fence_close = false ->
      jsonString text = 123%N :: body ++ [125%N])
  /\ (forall v,
         JSON_parse (jsonString text) = Some v ->
         snd (analyzeContractAction generateContent (Some f))
         = Return (Success v)).
Proof.
  intros Hf Hg Ht Hpre Hpost Hn.
  assert (Hm : jsonMatch text
               = Some (MatchArray (123%N :: body ++ [125%N]) None)).
  { unfold jsonMatch. rewrite Hn, Ht. apply js_match_brace.
    - intros Hin.
      assert (E : existsb (N.eqb 123) pre = true)
        by (apply existsb_exists; exists 123%N; split; [exact Hin|reflexivity]).
      congruence.
    - intros Hin.
      assert (E : existsb (N.eqb 125) post = true)
        by (apply existsb_exists; exists 125%N; split; [exact Hin|reflexivity]).
      congruence. }
  assert (Hs : jsonString text
               = replace_all re_markers [] (123%N :: body ++ [125%N])).
  { unfold jsonString. rewrite Hm. reflexivity. }
  repeat split; auto.
  - intros Hc. rewrite Hs. apply replace_markers_id. exact Hc.
  - intros v Hv. rewrite (analyze_text generateContent f text Hf Hg), Hv.
    reflexivity.
Qed.

Lemma C5_brace_span_witness :
  jsonString (prose_wrapped report) = report
  /\ exists v,
      JSON_parse report = Some v
      /\ snd (analyzeContractAction (answers (prose_wrapped report)) (Some png))
         = Return (Success v).
Proof.
  destruct (C5_brace_span (answers (prose_wrapped report)) png
              (prose_wrapped report) (lit "Here is the analysis: ")
              (removelast (tl report)) (lit " Let me know."))
    as (_ & _ & Hid & Hv); try (vm_compute; reflexivity).
  split.
  - rewrite Hid; vm_compute; reflexivity.
  - destruct (JSON_parse report) as [v|] eqn:E; [|vm_compute in E; discriminate].
    exists v. split; [reflexivity|]. apply Hv.
    rewrite Hid; [|vm_compute; reflexivity].
    rewrite <- E. vm_compute. reflexivity.
Defined.

(** C6: when the candidate extracted from the answer does not parse,
    the action returns (it does not throw) the failure "Unable to
    analyze the contract. Please try a clearer image or a different
    file.", and [JSON.parse] was called once. *)
Theorem C6_parse_failure
        (generateContent : jsstring -> inlineData -> completion jsstring)
        (f : File) (text : jsstring) :
  acceptable f = true ->
  generateContent prompt (generativePart f) = Return text ->
  JSON_parse (jsonString text) = None ->
  snd (analyzeContractAction generateContent (Some f))
  = Return (Failure (lit "Unable to analyze the contract. Please try a clearer image or a different file."))
  /\ parse_attempts (fst (analyzeContractAction generateContent (Some f))) = 1.
Proof.
  intros Hf Hg Hp. rewrite (analyze_text generateContent f text Hf Hg), Hp.
  split; reflexivity.
Qed.

Lemma C6_parse_failure_witness :
  snd (analyzeContractAction (answers (jq "{'summary':'ok',}")) (Some png))
  = Return (Failure (lit "Unable to analyze the contract. Please try a clearer image or a different file."))
  /\ parse_attempts
       (fst (analyzeContractAction (answers (jq "{'summary':'ok',}")) (Some png)))
     = 1.
Proof.
  apply (C6_parse_failure (answers (jq "{'summary':'ok',}")) png
                          (jq "{'summary':'ok',}"));
    vm_compute; reflexivity.
Defined.

(** *** The outer boundary *)

(** C7: for every file entry and every behaviour of the model
    (answering, throwing an [Error], throwing anything else) the action
    returns and does not throw; what it returns is either
    [{success: true, data}] without [error], where [data] is the whole
    value [JSON.parse] gave for the candidate of the model's answer, or
    [{success: false, error}] with a string and without [data]. *)
Theorem C7_always_an_outcome
        (generateContent : jsstring -> inlineData -> completion jsstring)
        (file : option File) :
  exists tr o,
    analyzeContractAction generateContent file = (tr, Return o)
    /\ ((exists d f text,
            file = Some f
            /\ generateContent prompt (generativePart f) = Return text
            /\ JSON_parse (jsonString text) = Some d
            /\ success o = true /\ data o = Some d /\ error o = None)
        \/ (exists msg,
               success o = false /\ data o = None /\ error o = Some msg)).
Proof.
  destruct file as [f|].
  - destruct (N.ltb_spec (10 * 1024 * 1024) (size f)) as [Hs|Hs].
    { rewrite (analyze_too_large generateContent f Hs).
      eexists. eexists. split; [reflexivity|]. right. eexists. repeat split. }
    destruct (type_supported (type f)) eqn:Ht.
    2:{ rewrite (analyze_bad_type generateContent f Hs Ht).
        eexists. eexists. split; [reflexivity|]. right. eexists. repeat split. }
    assert (Hf : acceptable f = true).
    { unfold acceptable. rewrite Ht, (proj2 (N.leb_le _ _) Hs). reflexivity. }
    destruct (generateContent prompt (generativePart f)) as [text|e] eqn:Hg.
    + rewrite (analyze_text generateContent f text Hf Hg).
      destruct (JSON_parse (jsonString text)) as [d|] eqn:Hp.
      * eexists. eexists. split; [reflexivity|]. left.
        exists d, f, text. repeat split; auto.
      * eexists. eexists. split; [reflexivity|]. right. eexists. repeat split.
    + rewrite (analyze_thrown generateContent f e Hf Hg).
      destruct (catch_block_returns e) as (msg & ->). cbn [fst snd].
      eexists. eexists. split; [reflexivity|]. right. eexists. repeat split.
  - rewrite analyze_no_file.
    eexists. eexists. split; [reflexivity|]. right. eexists. repeat split.
Qed.

(** C8, as stated, fails: the SyntaxError that [JSON.parse] throws on
    an answer that is not JSON is an error object arising during the
    request, and its message holds none of "deprecated", "rate limit"
    and "parse"; the action logs it and returns the message of a
    response that could not be analysed, not the message of the
    SyntaxError. *)
Lemma C8_counterexample :
  acceptable png = true
  /\ fst (analyzeContractAction (answers (lit "not json")) (Some png))
     = [GenerateContent prompt (generativePart png);
        JsonParse (lit "not json");
        ConsoleError label_parse syntax_error;
        ConsoleError label_action (JsError msg_parse_thrown)]
  /\ (exists m,
         syntax_error = JsError m
         /\ includes m (lit "deprecated") = false
         /\ includes m (lit "rate limit") = false
         /\ includes m (lit "parse") = false
         /\ snd (analyzeContractAction (answers (lit "not json")) (Some png))
            <> Return (Failure m))
  /\ snd (analyzeContractAction (answers (lit "not json")) (Some png))
     = Return (Failure msg_parse).
Proof.
  split; [vm_compute; reflexivity|]. split; [vm_compute; reflexivity|].
  split; [|vm_compute; reflexivity].
  eexists. split; [reflexivity|].
  split; [vm_compute; reflexivity|]. split; [vm_compute; reflexivity|].
  split; [vm_compute; reflexivity|]. vm_compute. discriminate.
Qed.

(** C8, amended: when the body of the outer [try] ends with an [Error]
    (one thrown by the validation or by the model call; the
    SyntaxError of [JSON.parse] never is such an error, the inner
    [catch] replaces it) whose message contains none of "deprecated",
    "rate limit" and "parse", the action returns the failure whose
    [error] is that message, unchanged; so a missing file, a file over
    the limit and an unsupported type are reported as "No file
    provided", "File size exceeds 10MB limit" and "Only image and PDF
    files are supported". *)
Theorem C8_message_passes_through :
  (forall (generateContent : jsstring -> inlineData -> completion jsstring)
          (file : option File) (tr : list event) (message : jsstring),
      try_block generateContent file = (tr, Throw (JsError message)) ->
      includes message (lit "deprecated") = false ->
      includes message (lit "rate limit") = false ->
      includes message (lit "parse") = false ->
      snd (analyzeContractAction generateContent file)
      = Return (Failure message))
  /\ (forall generateContent,
         snd (analyzeContractAction generateContent None)
         = Return (Failure (lit "No file provided")))
  /\ (forall generateContent (f : File),
         (10 * 1024 * 1024 < size f)%N ->
         snd (analyzeContractAction generateContent (Some f))
         = Return (Failure (lit "File size exceeds 10MB limit")))
  /\ (forall generateContent (f : File),
         (size f <= 10 * 1024 * 1024)%N ->
         startsWith (type f) (lit "image/") = false ->
         type f <> lit "application/pdf" ->
         snd (analyzeContractAction generateContent (Some f))
         = Return (Failure (lit "Only image and PDF files are supported"))).
Proof.
  split; [|split; [|split]].
  - intros g file tr message Hb Hd Hr Hp.
    unfold analyzeContractAction. rewrite Hb. cbn [try_catch].
    unfold catch_block, bind, console_error, emit, ret.
    rewrite Hd, Hr, Hp. reflexivity.
  - intros g. rewrite analyze_no_file. reflexivity.
  - intros g f H. rewrite (analyze_too_large g f H). reflexivity.
  - intros g f Hs Hi Hp.
    rewrite (unsupported_type_rejected g f Hs Hi Hp). reflexivity.
Qed.

Lemma C8_message_passes_through_witness :
  snd (analyzeContractAction (fails (JsError (lit "fetch failed"))) (Some png))
  = Return (Failure (lit "fetch failed"))
  /\ snd (analyzeContractAction (answers report) (Some big_png))
     = Return (Failure (lit "File size exceeds 10MB limit"))
  /\ snd (analyzeContractAction (answers report) (Some small_text))
     = Return (Failure (lit "Only image and PDF files are supported")).
Proof.
  destruct C8_message_passes_through as (Hpass & _ & Hsize & Htype).
  split; [|split].
  - apply (Hpass (fails (JsError (lit "fetch failed"))) (Some png)
                 [GenerateContent prompt (generativePart png)]
                 (lit "fetch failed"));
      vm_compute; reflexivity.
  - apply (Hsize (answers report) big_png). vm_compute. reflexivity.
  - apply (Htype (answers report) small_text).
    + vm_compute. discriminate.
    + vm_compute. reflexivity.
    + vm_compute. discriminate.
Defined.

(** C9: two requests made one after the other, with files of the
    same size, type and bytes, to a model service whose answer to a
    request does not depend on the state the service is in (it may
    count its calls or keep a log) return the same outcome, whatever
    the world was before the first of them, and write the same lines
    on the console.  The outcome is the one the answers of the service
    determine, and each request asks the service once, for the prompt
    and the part built from the file, when the file passes the
    validation, and not at all otherwise. *)
Theorem C9_deterministic
        (Service : Type)
        (generateContent :
           Service -> jsstring -> inlineData -> Service * completion jsstring)
        (f1 f2 : File) (w : Sequential.World Service) :
  size f1 = size f2 ->
  type f1 = type f2 ->
  arrayBuffer f1 = arrayBuffer f2 ->
  (forall s s' p part,
      snd (generateContent s p part) = snd (generateContent s' p part)) ->
  let first := Sequential.analyzeContractAction generateContent (Some f1) w in
  let second := Sequential.analyzeContractAction generateContent (Some f2) (fst first) in
  exists o lines,
    snd first = Return o
    /\ snd second = Return o
    /\ Sequential.console (fst first) = Sequential.console w ++ lines
    /\ Sequential.console (fst second)
       = Sequential.console (fst first) ++ lines
    /\ snd (analyzeContractAction
              (fun p part => snd (generateContent (Sequential.service w) p part))
              (Some f1))
       = Return o
    /\ Sequential.service (fst first)
       = (if acceptable f1 then
            fst (generateContent (Sequential.service w) prompt (generativePart f1))
          else Sequential.service w)
    /\ Sequential.service (fst second)
       = (if acceptable f2 then
            fst (generateContent (Sequential.service (fst first))
                   prompt (generativePart f2))
          else Sequential.service (fst first)).
Proof.
  intros Hs Ht Hb Hg. destruct f1 as [s1 t1 b1], f2 as [s2 t2 b2].
  cbn [size type arrayBuffer] in *. subst s2 t2 b2. cbv zeta.
  remember (Sequential.analyzeContractAction
              generateContent (Some (MkFile s1 t1 b1)) w) as first.
  destruct (run_in_world Service generateContent (Some (MkFile s1 t1 b1)) w)
    as (A1 & B1 & C1).
  destruct (run_in_world Service generateContent (Some (MkFile s1 t1 b1))
                         (fst first)) as (A2 & B2 & C2).
  rewrite <- Heqfirst in A1, B1, C1.
  rewrite (analyze_ext
             (fun p part =>
                snd (generateContent (Sequential.service (fst first)) p part))
             (fun p part => snd (generateContent (Sequential.service w) p part))
             (Some (MkFile s1 t1 b1))) in A2, B2
    by (intros p part; apply Hg).
  destruct (analyze_returns
              (fun p part => snd (generateContent (Sequential.service w) p part))
              (Some (MkFile s1 t1 b1))) as [o Ho].
  exists o. eexists. rewrite A1, A2, B2, B1, C2, C1, Ho.
  split; [reflexivity|]. split; [reflexivity|]. split; [reflexivity|].
  split; [reflexivity|]. split; [reflexivity|]. split; reflexivity.
Qed.

Lemma C9_deterministic_witness :
  let first := Sequential.analyzeContractAction (Sequential.answers_counting (lit "not json")) (Some png) (Sequential.MkWorld 0 []) in
  let second := Sequential.analyzeContractAction (Sequential.answers_counting (lit "not json")) (Some (MkFile 3 (lit "image/png") [x89; x50; x4e]%byte)) (fst first) in
  exists o lines,
    snd first = Return o
    /\ snd second = Return o
    /\ Sequential.console (fst first) = Sequential.console (Sequential.MkWorld 0 []) ++ lines
    /\ Sequential.console (fst second)
       = Sequential.console (fst first) ++ lines
    /\ snd (analyzeContractAction
              (fun p part => snd ((Sequential.answers_counting (lit "not json")) (Sequential.service (Sequential.MkWorld 0 [])) p part))
              (Some png))
       = Return o
    /\ Sequential.service (fst first)
       = (if acceptable png then
            fst ((Sequential.answers_counting (lit "not json")) (Sequential.service (Sequential.MkWorld 0 [])) prompt (generativePart png))
          else Sequential.service (Sequential.MkWorld 0 []))
    /\ Sequential.service (fst second)
       = (if acceptable (MkFile 3 (lit "image/png") [x89; x50; x4e]%byte) then
            fst ((Sequential.answers_counting (lit "not json")) (Sequential.service (fst first))
                   prompt (generativePart (MkFile 3 (lit "image/png") [x89; x50; x4e]%byte)))
          else Sequential.service (fst first)).
Proof.
  apply (C9_deterministic
           nat (Sequential.answers_counting (lit "not json"))
           png (MkFile 3 (lit "image/png") [x89; x50; x4e]%byte)
           (Sequential.MkWorld 0 []));
    reflexivity.
Defined.

(** C10: when the answer holds neither a fenced block nor a brace
    span, the whole answer is the candidate, and whatever it parses to
    is returned as success; so there are answers, "[1,2]" and "42"
    among them, for which the action returns success with data that is
    not an object, let alone an analysis. *)
Theorem C10_success_without_object :
  (forall (generateContent : jsstring -> inlineData -> completion jsstring)
          (f : File) (text : jsstring),
      acceptable f = true ->
      generateContent prompt (generativePart f) = Return text ->
      js_match re_fence text = None ->
      js_match re_brace text = None ->
      jsonString text = text
      /\ forall v, JSON_parse text = Some v ->
                   snd (analyzeContractAction generateContent (Some f))
                   = Return (Success v))
  /\ (exists generateContent f v,
         snd (analyzeContractAction generateContent (Some f))
         = Return (Success v)
         /\ is_object v = false
         /\ is_AnalysisResults v = false)
  /\ snd (analyzeContractAction (answers (lit "[1,2]")) (Some png))
     = Return (Success (JArray [JNumber (lit "1"); JNumber (lit "2")]))
  /\ snd (analyzeContractAction (answers (lit "42")) (Some png))
     = Return (Success (JNumber (lit "42"))).
Proof.
  split; [|split; [|split]].
  - intros g f text Hf Hg Hn1 Hn2.
    assert (Hs : jsonString text = text).
    { unfold jsonString, jsonMatch. rewrite Hn1, Hn2. reflexivity. }
    split; [exact Hs|]. intros v Hv.
    rewrite (analyze_text g f text Hf Hg), Hs, Hv. reflexivity.
  - exists (answers (lit "[1,2]")), png,
      (JArray [JNumber (lit "1"); JNumber (lit "2")]).
    repeat split; vm_compute; reflexivity.
  - vm_compute. reflexivity.
  - vm_compute. reflexivity.
Qed.

Lemma C10_success_without_object_witness :
  jsonString (jq "'unable to read the document'")
  = jq "'unable to read the document'"
  /\ snd (analyzeContractAction
            (answers (jq "'unable to read the document'")) (Some png))
     = Return (Success (JString (lit "unable to read the document"))).
Proof.
  destruct (proj1 C10_success_without_object
                  (answers (jq "'unable to read the document'")) png
                  (jq "'unable to read the document'"))
    as (Hs & Hv); try (vm_compute; reflexivity).
  split; [exact Hs|]. apply Hv. vm_compute. reflexivity.
Defined.

End Spec.

(* ================================================================== *)
(** ** Further properties of the action *)
(* ================================================================== *)

Module ActionProps.
Import JsStr RegExp JSON GenAI Actions Fixtures Observed Form.
Import JsStrFacts RegExpFacts ExtractFacts JSONFacts ActionsFacts.

(** Every file is over the limit, of an unsupported type, or
    acceptable. *)
Lemma file_cases (f : File) :
  (10 * 1024 * 1024 < size f)%N
  \/ ((size f <= 10 * 1024 * 1024)%N /\ type_supported (type f) = false)
  \/ acceptable f = true.
Proof.
  destruct (N.ltb_spec (10 * 1024 * 1024) (size f)) as [Hs|Hs]; [tauto|].
  destruct (type_supported (type f)) eqn:Ht; [|tauto].
  right. right. unfold acceptable. rewrite Ht, (proj2 (N.leb_le _ _) Hs).
  reflexivity.
Qed.

Lemma not_acceptable_large (f : File) :
  (10 * 1024 * 1024 < size f)%N -> acceptable f = false.
Proof.
  intros H. unfold acceptable. rewrite (proj2 (N.leb_gt _ _) H). reflexivity.
Qed.

Lemma not_acceptable_type (f : File) :
  type_supported (type f) = false -> acceptable f = false.
Proof. intros H. unfold acceptable. rewrite H. apply andb_false_r. Qed.

(** X1: one request makes at most one call of the model and at most
    one call of [JSON.parse], and none is repeated: the model is
    called, once and with the fixed prompt and the part built from the
    file, exactly when the file passes both validation rules; the
    parser is called, once and on the candidate of the answer, exactly
    when that call answered. *)
Theorem calls_at_most_once
        (generateContent : jsstring -> inlineData -> completion jsstring)
        (file : option File) :
  model_calls (fst (analyzeContractAction generateContent file))
  = match file with
    | Some f => if acceptable f then [(prompt, generativePart f)] else []
    | None => []
    end
  /\ parse_calls (fst (analyzeContractAction generateContent file))
     = match file with
       | Some f =>
           if acceptable f then
             match generateContent prompt (generativePart f) with
             | Return text => [jsonString text]
             | Throw _ => []
             end
           else []
       | None => []
       end.
Proof.
  destruct file as [f|]; [|rewrite analyze_no_file; split; reflexivity].
  destruct (file_cases f) as [Hs|[[Hs Ht]|Hf]].
  - rewrite (analyze_too_large generateContent f Hs),
      (not_acceptable_large f Hs). split; reflexivity.
  - rewrite (analyze_bad_type generateContent f Hs Ht),
      (not_acceptable_type f Ht). split; reflexivity.
  - rewrite Hf.
    destruct (generateContent prompt (generativePart f)) as [text|e] eqn:Hg.
    + rewrite (analyze_text generateContent f text Hf Hg).
      destruct (JSON_parse (jsonString text)); split; reflexivity.
    + rewrite (analyze_thrown generateContent f e Hf Hg).
      destruct (catch_block_returns e) as (msg & ->). split; reflexivity.
Qed.

Lemma own_messages_clean :
  forallb (fun m => negb (trigger_word m)) own_messages = true.
Proof. vm_compute. reflexivity. Qed.

Lemma own_message_clean (m : jsstring) :
  In m own_messages -> trigger_word m = false.
Proof.
  intros H. pose proof own_messages_clean as A.
  rewrite forallb_forall in A. apply A in H. apply negb_true_iff. exact H.
Qed.

(** What the outer [catch] answers to an [Error]: one of its own
    messages, or the message of the error when it holds none of the
    three words. *)
Lemma catch_block_message (message e : jsstring) (tr : list event) (o : Outcome) :
  catch_block (JsError message) = (tr, Return o) ->
  error o = Some e ->
  In e own_messages \/ (e = message /\ trigger_word message = false).
Proof.
  unfold catch_block, bind, console_error, emit, ret, trigger_word.
  destruct (includes message (lit "deprecated")).
  { intros H He. inversion H; subst. inversion He; subst.
    left. unfold own_messages. simpl. tauto. }
  destruct (includes message (lit "rate limit")).
  { intros H He. inversion H; subst. inversion He; subst.
    left. unfold own_messages. simpl. tauto. }
  destruct (includes message (lit "parse")).
  { intros H He. inversion H; subst. inversion He; subst.
    left. unfold own_messages. simpl. tauto. }
  intros H He. inversion H; subst. inversion He; subst. right. split; reflexivity.
Qed.

Lemma failure_message_cases
      (generateContent : jsstring -> inlineData -> completion jsstring)
      (file : option File) (o : Outcome) (e : jsstring) :
  snd (analyzeContractAction generateContent file) = Return o ->
  error o = Some e ->
  In e own_messages
  \/ exists f,
      file = Some f /\ acceptable f = true
      /\ generateContent prompt (generativePart f) = Throw (JsError e).
Proof.
  destruct file as [f|].
  2:{ rewrite analyze_no_file. intros H He. inversion H; subst.
      inversion He; subst. left. unfold own_messages. simpl. tauto. }
  destruct (file_cases f) as [Hs|[[Hs Ht]|Hf]].
  - rewrite (analyze_too_large generateContent f Hs). intros H He.
    inversion H; subst. inversion He; subst.
    left. unfold own_messages. simpl. tauto.
  - rewrite (analyze_bad_type generateContent f Hs Ht). intros H He.
    inversion H; subst. inversion He; subst.
    left. unfold own_messages. simpl. tauto.
  - destruct (generateContent prompt (generativePart f)) as [text|t] eqn:Hg.
    + rewrite (analyze_text generateContent f text Hf Hg).
      destruct (JSON_parse (jsonString text)); intros H He;
        inversion H; subst; inversion He; subst.
      left. unfold own_messages. simpl. tauto.
    + rewrite (analyze_thrown generateContent f t Hf Hg). cbn [snd].
      destruct t as [message|].
      * destruct (catch_block (JsError message)) as [tr c] eqn:Hc.
        cbn [snd]. intros -> He.
        destruct (catch_block_message message e tr o Hc He) as [Hin|[-> _]];
          [left; exact Hin|].
        right. exists f. auto.
      * intros H He. inversion H; subst. inversion He; subst.
        left. unfold own_messages. simpl. tauto.
Qed.

(** X2: every failure message the action returns, for any entry of
    the form (none, a [File], or a string, which the cast [as File]
    lets through), is one of the seven it writes itself, or word for
    word the message of an [Error] the model call threw for an
    accepted file, or, for an entry that is a string and not empty,
    the message of the TypeError thrown by [file.type.startsWith]. *)
Theorem failure_message_origin
        (type_error : jsstring)
        (generateContent : jsstring -> inlineData -> completion jsstring)
        (entry : option FormDataEntryValue) (o : Outcome) (e : jsstring) :
  snd (analyzeContractAction_of_entry type_error generateContent entry)
  = Return o ->
  error o = Some e ->
  In e own_messages
  \/ (exists f,
         entry = Some (EntryFile f) /\ acceptable f = true
         /\ generateContent prompt (generativePart f) = Throw (JsError e))
  \/ (exists c s, entry = Some (EntryString (c :: s)) /\ e = type_error).
Proof.
  destruct entry as [[f|[|c s]]|].
  - change (analyzeContractAction_of_entry type_error generateContent
                                           (Some (EntryFile f)))
      with (analyzeContractAction generateContent (Some f)).
    intros H He.
    destruct (failure_message_cases generateContent (Some f) o e H He)
      as [Hin|(g & Eg & Hg & Ht)]; [left; exact Hin|].
    right. left. exists g. inversion Eg; subst. auto.
  - intros H He. vm_compute in H. inversion H; subst. inversion He; subst.
    left. unfold own_messages. simpl. tauto.
  - unfold analyzeContractAction_of_entry, try_block_of_entry.
    cbn [try_catch throw].
    destruct (catch_block (JsError type_error)) as [tr k] eqn:Hc.
    cbn [snd app]. intros -> He.
    destruct (catch_block_message type_error e tr o Hc He) as [Hin|[-> _]];
      [left; exact Hin|].
    right. right. exists c, s. split; reflexivity.
  - change (analyzeContractAction_of_entry type_error generateContent None)
      with (analyzeContractAction generateContent None).
    intros H He.
    destruct (failure_message_cases generateContent None o e H He)
      as [Hin|(g & Eg & _)]; [left; exact Hin|discriminate].
Qed.

Lemma failure_message_origin_witness :
  In (lit "Cannot read properties of undefined (reading 'startsWith')")
     own_messages
  \/ (exists f,
         Some (EntryString (lit "contract.png")) = Some (EntryFile f)
         /\ acceptable f = true
         /\ answers report prompt (generativePart f)
            = Throw (JsError (lit "Cannot read properties of undefined (reading 'startsWith')")))
  \/ (exists c s,
         Some (EntryString (lit "contract.png")) = Some (EntryString (c :: s))
         /\ lit "Cannot read properties of undefined (reading 'startsWith')"
            = lit "Cannot read properties of undefined (reading 'startsWith')").
Proof.
  apply (failure_message_origin
           (lit "Cannot read properties of undefined (reading 'startsWith')")
           (answers report) (Some (EntryString (lit "contract.png")))
           (Failure (lit "Cannot read properties of undefined (reading 'startsWith')"))
           (lit "Cannot read properties of undefined (reading 'startsWith')"));
    vm_compute; reflexivity.
Defined.

Lemma failure_clean
      (generateContent : jsstring -> inlineData -> completion jsstring)
      (file : option File) (o : Outcome) (e : jsstring) :
  snd (analyzeContractAction generateContent file) = Return o ->
  error o = Some e ->
  trigger_word e = false.
Proof.
  intros H He.
  { destruct file as [f|].
    2:{ rewrite analyze_no_file in H. inversion H; subst.
        inversion He; subst. reflexivity. }
    destruct (file_cases f) as [Hs|[[Hs Hty]|Hf]].
    - rewrite (analyze_too_large generateContent f Hs) in H.
      inversion H; subst. inversion He; subst. reflexivity.
    - rewrite (analyze_bad_type generateContent f Hs Hty) in H.
      inversion H; subst. inversion He; subst. reflexivity.
    - destruct (generateContent prompt (generativePart f)) as [text|t] eqn:Hg.
      + rewrite (analyze_text generateContent f text Hf Hg) in H.
        destruct (JSON_parse (jsonString text)); inversion H; subst;
          inversion He; subst. reflexivity.
      + rewrite (analyze_thrown generateContent f t Hf Hg) in H. cbn [snd] in H.
        destruct t as [message|].
        * destruct (catch_block (JsError message)) as [tr c] eqn:Hc.
          cbn [snd] in H. subst c.
          destruct (catch_block_message message e tr o Hc He) as [Hin|[-> Hm]];
            [apply own_message_clean; exact Hin|exact Hm].
        * inversion H; subst. inversion He; subst. reflexivity. }
Qed.

(** X3: no failure message the action returns contains "deprecated",
    "rate limit" or "parse"; in particular the text of the error
    rethrown by the inner [catch], "Failed to parse the AI response.
    Please try again.", is never what the caller gets. *)
Theorem failure_message_has_no_trigger_word
        (generateContent : jsstring -> inlineData -> completion jsstring)
        (file : option File) (o : Outcome) (e : jsstring) :
  snd (analyzeContractAction generateContent file) = Return o ->
  error o = Some e ->
  trigger_word e = false /\ e <> msg_parse_thrown.
Proof.
  intros H He.
  pose proof (failure_clean generateContent file o e H He) as Ht.
  split; [exact Ht|]. intros ->. vm_compute in Ht. discriminate.
Qed.

Lemma failure_message_has_no_trigger_word_witness :
  trigger_word (lit "fetch failed") = false
  /\ lit "fetch failed" <> msg_parse_thrown.
Proof.
  apply (failure_message_has_no_trigger_word
           (fails (JsError (lit "fetch failed"))) (Some png)
           (Failure (lit "fetch failed")) (lit "fetch failed"));
    vm_compute; reflexivity.
Defined.

(** X4: an [Error] of the model call whose message contains "parse"
    (and neither "deprecated" nor "rate limit") is answered with the
    message of a response that could not be parsed, although the model
    gave no response and [JSON.parse] was not called. *)
Theorem model_error_reported_as_parse_failure
        (generateContent : jsstring -> inlineData -> completion jsstring)
        (f : File) (message : jsstring) :
  acceptable f = true ->
  generateContent prompt (generativePart f) = Throw (JsError message) ->
  includes message (lit "deprecated") = false ->
  includes message (lit "rate limit") = false ->
  includes message (lit "parse") = true ->
  snd (analyzeContractAction generateContent (Some f))
  = Return (Failure (lit "Unable to analyze the contract. Please try a clearer image or a different file."))
  /\ parse_calls (fst (analyzeContractAction generateContent (Some f))) = [].
Proof.
  intros Hf Hg Hd Hr Hp. rewrite (analyze_thrown generateContent f _ Hf Hg).
  unfold catch_block, bind, console_error, emit, ret. rewrite Hd, Hr, Hp.
  split; reflexivity.
Qed.

Lemma model_error_reported_as_parse_failure_witness :
  snd (analyzeContractAction
         (fails (JsError (lit "Failed to parse URL from undefined/v1beta")))
         (Some png))
  = Return (Failure (lit "Unable to analyze the contract. Please try a clearer image or a different file."))
  /\ parse_calls
       (fst (analyzeContractAction
               (fails (JsError (lit "Failed to parse URL from undefined/v1beta")))
               (Some png)))
     = [].
Proof.
  apply (model_error_reported_as_parse_failure
           (fails (JsError (lit "Failed to parse URL from undefined/v1beta")))
           png (lit "Failed to parse URL from undefined/v1beta"));
    vm_compute; reflexivity.
Defined.

End ActionProps.

(* ================================================================== *)
(** ** Further properties of the extraction *)
(* ================================================================== *)

Module ExtractProps.
Import JsStr RegExp JSON GenAI Actions Fixtures Observed.
Import JsStrFacts RegExpFacts ExtractFacts JSONFacts ActionsFacts.

(** *** When the stars succeed *)

Section StarsFound.
Variable R : Type.
Variable cls : char -> bool.

Lemma star_greedy_found (k : jsstring -> option R) :
  forall w s, forallb cls w = true -> k s <> None ->
              star_greedy cls (w ++ s) k <> None.
Proof.
  induction w as [|c w IH]; intros s Hw Hk.
  - destruct s as [|d s]; [exact Hk|]. cbn [app star_greedy].
    destruct (cls d); [|exact Hk].
    destruct (star_greedy cls s k); [discriminate|exact Hk].
  - cbn [forallb] in Hw. apply andb_prop in Hw. destruct Hw as [Hc Hw].
    cbn [app star_greedy]. rewrite Hc.
    specialize (IH s Hw Hk).
    destruct (star_greedy cls (w ++ s) k); [discriminate|congruence].
Qed.

Lemma star_lazy_found (k : jsstring -> option R) :
  forall a s, forallb cls a = true -> k s <> None ->
              star_lazy cls (a ++ s) k <> None.
Proof.
  induction a as [|c a IH]; intros s Ha Hk.
  - destruct s as [|d s]; cbn [app star_lazy].
    + destruct (k []); [discriminate|congruence].
    + destruct (k (d :: s)); [discriminate|congruence].
  - cbn [forallb] in Ha. apply andb_prop in Ha. destruct Ha as [Hc Ha].
    cbn [app star_lazy]. destruct (k (c :: a ++ s)); [discriminate|].
    rewrite Hc. apply IH; assumption.
Qed.

End StarsFound.

(** A text in which no closing marker starts before its end holds no
    closing marker. *)
Lemma no_fence_before_includes :
  forall mid, no_fence_before mid fence_close = true ->
              includes mid fence_close = false.
Proof.
  induction mid as [|c mid IH]; intros H; [reflexivity|].
  cbn [no_fence_before] in H. apply andb_prop in H. destruct H as [Hc Hm].
  cbn [includes]. rewrite (IH Hm), orb_false_r.
  unfold startsWith in *.
  destruct (strip_prefix fence_close (c :: mid)) eqn:E; [|reflexivity].
  rewrite (strip_prefix_extend _ _ _ fence_close E) in Hc. discriminate.
Qed.

Lemma forallb_any_char (s : jsstring) : forallb any_char s = true.
Proof.
  induction s as [|c s IH]; [reflexivity|].
  cbn [forallb]. rewrite any_char_true, IH. reflexivity.
Qed.

Lemma js_match_found (r : regex) :
  forall pre s, exec_at r s <> None -> js_match r (pre ++ s) <> None.
Proof.
  induction pre as [|c pre IH]; intros s H.
  - destruct s as [|d s]; cbn [app js_match].
    + destruct (exec_at r []) as [[rest cp]|]; [discriminate|congruence].
    + destruct (exec_at r (d :: s)) as [[rest cp]|]; [discriminate|congruence].
  - cbn [app js_match].
    destruct (exec_at r (c :: pre ++ s)) as [[rest cp]|]; [discriminate|].
    apply IH. exact H.
Qed.

Lemma exec_at_fence_found (mid post : jsstring) :
  exec_at re_fence (fence_open ++ mid ++ fence_close ++ post) <> None.
Proof.
  unfold exec_at, re_fence. cbn [run]. rewrite strip_prefix_app.
  apply (star_greedy_found _ is_space _ [] (mid ++ fence_close ++ post));
    [reflexivity|].
  apply (star_lazy_found _ any_char _ mid (fence_close ++ post));
    [apply forallb_any_char|].
  apply (star_greedy_found _ is_space _ [] (fence_close ++ post));
    [reflexivity|].
  rewrite strip_prefix_app. discriminate.
Qed.

Lemma fence_found_iff_aux (text : jsstring) :
  js_match re_fence text <> None
  <-> exists pre mid post,
      text = pre ++ fence_open ++ mid ++ fence_close ++ post.
Proof.
  split.
  - destruct (js_match re_fence text) as [m|] eqn:Hm; [|congruence].
    intros _. apply js_match_Some in Hm.
    destruct Hm as (pre & s & rest & -> & He & _).
    apply exec_at_fence in He.
    destruct He as (w1 & inner & w2 & _ & -> & _).
    exists pre, (w1 ++ inner ++ w2), rest. reflexivity.
  - intros (pre & mid & post & ->).
    apply js_match_found, exec_at_fence_found.
Qed.

(** X5: the fence pattern finds a block exactly when the answer holds
    an opening marker "```json" and, somewhere after it, a closing
    marker "```"; the block found then starts with the opening marker
    and ends with the first closing marker after it. *)
Theorem fence_found_iff (text : jsstring) :
  (js_match re_fence text <> None
   <-> exists pre mid post,
       text = pre ++ fence_open ++ mid ++ fence_close ++ post)
  /\ (forall m, js_match re_fence text = Some m ->
                exists mid, m0 m = fence_open ++ mid ++ fence_close
                            /\ includes mid fence_close = false).
Proof.
  split; [apply fence_found_iff_aux|].
  intros m Hm.
  destruct (js_match_fence text m Hm) as (w1 & inner & w2 & _ & H0 & _ & _ & Hn).
  exists (w1 ++ inner ++ w2). split; [exact H0|].
  apply no_fence_before_includes. exact Hn.
Qed.

Lemma exec_at_brace_found (body post : jsstring) :
  exec_at re_brace (123%N :: body ++ 125%N :: post) <> None.
Proof.
  unfold exec_at, re_brace. cbn [run].
  change (strip_prefix (lit "{") (123%N :: body ++ 125%N :: post))
    with (Some (body ++ 125%N :: post)).
  apply (star_greedy_found _ any_char _ body (125%N :: post));
    [apply forallb_any_char|].
  change (strip_prefix (lit "}") (125%N :: post)) with (Some post).
  discriminate.
Qed.

Lemma exec_at_brace_Some (s rest : jsstring) (c : capture) :
  exec_at re_brace s = Some (rest, c) ->
  exists body, s = 123%N :: body ++ 125%N :: rest.
Proof.
  unfold exec_at, re_brace. cbn [run]. intros H.
  destruct (strip_prefix (lit "{") s) as [s1|] eqn:E1; [|discriminate].
  apply strip_prefix_Some in E1. subst s.
  apply star_greedy_Some in H. destruct H as (w & s' & -> & _ & H).
  destruct (strip_prefix (lit "}") s') as [s2|] eqn:E2; [|discriminate].
  apply strip_prefix_Some in E2. subst s'. inversion H; subst.
  exists w. reflexivity.
Qed.

(** X6: the brace pattern finds a span exactly when the answer holds an
    opening brace and, somewhere after it, a closing brace; so the raw
    answer is the candidate exactly when it holds neither a fenced
    block nor such a pair of braces. *)
Theorem brace_found_iff (text : jsstring) :
  (js_match re_brace text <> None
   <-> exists pre body post, text = pre ++ 123%N :: body ++ 125%N :: post)
  /\ (jsonMatch text = None
      <-> (~ (exists pre mid post,
                 text = pre ++ fence_open ++ mid ++ fence_close ++ post)
           /\ ~ (exists pre body post,
                    text = pre ++ 123%N :: body ++ 125%N :: post))).
Proof.
  assert (B : js_match re_brace text <> None
              <-> exists pre body post,
                  text = pre ++ 123%N :: body ++ 125%N :: post).
  { split.
    - destruct (js_match re_brace text) as [m|] eqn:Hm; [|congruence].
      intros _. apply js_match_Some in Hm.
      destruct Hm as (pre & s & rest & -> & He & _).
      apply exec_at_brace_Some in He. destruct He as (body & ->).
      exists pre, body, rest. reflexivity.
    - intros (pre & body & post & ->).
      apply js_match_found, exec_at_brace_found. }
  split; [exact B|].
  pose proof (fence_found_iff_aux text) as F.
  unfold jsonMatch. split.
  - destruct (js_match re_fence text) eqn:Hf; [discriminate|].
    intros Hb. split.
    + intros H. apply F in H. congruence.
    + intros H. apply B in H. congruence.
  - intros [Hnf Hnb].
    destruct (js_match re_fence text) eqn:Hf.
    + exfalso. apply Hnf, F. congruence.
    + destruct (js_match re_brace text) eqn:Hb; [|reflexivity].
      exfalso. apply Hnb, B. congruence.
Qed.

(** *** What stripping the markers leaves *)

Lemma exec_at_markers_None (s : jsstring) :
  strip_prefix fence_close s = None -> exec_at re_markers s = None.
Proof.
  intros H. rewrite exec_at_markers, (open_starts_with_close s H), H.
  reflexivity.
Qed.

Lemma close_needs_tick (c : char) (s : jsstring) :
  N.eqb 96 c = false -> strip_prefix fence_close (c :: s) = None.
Proof.
  intros H. rewrite fence_close_chars. cbn [strip_prefix]. rewrite H.
  reflexivity.
Qed.

Lemma replace_cons (c : char) (s : jsstring) :
  strip_prefix fence_close (c :: s) = None ->
  replace_from re_markers [] (c :: s) 0 = c :: replace_from re_markers [] s 0.
Proof. intros H. apply replace_from_nomatch, exec_at_markers_None, H. Qed.

(** Where no marker starts, none starts after the stripping. *)
Lemma replace_keeps_head (s : jsstring) :
  strip_prefix fence_close s = None ->
  strip_prefix fence_close (replace_from re_markers [] s 0) = None.
Proof.
  intros H. destruct s as [|c s]; [reflexivity|].
  rewrite (replace_cons c s H).
  destruct (N.eqb 96 c) eqn:Hc; [|apply close_needs_tick; exact Hc].
  apply N.eqb_eq in Hc. subst c.
  destruct s as [|d s]; [reflexivity|].
  destruct (N.eqb 96 d) eqn:Hd.
  - apply N.eqb_eq in Hd. subst d.
    destruct s as [|e s]; [reflexivity|].
    destruct (N.eqb 96 e) eqn:He.
    + apply N.eqb_eq in He. subst e.
      rewrite fence_close_chars in H. cbn [strip_prefix] in H.
      rewrite !N.eqb_refl in H. discriminate.
    + assert (H1 : strip_prefix fence_close (96%N :: e :: s) = None).
      { rewrite fence_close_chars. cbn [strip_prefix].
        rewrite N.eqb_refl, He. reflexivity. }
      rewrite (replace_cons _ _ H1).
      rewrite (replace_cons _ _ (close_needs_tick e s He)).
      rewrite fence_close_chars. cbn [strip_prefix].
      rewrite !N.eqb_refl, He. reflexivity.
  - rewrite (replace_cons _ _ (close_needs_tick d s Hd)).
    rewrite fence_close_chars. cbn [strip_prefix].
    rewrite N.eqb_refl, Hd. reflexivity.
Qed.

Lemma replace_markers_step (m s : jsstring) :
  m <> [] -> exec_at re_markers (m ++ s) = Some (s, None) ->
  replace_from re_markers [] (m ++ s) 0 = replace_from re_markers [] s 0.
Proof.
  intros Hm He. destruct m as [|c m]; [congruence|].
  cbn [app] in *.
  rewrite (replace_from_match re_markers [] c (m ++ s) s None (length m) He).
  - apply replace_from_skip.
  - cbn [length]. rewrite length_app. lia.
Qed.

Lemma replace_markers_clean_upto :
  forall n s, length s <= n ->
              includes (replace_from re_markers [] s 0) fence_close = false.
Proof.
  induction n as [|n IH]; intros s Hn.
  - destruct s; [reflexivity|simpl in Hn; lia].
  - destruct (strip_prefix fence_open s) as [r|] eqn:Eo.
    { apply strip_prefix_Some in Eo. subst s.
      rewrite replace_markers_step.
      - apply IH. rewrite length_app in Hn.
        change (length fence_open) with 7 in Hn. lia.
      - discriminate.
      - rewrite exec_at_markers, strip_prefix_app. reflexivity. }
    destruct (strip_prefix fence_close s) as [r|] eqn:Ec.
    { apply strip_prefix_Some in Ec. subst s.
      rewrite replace_markers_step.
      - apply IH. rewrite length_app in Hn.
        change (length fence_close) with 3 in Hn. lia.
      - discriminate.
      - rewrite exec_at_markers, Eo, strip_prefix_app. reflexivity. }
    pose proof (replace_keeps_head s Ec) as Hh.
    destruct s as [|c s]; [reflexivity|].
    rewrite (replace_cons c s Ec) in *.
    cbn [includes]. unfold startsWith. rewrite Hh. cbn [orb].
    apply IH. cbn [length] in Hn. lia.
Qed.

Lemma no_close_no_open :
  forall l, includes l fence_close = false -> includes l fence_open = false.
Proof.
  induction l as [|c l IH]; [reflexivity|].
  cbn [includes]. intros H. apply orb_false_elim in H. destruct H as [Hc Hl].
  rewrite (IH Hl), orb_false_r. unfold startsWith in *.
  destruct (strip_prefix fence_close (c :: l)) eqn:E; [discriminate|].
  rewrite (open_starts_with_close _ E). reflexivity.
Qed.

(** X7: whenever one of the two patterns matched, the candidate given
    to [JSON.parse] holds no fence marker: the single pass of the
    stripping leaves no "```" (and so no "```json") behind. *)
Theorem candidate_has_no_marker (text : jsstring) (m : match_array) :
  jsonMatch text = Some m ->
  includes (jsonString text) fence_close = false
  /\ includes (jsonString text) fence_open = false.
Proof.
  intros Hm. unfold jsonString. rewrite Hm. unfold replace_all.
  assert (C : includes (replace_from re_markers [] (m0 m) 0) fence_close = false)
    by (apply (replace_markers_clean_upto (length (m0 m))); apply le_n).
  split; [exact C|]. apply no_close_no_open. exact C.
Qed.

Lemma candidate_has_no_marker_witness :
  includes (jsonString (lit "{`````json`}")) fence_close = false
  /\ includes (jsonString (lit "{`````json`}")) fence_open = false.
Proof.
  apply (candidate_has_no_marker
           (lit "{`````json`}") (MatchArray (lit "{`````json`}") None)).
  vm_compute. reflexivity.
Defined.

(** *** A fenced block in its context *)

Lemma fence_split_unique :
  forall a b x y,
    no_fence_before a (fence_close ++ x) = true ->
    no_fence_before b (fence_close ++ y) = true ->
    a ++ fence_close ++ x = b ++ fence_close ++ y ->
    a = b.
Proof.
  induction a as [|c a IH]; intros [|d b] x y Ha Hb E.
  - reflexivity.
  - exfalso. cbn [no_fence_before] in Hb. apply andb_prop in Hb.
    destruct Hb as [Hb _].
    change ([] ++ fence_close ++ x) with (fence_close ++ x) in E.
    rewrite <- E in Hb. rewrite startsWith_app in Hb. discriminate.
  - exfalso. cbn [no_fence_before] in Ha. apply andb_prop in Ha.
    destruct Ha as [Ha _].
    change ([] ++ fence_close ++ y) with (fence_close ++ y) in E.
    rewrite E in Ha. rewrite startsWith_app in Ha. discriminate.
  - cbn [app] in E. inversion E; subst.
    cbn [no_fence_before] in Ha, Hb.
    apply andb_prop in Ha. apply andb_prop in Hb.
    f_equal. apply (IH b x y); tauto.
Qed.

Lemma exec_at_fence_exact (mid post : jsstring) :
  no_fence_before mid (fence_close ++ post) = true ->
  exists c, exec_at re_fence (fence_open ++ mid ++ fence_close ++ post)
            = Some (post, c).
Proof.
  intros Hn.
  destruct (exec_at re_fence (fence_open ++ mid ++ fence_close ++ post))
    as [[rest c]|] eqn:E.
  2:{ exfalso. exact (exec_at_fence_found mid post E). }
  exists c. f_equal. f_equal.
  destruct (exec_at_fence _ _ _ E) as (w1 & inner & w2 & _ & Hs & _ & _ & Hn').
  apply app_inv_head in Hs.
  pose proof (fence_split_unique _ _ _ _ Hn Hn' Hs) as Hmid.
  rewrite <- Hmid in Hs. apply app_inv_head in Hs. apply app_inv_head in Hs.
  symmetry. exact Hs.
Qed.

(** X8: when the answer is some text without backtick, then a fenced
    block (opening marker, a content in which no closing marker starts,
    not even one completed by the backticks of the closing marker, and
    the closing marker), then anything at all, the candidate is that
    content: nothing before or after the block (more blocks, braces,
    prose) has any effect on what is parsed, and so on the outcome. *)
Theorem only_the_first_block_counts
        (generateContent : jsstring -> inlineData -> completion jsstring)
        (f : File) (pre mid post : jsstring) :
  acceptable f = true ->
  generateContent prompt (generativePart f)
  = Return (pre ++ fence_open ++ mid ++ fence_close ++ post) ->
  existsb (N.eqb 96) pre = false ->
  no_fence_before mid fence_close = true ->
  jsonString (pre ++ fence_open ++ mid ++ fence_close ++ post) = mid
  /\ snd (analyzeContractAction generateContent (Some f))
     = match JSON_parse mid with
       | Some v => Return (Success v)
       | None => Return (Failure msg_parse)
       end.
Proof.
  intros Hf Hg Hpre Hn.
  assert (Hn' : no_fence_before mid (fence_close ++ post) = true)
    by (rewrite no_fence_before_tail; exact Hn).
  destruct (exec_at_fence_exact mid post Hn') as (c & He).
  assert (Hm : js_match re_fence (pre ++ fence_open ++ mid ++ fence_close ++ post)
               = Some (MatchArray (fence_open ++ mid ++ fence_close) c)).
  { rewrite js_match_skip.
    - rewrite (js_match_here _ _ _ _ He). f_equal. f_equal.
      replace (fence_open ++ mid ++ fence_close ++ post)
        with ((fence_open ++ mid ++ fence_close) ++ post)
        by (rewrite <- !app_assoc; reflexivity).
      apply consumed_app.
    - intros a [|d b] -> Hne; [congruence|].
      apply exec_at_fence_None. rewrite fence_open_chars.
      apply strip_prefix_app_None. cbn [app]. apply close_needs_tick.
      rewrite existsb_app in Hpre. apply orb_false_elim in Hpre.
      destruct Hpre as [_ Hb]. cbn [existsb] in Hb.
      apply orb_false_elim in Hb. tauto. }
  assert (Hs : jsonString (pre ++ fence_open ++ mid ++ fence_close ++ post) = mid)
    by (apply (jsonString_of_fence _ _ mid Hm); reflexivity).
  split; [exact Hs|].
  rewrite (analyze_text generateContent f _ Hf Hg), Hs.
  destruct (JSON_parse mid); reflexivity.
Qed.

Lemma only_the_first_block_counts_witness :
  jsonString (lit "Result: " ++ fence_open ++ lit " [1] " ++ fence_close
                  ++ lit " or {2} or ```json [3] ```")
  = lit " [1] "
  /\ snd (analyzeContractAction
            (answers (lit "Result: " ++ fence_open ++ lit " [1] " ++ fence_close
                          ++ lit " or {2} or ```json [3] ```"))
            (Some png))
     = match JSON_parse (lit " [1] ") with
       | Some v => Return (Success v)
       | None => Return (Failure msg_parse)
       end.
Proof.
  apply (only_the_first_block_counts
           (answers (lit "Result: " ++ fence_open ++ lit " [1] " ++ fence_close
                         ++ lit " or {2} or ```json [3] ```"))
           png (lit "Result: ") (lit " [1] ")
           (lit " or {2} or ```json [3] ```"));
    vm_compute; reflexivity.
Defined.

End ExtractProps.

(* ================================================================== *)
(** ** Properties of the base64 text sent to the model *)
(* ================================================================== *)

Module Base64Props.
Import JsStr Actions Observed.

Ltac Zify.zify_post_hook ::= Z.to_euclidean_division_equations.

Lemma sextet_In (i : N) : (i < 64)%N -> In i sextets.
Proof.
  intros H. unfold sextets. rewrite in_map_iff. exists (N.to_nat i).
  split; [apply N2Nat.id|]. apply in_seq. lia.
Qed.

Lemma digit_table :
  forallb (fun i => N.eqb (base64_value (base64_digit i)) i
                    && negb (N.eqb (base64_digit i) 61)
                    && existsb (N.eqb (base64_digit i)) base64_alphabet)
          sextets = true.
Proof. vm_compute. reflexivity. Qed.

Lemma digit_facts (i : N) :
  (i < 64)%N ->
  base64_value (base64_digit i) = i
  /\ N.eqb (base64_digit i) 61 = false
  /\ existsb (N.eqb (base64_digit i)) base64_alphabet = true.
Proof.
  intros H. pose proof digit_table as T. rewrite forallb_forall in T.
  specialize (T i (sextet_In i H)).
  apply andb_prop in T. destruct T as [T A].
  apply andb_prop in T. destruct T as [V P].
  apply N.eqb_eq in V. apply negb_true_iff in P. tauto.
Qed.

Lemma byte_of_to_N (a : byte) : byte_of (Byte.to_N a) = a.
Proof. unfold byte_of. rewrite Byte.of_to_N. reflexivity. Qed.

Lemma byte_bound (a : byte) : (Byte.to_N a < 256)%N.
Proof. pose proof (Byte.to_N_bounded a). lia. Qed.

(** The four sextets of three bytes, and back. *)
Lemma sextets_of_bytes (x y z : N) :
  (x < 256)%N -> (y < 256)%N -> (z < 256)%N ->
  (x / 4 < 64 /\ x mod 4 * 16 + y / 16 < 64
   /\ y mod 16 * 4 + z / 64 < 64 /\ z mod 64 < 64
   /\ x mod 4 * 16 < 64 /\ y mod 16 * 4 < 64)%N.
Proof. intros. repeat split; lia. Qed.

Lemma split_16 (b c : N) :
  (c < 16 -> (b * 16 + c) / 16 = b /\ (b * 16 + c) mod 16 = c)%N.
Proof. intros. lia. Qed.

Lemma split_4 (b c : N) :
  (c < 4 -> (b * 4 + c) / 4 = b /\ (b * 4 + c) mod 4 = c)%N.
Proof. intros. lia. Qed.

Lemma bytes_of_sextets (x y z : N) :
  (x < 256)%N -> (y < 256)%N -> (z < 256)%N ->
  (x / 4 * 4 + (x mod 4 * 16 + y / 16) / 16 = x
   /\ (x mod 4 * 16 + y / 16) mod 16 * 16 + (y mod 16 * 4 + z / 64) / 4 = y
   /\ (y mod 16 * 4 + z / 64) mod 4 * 64 + z mod 64 = z
   /\ x / 4 * 4 + (x mod 4 * 16) / 16 = x
   /\ (x mod 4 * 16 + y / 16) mod 16 * 16 + (y mod 16 * 4) / 4 = y)%N.
Proof.
  intros Hx Hy Hz.
  assert (Y : (y / 16 < 16)%N) by lia.
  assert (Z : (z / 64 < 4)%N) by lia.
  destruct (split_16 (x mod 4) (y / 16) Y) as [A1 A2].
  destruct (split_4 (y mod 16) (z / 64) Z) as [B1 B2].
  rewrite A1, A2, B1, B2.
  replace (x mod 4 * 16)%N with (x mod 4 * 16 + 0)%N by lia.
  replace (y mod 16 * 4)%N with (y mod 16 * 4 + 0)%N by lia.
  rewrite (proj1 (split_16 (x mod 4) 0 eq_refl)).
  rewrite (proj1 (split_4 (y mod 16) 0 eq_refl)).
  repeat split; lia.
Qed.

Lemma base64_step (a b c : byte) (rest : list byte) :
  toString_base64 (a :: b :: c :: rest)
  = [base64_digit (Byte.to_N a / 4);
     base64_digit (Byte.to_N a mod 4 * 16 + Byte.to_N b / 16);
     base64_digit (Byte.to_N b mod 16 * 4 + Byte.to_N c / 64);
     base64_digit (Byte.to_N c mod 64)]
    ++ toString_base64 rest.
Proof. reflexivity. Qed.

(** Decoding what the encoder wrote gives the bytes back. *)
Lemma base64_round_trip :
  forall n bs, length bs <= n -> base64_decode (toString_base64 bs) = bs.
Proof.
  induction n as [|n IH]; intros bs Hn.
  - destruct bs; [reflexivity|simpl in Hn; lia].
  - destruct bs as [|a [|b [|c rest]]].
    + reflexivity.
    + pose proof (byte_bound a) as Ha.
      destruct (sextets_of_bytes _ 0 0 Ha eq_refl eq_refl)
        as (S0 & _ & _ & _ & S1 & _).
      destruct (bytes_of_sextets (Byte.to_N a) 0 0 Ha eq_refl eq_refl)
        as (_ & _ & _ & B0 & _).
      cbn [toString_base64 base64_decode].
      rewrite (proj1 (digit_facts _ S0)), (proj1 (digit_facts _ S1)).
      change (N.eqb 61 61) with true. cbv iota.
      rewrite B0, byte_of_to_N. reflexivity.
    + pose proof (byte_bound a) as Ha. pose proof (byte_bound b) as Hb.
      destruct (sextets_of_bytes _ _ 0 Ha Hb eq_refl)
        as (S0 & S1 & _ & _ & _ & S2).
      destruct (bytes_of_sextets (Byte.to_N a) (Byte.to_N b) 0 Ha Hb eq_refl)
        as (B0 & _ & _ & _ & B1).
      cbn [toString_base64 base64_decode].
      rewrite (proj1 (digit_facts _ S0)), (proj1 (digit_facts _ S1)),
        (proj1 (digit_facts _ S2)).
      rewrite (proj1 (proj2 (digit_facts _ S2))).
      change (N.eqb 61 61) with true. cbv iota.
      rewrite B0, B1, !byte_of_to_N. reflexivity.
    + pose proof (byte_bound a) as Ha. pose proof (byte_bound b) as Hb.
      pose proof (byte_bound c) as Hc.
      destruct (sextets_of_bytes _ _ _ Ha Hb Hc)
        as (S0 & S1 & S2 & S3 & _ & _).
      destruct (bytes_of_sextets (Byte.to_N a) (Byte.to_N b) (Byte.to_N c)
                                 Ha Hb Hc)
        as (B0 & B1 & B2 & _ & _).
      rewrite base64_step. cbn [app base64_decode].
      rewrite (proj1 (digit_facts _ S0)), (proj1 (digit_facts _ S1)),
        (proj1 (digit_facts _ S2)), (proj1 (digit_facts _ S3)).
      rewrite (proj1 (proj2 (digit_facts _ S2))),
        (proj1 (proj2 (digit_facts _ S3))).
      rewrite B0, B1, B2, !byte_of_to_N.
      rewrite (IH rest); [reflexivity|]. cbn [length] in Hn. lia.
Qed.

(** X9: the base64 text sent to the model determines the bytes of the
    file: two files with different bytes are never sent as the same
    text. *)
Theorem base64_is_lossless (bs1 bs2 : list byte) :
  toString_base64 bs1 = toString_base64 bs2 -> bs1 = bs2.
Proof.
  intros H.
  rewrite <- (base64_round_trip (length bs1) bs1 (le_n _)).
  rewrite <- (base64_round_trip (length bs2) bs2 (le_n _)).
  rewrite H. reflexivity.
Qed.

Lemma base64_is_lossless_witness :
  [x25; x50; x44; x46]%byte = map byte_of [37; 80; 68; 70]%N.
Proof.
  apply (base64_is_lossless [x25; x50; x44; x46]%byte
                            (map byte_of [37; 80; 68; 70]%N)).
  vm_compute. reflexivity.
Defined.

Lemma digit_is_base64_char (i : N) :
  (i < 64)%N -> base64_char (base64_digit i) = true.
Proof.
  intros H. unfold base64_char.
  rewrite (proj2 (proj2 (digit_facts i H))). reflexivity.
Qed.

(** X10: the text sent for [n] bytes has [4 * ceil (n / 3)] characters,
    all of them letters, digits, [+], [/] or the padding [=]. *)
Theorem base64_length_and_alphabet (bs : list byte) :
  length (toString_base64 bs) = 4 * ((length bs + 2) / 3)
  /\ forallb base64_char (toString_base64 bs) = true.
Proof.
  assert (G : forall n bs, length bs <= n ->
              length (toString_base64 bs) = 4 * ((length bs + 2) / 3)
              /\ forallb base64_char (toString_base64 bs) = true).
  { clear bs. induction n as [|n IH]; intros bs Hn.
    - destruct bs; [split; reflexivity|simpl in Hn; lia].
    - destruct bs as [|a [|b [|c rest]]].
      + split; reflexivity.
      + pose proof (byte_bound a) as Ha.
        destruct (sextets_of_bytes _ 0 0 Ha eq_refl eq_refl)
          as (S0 & _ & _ & _ & S1 & _).
        split; [reflexivity|]. cbn [toString_base64 forallb].
        rewrite (digit_is_base64_char _ S0), (digit_is_base64_char _ S1).
        reflexivity.
      + pose proof (byte_bound a) as Ha. pose proof (byte_bound b) as Hb.
        destruct (sextets_of_bytes _ _ 0 Ha Hb eq_refl)
          as (S0 & S1 & _ & _ & _ & S2).
        split; [reflexivity|]. cbn [toString_base64 forallb].
        rewrite (digit_is_base64_char _ S0), (digit_is_base64_char _ S1),
          (digit_is_base64_char _ S2).
        reflexivity.
      + pose proof (byte_bound a) as Ha. pose proof (byte_bound b) as Hb.
        pose proof (byte_bound c) as Hc.
        destruct (sextets_of_bytes _ _ _ Ha Hb Hc)
          as (S0 & S1 & S2 & S3 & _ & _).
        destruct (IH rest) as [L A]; [cbn [length] in Hn; lia|].
        rewrite base64_step. split.
        * rewrite length_app, L. cbn [length].
          replace (S (S (S (length rest))) + 2) with (length rest + 2 + 1 * 3)
            by lia.
          rewrite Nat.div_add by discriminate. lia.
        * cbn [app forallb].
          rewrite (digit_is_base64_char _ S0), (digit_is_base64_char _ S1),
            (digit_is_base64_char _ S2), (digit_is_base64_char _ S3), A.
          reflexivity. }
  apply (G (length bs)). apply le_n.
Qed.

End Base64Props.

(* ================================================================== *)
(** ** Properties of the component *)
(* ================================================================== *)

Module ClientProps.
Import JsStr RegExp JSON GenAI Actions Fixtures Observed JsValue Client.
Import JsStrFacts ActionsFacts ActionProps.

(** *** The score *)

(** X11: the label of the score, its colour, the ring around it and
    the badge under it always belong to one and the same band, for
    every Number value: the good one for every score of at least 80,
    the cautious one for every score of at least 60 and less than 80,
    the poor one for every score less than 60 and for NaN.  So a
    score above 100 counts as good and a negative one as poor (no
    score is refused), and a score such as 79.5 is in the cautious
    band. *)
Theorem score_styles_agree :
  (forall q : Q, (inject_Z 80 <= q)%Q -> scoreStyles (Finite q) = band_good)
  /\ (forall q : Q, (inject_Z 60 <= q)%Q -> (q < inject_Z 80)%Q ->
                    scoreStyles (Finite q) = band_caution)
  /\ (forall q : Q, (q < inject_Z 60)%Q -> scoreStyles (Finite q) = band_poor)
  /\ scoreStyles PosInfinity = band_good
  /\ scoreStyles NegInfinity = band_poor
  /\ scoreStyles NaN = band_poor
  /\ scoreStyles (Finite (159 # 2)) = band_caution
  /\ scoreStyles (Finite (201 # 2)) = band_good
  /\ scoreStyles (Finite (- 5 # 1)) = band_poor.
Proof.
  assert (Ge : forall (z : Z) (q : Q),
             (inject_Z z <= q)%Q -> ge (Finite q) (of_Z z) = true).
  { intros z q H. unfold ge, of_Z. apply Qle_bool_iff. exact H. }
  assert (Lt : forall (z : Z) (q : Q),
             (q < inject_Z z)%Q -> ge (Finite q) (of_Z z) = false).
  { intros z q H. unfold ge, of_Z.
    destruct (Qle_bool (inject_Z z) q) eqn:E; [|reflexivity].
    apply Qle_bool_iff in E. destruct (Qlt_not_le _ _ H E). }
  unfold scoreStyles, getTrustScoreText, getTrustScoreColor, scoreRingClass,
    scoreBadgeClass.
  split; [|split; [|split; [|repeat split]]].
  - intros q H. rewrite (Ge 80%Z q H). reflexivity.
  - intros q H1 H2. rewrite (Lt 80%Z q H2), (Ge 60%Z q H1). reflexivity.
  - intros q H.
    assert (H' : (q < inject_Z 80)%Q).
    { apply (Qlt_trans _ _ _ H). reflexivity. }
    rewrite (Lt 80%Z q H'), (Lt 60%Z q H). reflexivity.
Qed.

(** *** Terms and issues *)

Lemma is_literal_true (v : option json) (l : string) :
  is_literal v l = true -> v = Some (JString (lit l)).
Proof.
  destruct v as [[| | |s| |]|]; try discriminate.
  cbn [is_literal]. intros H. apply eqb_eq in H. rewrite H. reflexivity.
Qed.

Lemma is_literal_false (v : option json) (l : string) :
  v <> Some (JString (lit l)) -> is_literal v l = false.
Proof.
  intros H. destruct (is_literal v l) eqn:E; [|reflexivity].
  destruct (H (is_literal_true v l E)).
Qed.

(** X12: a flag or severity that is none of "high", "warning" and
    "good" (a missing property, a value that is not a string, or any
    other string, such as "normal" or "High") is not refused: such a
    term is drawn in gray without icon, and such an issue in the green
    box of a good one, without icon. *)
Theorem unknown_flag_and_severity (v : option json) :
  v <> Some (JString (lit "high")) ->
  v <> Some (JString (lit "warning")) ->
  v <> Some (JString (lit "good")) ->
  termValueClass v = lit "text-gray-300"
  /\ termIcons v = []
  /\ issueBoxClass v = lit "border-green-900/50 bg-green-950/20"
  /\ issueIcons v = [].
Proof.
  intros Hh Hw Hg.
  unfold termValueClass, termIcons, issueBoxClass, issueIcons.
  rewrite (is_literal_false v "high" Hh), (is_literal_false v "warning" Hw),
    (is_literal_false v "good" Hg).
  repeat split.
Qed.

Lemma unknown_flag_and_severity_witness :
  termValueClass (Some (JString (lit "normal"))) = lit "text-gray-300"
  /\ termIcons (Some (JString (lit "normal"))) = []
  /\ issueBoxClass (Some (JString (lit "normal")))
     = lit "border-green-900/50 bg-green-950/20"
  /\ issueIcons (Some (JString (lit "normal"))) = [].
Proof.
  apply (unknown_flag_and_severity (Some (JString (lit "normal"))));
    discriminate.
Defined.

(** *** [handleAnalyze] *)

Lemma exec_app (st : State) (a b : list command) :
  exec st (a ++ b) = exec (exec st a) b.
Proof. unfold exec. apply fold_left_app. Qed.

Lemma truthy_property_Some (o : option json) :
  truthy_property o = true -> exists d, o = Some d /\ truthy d = true.
Proof. destruct o as [d|]; [eauto|discriminate]. Qed.

(** X13: [handleAnalyze] on a state with a file ends with
    [isAnalyzing] false and leaves file and preview alone, whatever
    the call of the action does.  When the call returns [success]
    with data that are truthy, these data become the results and
    there is no toast.  In every other case the results are null and
    there is exactly one toast, titled "Analysis Failed": with the
    [error] of the response, or the default text when it is missing or
    empty, when the call returned; with the message of the [Error]
    when it threw one; with the text for a clearer image when it threw
    anything else. *)
Theorem handleAnalyze_outcome
        (action : File -> completion Outcome) (st : State) (f : File) :
  file st = Some f ->
  isAnalyzing (exec st (handleAnalyze action st)) = false
  /\ file (exec st (handleAnalyze action st)) = file st
  /\ preview (exec st (handleAnalyze action st)) = preview st
  /\ (forall o d,
         action f = Return o -> success o = true -> data o = Some d ->
         truthy d = true ->
         results (exec st (handleAnalyze action st)) = Some d
         /\ toasts (handleAnalyze action st) = [])
  /\ (forall o,
         action f = Return o ->
         success o = false \/ truthy_property (data o) = false ->
         results (exec st (handleAnalyze action st)) = None
         /\ toasts (handleAnalyze action st)
            = [(lit "Analysis Failed",
                or_else (error o)
                        (lit "Failed to analyze the contract. Please try again."),
                lit "destructive")])
  /\ (forall message,
         action f = Throw (JsError message) ->
         results (exec st (handleAnalyze action st)) = None
         /\ toasts (handleAnalyze action st)
            = [(lit "Analysis Failed", message, lit "destructive")])
  /\ (action f = Throw NonError ->
      results (exec st (handleAnalyze action st)) = None
      /\ toasts (handleAnalyze action st)
         = [(lit "Analysis Failed",
             lit "We couldn't analyze your contract. Please try again with a clearer image.",
             lit "destructive")]).
Proof.
  intros Hf. unfold handleAnalyze. rewrite Hf.
  unfold handleAnalyze_start, handleAnalyze_finish.
  destruct (action f) as [o|err].
  - split; [destruct (success o && truthy_property (data o)); reflexivity|].
    split; [destruct (success o && truthy_property (data o)); exact Hf|].
    split; [destruct (success o && truthy_property (data o)); reflexivity|].
    split; [|split; [|split]].
    + intros o' d E Hs Hd Ht. injection E as <-.
      rewrite Hs, Hd. cbn [truthy_property andb]. rewrite Ht.
      split; reflexivity.
    + intros o' E H. injection E as <-.
      assert (X : success o && truthy_property (data o) = false).
      { destruct H as [H|H]; rewrite H;
          [reflexivity|apply andb_false_r]. }
      rewrite X. split; reflexivity.
    + intros message E. discriminate.
    + intros E. discriminate.
  - split; [reflexivity|]. split; [exact Hf|]. split; [reflexivity|].
    split; [|split; [|split]].
    + intros o d E. discriminate.
    + intros o E. discriminate.
    + intros message E. injection E as ->. split; reflexivity.
    + intros E. injection E as ->. split; reflexivity.
Qed.

Lemma handleAnalyze_outcome_witness :
  isAnalyzing (exec (with_file png) (handleAnalyze (callAction (answers fenced)) (with_file png))) = false
  /\ file (exec (with_file png) (handleAnalyze (callAction (answers fenced)) (with_file png))) = file (with_file png)
  /\ preview (exec (with_file png) (handleAnalyze (callAction (answers fenced)) (with_file png))) = preview (with_file png)
  /\ (forall o d,
         (callAction (answers fenced)) png = Return o -> success o = true -> data o = Some d ->
         truthy d = true ->
         results (exec (with_file png) (handleAnalyze (callAction (answers fenced)) (with_file png))) = Some d
         /\ toasts (handleAnalyze (callAction (answers fenced)) (with_file png)) = [])
  /\ (forall o,
         (callAction (answers fenced)) png = Return o ->
         success o = false \/ truthy_property (data o) = false ->
         results (exec (with_file png) (handleAnalyze (callAction (answers fenced)) (with_file png))) = None
         /\ toasts (handleAnalyze (callAction (answers fenced)) (with_file png))
            = [(lit "Analysis Failed",
                or_else (error o)
                        (lit "Failed to analyze the contract. Please try again."),
                lit "destructive")])
  /\ (forall message,
         (callAction (answers fenced)) png = Throw (JsError message) ->
         results (exec (with_file png) (handleAnalyze (callAction (answers fenced)) (with_file png))) = None
         /\ toasts (handleAnalyze (callAction (answers fenced)) (with_file png))
            = [(lit "Analysis Failed", message, lit "destructive")])
  /\ ((callAction (answers fenced)) png = Throw NonError ->
      results (exec (with_file png) (handleAnalyze (callAction (answers fenced)) (with_file png))) = None
      /\ toasts (handleAnalyze (callAction (answers fenced)) (with_file png))
         = [(lit "Analysis Failed",
             lit "We couldn't analyze your contract. Please try again with a clearer image.",
             lit "destructive")]).
Proof.
  apply (handleAnalyze_outcome (callAction (answers fenced)) (with_file png) png).
  reflexivity.
Defined.

(** *** The component and the action together *)

(** The action always returns (it never throws). *)
Lemma callAction_returns
      (generateContent : jsstring -> inlineData -> completion jsstring)
      (f : File) :
  exists o, callAction generateContent f = Return o.
Proof.
  unfold callAction. destruct (file_cases f) as [Hs|[[Hs Ht]|Hf]].
  - rewrite (analyze_too_large generateContent f Hs). eexists; reflexivity.
  - rewrite (analyze_bad_type generateContent f Hs Ht). eexists; reflexivity.
  - destruct (generateContent prompt (generativePart f)) as [text|e] eqn:Hg.
    + rewrite (analyze_text generateContent f text Hf Hg).
      destruct (JSON_parse (jsonString text)); eexists; reflexivity.
    + rewrite (analyze_thrown generateContent f e Hf Hg).
      destruct (catch_block_returns e) as (msg & ->). eexists; reflexivity.
Qed.

(** X14: when the candidate of the model's answer parses to a value
    that is falsy (null, false, a zero, the empty string), the action
    returns success with it, and the component, which tests
    [response.success && response.data], shows the failure toast with
    its own default text and no results. *)
Theorem falsy_success_is_shown_as_failure
        (generateContent : jsstring -> inlineData -> completion jsstring)
        (st : State) (f : File) (text : jsstring) (d : json) :
  file st = Some f ->
  acceptable f = true ->
  generateContent prompt (generativePart f) = Return text ->
  JSON_parse (jsonString text) = Some d ->
  truthy d = false ->
  callAction generateContent f = Return (Success d)
  /\ toasts (handleAnalyze (callAction generateContent) st)
     = [(lit "Analysis Failed",
         lit "Failed to analyze the contract. Please try again.",
         lit "destructive")]
  /\ results (exec st (handleAnalyze (callAction generateContent) st)) = None.
Proof.
  intros Hfile Hf Hg Hp Ht.
  assert (Hc : callAction generateContent f = Return (Success d)).
  { unfold callAction. rewrite (analyze_text generateContent f text Hf Hg), Hp.
    reflexivity. }
  split; [exact Hc|].
  unfold handleAnalyze. rewrite Hfile, Hc.
  unfold handleAnalyze_start, handleAnalyze_finish.
  cbn [success data error Success truthy_property andb]. rewrite Ht.
  split; reflexivity.
Qed.

Lemma falsy_success_is_shown_as_failure_witness :
  callAction (answers (lit "Sorry, no contract found: 0.0"
                           ++ lit " ```json 0.0 ```")) png
  = Return (Success (JNumber (lit "0.0")))
  /\ toasts (handleAnalyze
               (callAction (answers (lit "Sorry, no contract found: 0.0"
                                         ++ lit " ```json 0.0 ```")))
               (with_file png))
     = [(lit "Analysis Failed",
         lit "Failed to analyze the contract. Please try again.",
         lit "destructive")]
  /\ results (exec (with_file png)
                  (handleAnalyze
                     (callAction (answers (lit "Sorry, no contract found: 0.0"
                                               ++ lit " ```json 0.0 ```")))
                     (with_file png)))
     = None.
Proof.
  apply (falsy_success_is_shown_as_failure
           (answers (lit "Sorry, no contract found: 0.0"
                         ++ lit " ```json 0.0 ```"))
           (with_file png) png
           (lit "Sorry, no contract found: 0.0" ++ lit " ```json 0.0 ```")
           (JNumber (lit "0.0")));
    vm_compute; reflexivity.
Defined.

Lemma own_messages_not_empty : forall m, In m own_messages -> m <> [].
Proof.
  intros m H. unfold own_messages in H. simpl in H.
  repeat (destruct H as [<-|H]; [discriminate|]). contradiction.
Qed.

(** X15: when the awaited call completes as the action does, the
    component never reaches its own [catch], and the text of a toast
    it shows is never empty: it is the component's default text, one of the seven messages of the
    action, or word for word the message of an [Error] the model call
    threw (an empty message is replaced by the default text). *)
Theorem toast_text_origin
        (generateContent : jsstring -> inlineData -> completion jsstring)
        (st : State) (f : File) :
  file st = Some f ->
  (forall label err,
      ~ In (LogError label err) (handleAnalyze (callAction generateContent) st))
  /\ forall title description variant,
      In (title, description, variant)
         (toasts (handleAnalyze (callAction generateContent) st)) ->
      description <> []
      /\ (description = toast_default
          \/ In description own_messages
          \/ (acceptable f = true
              /\ generateContent prompt (generativePart f)
                 = Throw (JsError description))).
Proof.
  intros Hfile. unfold handleAnalyze. rewrite Hfile.
  destruct (callAction_returns generateContent f) as (o & Ho). rewrite Ho.
  unfold handleAnalyze_start, handleAnalyze_finish.
  split.
  - intros label err Hin.
    destruct (success o && truthy_property (data o)); cbn in Hin;
      repeat (destruct Hin as [Hin|Hin]; [discriminate|]); contradiction.
  - intros title description variant Hin.
    destruct (success o && truthy_property (data o)); [contradiction Hin|].
    cbn in Hin. destruct Hin as [Hin|[]]. inversion Hin; subst. clear Hin.
    destruct (error o) as [e|] eqn:He.
    2:{ cbn [or_else]. split; [discriminate|]. left. reflexivity. }
    destruct e as [|c e].
    { cbn [or_else]. split; [discriminate|]. left. reflexivity. }
    cbn [or_else]. split; [discriminate|].
    unfold callAction in Ho.
    destruct (failure_message_cases generateContent (Some f) o (c :: e) Ho He)
      as [Hown|(f' & Hf' & Hacc & Hg)].
    + right. left. exact Hown.
    + inversion Hf'; subst f'. right. right. split; assumption.
Qed.

Lemma toast_text_origin_witness :
  (forall label err,
      ~ In (LogError label err)
           (handleAnalyze (callAction (fails (JsError []))) (with_file png)))
  /\ forall title description variant,
      In (title, description, variant)
         (toasts (handleAnalyze (callAction (fails (JsError [])))
                                (with_file png))) ->
      description <> []
      /\ (description = toast_default
          \/ In description own_messages
          \/ (acceptable png = true
              /\ fails (JsError []) prompt (generativePart png)
                 = Throw (JsError description))).
Proof.
  apply (toast_text_origin (fails (JsError [])) (with_file png) png).
  reflexivity.
Defined.

End ClientProps.

(* ================================================================== *)
(** ** Properties of the component over time *)
(* ================================================================== *)

Module ClientRuns.
Import JsStr RegExp JSON GenAI Actions Fixtures Observed JsValue Client.

Lemma reacts_keep (P : System -> Prop) :
  (forall s i s', react s i = Some s' -> P s -> P s') ->
  forall inputs s s', reacts s inputs = Some s' -> P s -> P s'.
Proof.
  intros Hstep. induction inputs as [|i rest IH]; intros s s' H Hs.
  - inversion H; subst. exact Hs.
  - cbn [reacts] in H. destruct (react s i) as [s1|] eqn:E; [|discriminate].
    apply (IH s1 s' H). apply (Hstep s i s1 E Hs).
Qed.

Lemma after_file_handler (st : State) (o : option File) :
  isAnalyzing (exec st (handleFileChange o)) = isAnalyzing st
  /\ results (exec st (handleFileChange o)) = None
  /\ isAnalyzing (exec st (handleDrop o)) = isAnalyzing st
  /\ (results (exec st (handleDrop o)) = None
      \/ exec st (handleDrop o) = st).
Proof.
  unfold handleFileChange, handleDrop, startPreview.
  destruct o as [f|].
  - destruct (startsWith (type f) (lit "image/")); repeat split; auto.
  - repeat split; auto.
Qed.

Lemma tidy_results_reset (s s' : System) :
  tidy s ->
  analysing s' = analysing s ->
  isAnalyzing (ui s') = isAnalyzing (ui s) ->
  results (ui s') = None ->
  tidy s'.
Proof.
  intros (H1 & H2 & H3 & H4) Ea Ei Er. unfold tidy.
  rewrite Ea, Ei, Er.
  split; [exact H1|]. split; [exact H2|]. split; [reflexivity|].
  intros d Hd. discriminate.
Qed.

Lemma react_tidy (s : System) (i : input) (s' : System) :
  react s i = Some s' -> tidy s -> tidy s'.
Proof.
  intros H T. destruct i as [o|o| | |n|n c]; cbn [react] in H.
  - destruct (file (ui s)); [discriminate|]. injection H as <-.
    destruct (after_file_handler (ui s) o) as (A & B & _).
    apply (tidy_results_reset s); auto.
  - destruct (file (ui s)); [discriminate|]. injection H as <-.
    destruct (after_file_handler (ui s) o) as (_ & _ & A & [B|B]).
    + apply (tidy_results_reset s); auto.
    + destruct T as (H1 & H2 & H3 & H4). unfold tidy, perform.
      cbn [ui analysing]. rewrite B. tauto.
  - destruct (file (ui s)); [|discriminate]. injection H as <-.
    apply (tidy_results_reset s); auto.
  - destruct (file (ui s)) as [f|]; [|discriminate].
    destruct (isAnalyzing (ui s)) eqn:Ei; [discriminate|].
    injection H as <-. destruct T as (H1 & H2 & H3 & H4).
    assert (E : analysing s = []).
    { destruct (analysing s) as [|x l]; [reflexivity|].
      assert (X : isAnalyzing (ui s) = true) by (apply H2; discriminate).
      congruence. }
    unfold tidy. cbn [ui analysing]. rewrite E. cbn.
    split; [apply le_n|]. split; [split; [discriminate|reflexivity]|].
    split; [reflexivity|]. intros d Hd. discriminate.
  - destruct (nth_error (reading s) n); [|discriminate]. injection H as <-.
    exact T.
  - destruct (nth_error (analysing s) n) as [f|] eqn:En; [|discriminate].
    injection H as <-. destruct T as (H1 & H2 & H3 & H4).
    assert (E : analysing s = [f] /\ n = 0).
    { destruct (analysing s) as [|x [|y l]]; cbn [length] in H1.
      - destruct n; discriminate.
      - destruct n as [|[|n]]; cbn in En; try discriminate.
        inversion En; subst. auto.
      - lia. }
    destruct E as [E ->].
    assert (R : results (ui s) = None)
      by (apply H3, H2; rewrite E; discriminate).
    unfold tidy. cbn [ui analysing]. rewrite E. cbn [remove_nth length].
    unfold handleAnalyze_finish.
    destruct c as [o|err].
    + destruct (success o && truthy_property (data o)) eqn:Es.
      * apply andb_prop in Es. destruct Es as [_ Ht]. cbn.
        split; [apply le_0_n|]. split; [split; [discriminate|congruence]|].
        split; [discriminate|].
        intros d Hd. rewrite Hd in Ht. exact Ht.
      * cbn. rewrite R.
        split; [apply le_0_n|]. split; [split; [discriminate|congruence]|].
        split; [discriminate|]. intros d Hd. discriminate.
    + cbn. rewrite R.
      split; [apply le_0_n|]. split; [split; [discriminate|congruence]|].
      split; [discriminate|]. intros d Hd. discriminate.
Qed.

Lemma start_tidy : tidy start.
Proof.
  unfold tidy. cbn.
  split; [apply le_0_n|]. split; [split; [discriminate|congruence]|].
  split; [discriminate|]. intros d Hd. discriminate.
Qed.

(** X16: in every state the component can reach, at most one call of
    the action is under way, and [isAnalyzing] is true exactly while
    there is one; while it is true the results are null; and results
    that are not null are truthy data of a successful answer. *)
Theorem reachable_is_tidy (s : System) :
  reachable s ->
  length (analysing s) <= 1
  /\ (isAnalyzing (ui s) = true <-> analysing s <> [])
  /\ (isAnalyzing (ui s) = true -> results (ui s) = None)
  /\ (forall d, results (ui s) = Some d -> truthy d = true).
Proof.
  intros [inputs H].
  apply (reacts_keep tidy react_tidy inputs start s H start_tidy).
Qed.

Lemma reachable_is_tidy_witness :
  length (analysing (after [Choose (Some png); Analyze])) <= 1
  /\ (isAnalyzing (ui (after [Choose (Some png); Analyze])) = true
      <-> analysing (after [Choose (Some png); Analyze]) <> [])
  /\ (isAnalyzing (ui (after [Choose (Some png); Analyze])) = true
      -> results (ui (after [Choose (Some png); Analyze])) = None)
  /\ (forall d, results (ui (after [Choose (Some png); Analyze])) = Some d
                -> truthy d = true).
Proof.
  apply (reachable_is_tidy (after [Choose (Some png); Analyze])).
  exists [Choose (Some png); Analyze]. reflexivity.
Defined.

(** *** The preview *)

Lemma previews_of_more (seen seen' : list File) (s : System) :
  incl seen seen' -> previews_of seen s -> previews_of seen' s.
Proof.
  intros Hi [H1 H2]. split.
  - apply (Forall_impl _ (P := fun f => In f seen /\ is_image f)); [|exact H1].
    intros f [A B]. split; [apply Hi, A|exact B].
  - intros p Hp. destruct (H2 p Hp) as (g & A & B & C).
    exists g. split; [apply Hi, A|]. split; assumption.
Qed.

Lemma Forall_remove_nth (A : Type) (P : A -> Prop) (l : list A) :
  Forall P l -> forall n, Forall P (remove_nth n l).
Proof.
  induction 1 as [|x l Hx Hl IH]; intros n.
  - destruct n; constructor.
  - destruct n as [|n]; cbn [remove_nth]; [exact Hl|].
    constructor; [exact Hx|apply IH].
Qed.

Lemma preview_after_finish (st : State) (c : completion Outcome) :
  preview (exec st (handleAnalyze_finish c)) = preview st.
Proof.
  unfold handleAnalyze_finish. destruct c as [o|err].
  - destruct (success o && truthy_property (data o)); reflexivity.
  - reflexivity.
Qed.

(** Taking the file [f] (the common part of the two file handlers). *)
Lemma take_file_previews (seen : list File) (s : System) (f : File) :
  previews_of seen s ->
  previews_of (seen ++ [f])
              (perform s ([SetFile (Some f); SetResults None] ++ startPreview f)).
Proof.
  intros [H1 H2]. unfold startPreview, previews_of, perform.
  destruct (startsWith (type f) (lit "image/")) eqn:Ef;
    cbn [ui reading app reads flat_map exec fold_left set preview].
  - split.
    + apply Forall_app. split.
      * apply (Forall_impl _ (P := fun g => In g seen /\ is_image g));
          [|exact H1].
        intros g [A B]. split; [apply in_or_app; left; exact A|exact B].
      * constructor; [|constructor].
        split; [apply in_or_app; right; left; reflexivity|exact Ef].
    + intros p Hp. destruct (H2 p Hp) as (g & A & B & C).
      exists g. split; [apply in_or_app; left; exact A|]. split; assumption.
  - rewrite app_nil_r. split.
    + apply (Forall_impl _ (P := fun g => In g seen /\ is_image g));
        [|exact H1].
      intros g [A B]. split; [apply in_or_app; left; exact A|exact B].
    + intros p Hp. discriminate.
Qed.

Lemma react_previews (seen : list File) (s : System) (i : input) (s' : System) :
  react s i = Some s' ->
  previews_of seen s -> previews_of (seen ++ chosen [i]) s'.
Proof.
  intros H P.
  assert (Keep : forall t, reading t = reading s ->
                           preview (ui t) = preview (ui s) ->
                           previews_of (seen ++ chosen [i]) t).
  { intros t Er Ep. apply (previews_of_more seen); [apply incl_appl, incl_refl|].
    destruct P as [H1 H2]. unfold previews_of. rewrite Er, Ep. split; assumption. }
  assert (Drop : forall t, reading t = reading s ->
                           preview (ui t) = None ->
                           previews_of (seen ++ chosen [i]) t).
  { intros t Er Ep. apply (previews_of_more seen); [apply incl_appl, incl_refl|].
    destruct P as [H1 H2]. unfold previews_of. rewrite Er, Ep.
    split; [exact H1|]. intros p Hp. discriminate. }
  destruct i as [o|o| | |n|n c]; cbn [react] in H.
  - destruct (file (ui s)); [discriminate|]. injection H as <-.
    destruct o as [f|].
    + apply (take_file_previews seen s f P).
    + apply Drop; [apply app_nil_r|reflexivity].
  - destruct (file (ui s)); [discriminate|]. injection H as <-.
    destruct o as [f|].
    + apply (take_file_previews seen s f P).
    + apply Keep; [apply app_nil_r|reflexivity].
  - destruct (file (ui s)); [|discriminate]. injection H as <-.
    apply Drop; [apply app_nil_r|reflexivity].
  - destruct (file (ui s)); [|discriminate].
    destruct (isAnalyzing (ui s)); [discriminate|]. injection H as <-.
    apply Keep; reflexivity.
  - destruct (nth_error (reading s) n) as [f|] eqn:En; [|discriminate].
    injection H as <-.
    apply (previews_of_more seen); [apply incl_appl, incl_refl|].
    destruct P as [H1 H2]. split.
    + cbn [reading]. apply Forall_remove_nth. exact H1.
    + cbn [ui onload exec fold_left set preview]. intros p Hp.
      injection Hp as <-. apply nth_error_In in En.
      rewrite Forall_forall in H1. destruct (H1 f En) as [A B].
      exists f. split; [exact A|]. split; [exact B|reflexivity].
  - destruct (nth_error (analysing s) n); [|discriminate]. injection H as <-.
    apply Keep; [reflexivity|]. cbn [ui]. apply preview_after_finish.
Qed.

Lemma reacts_previews (inputs : list input) :
  forall (seen : list File) (s s' : System),
    reacts s inputs = Some s' ->
    previews_of seen s -> previews_of (seen ++ chosen inputs) s'.
Proof.
  induction inputs as [|i rest IH]; intros seen s s' H P.
  - injection H as <-. cbn [chosen flat_map]. rewrite app_nil_r. exact P.
  - cbn [reacts] in H. destruct (react s i) as [s1|] eqn:E; [|discriminate].
    pose proof (IH _ s1 s' H (react_previews seen s i s1 E P)) as Q.
    unfold chosen in *. cbn [flat_map] in *.
    rewrite app_nil_r, <- app_assoc in Q. exact Q.
Qed.

(** X17: whatever the inputs, the preview is null or the data URL of a
    file that was chosen or dropped before and whose type starts with
    "image/": nothing else is ever stored as preview. *)
Theorem preview_is_of_a_chosen_image
        (inputs : list input) (s : System) (p : jsstring) :
  reacts start inputs = Some s ->
  preview (ui s) = Some p ->
  exists g, In g (chosen inputs) /\ is_image g /\ p = dataURL g.
Proof.
  intros H Hp.
  assert (P : previews_of [] start).
  { split; [constructor|]. intros q Hq. discriminate. }
  destruct (reacts_previews inputs [] start s H P) as [_ Q].
  exact (Q p Hp).
Qed.

Lemma preview_is_of_a_chosen_image_witness :
  exists g, In g (chosen [Choose (Some png); Loaded 0])
            /\ is_image g /\ dataURL png = dataURL g.
Proof.
  apply (preview_is_of_a_chosen_image
           [Choose (Some png); Loaded 0]
           (after [Choose (Some png); Loaded 0]) (dataURL png));
    reflexivity.
Defined.

(** *** What a reset does not undo *)



(** X19: the X button does not cancel a read either.  When the image
    [A] is removed before its read has ended and the image [B] is
    chosen, the end of the read of [A] puts the picture of [A] under
    the name of [B]. *)
Theorem preview_outlives_reset (A B : File) :
  is_image A -> is_image B ->
  exists s,
    reacts start [Choose (Some A); Reset; Choose (Some B); Loaded 0] = Some s
    /\ file (ui s) = Some B
    /\ shownPreview (ui s) = Some (dataURL A)
    /\ reading s = [B].
Proof.
  unfold is_image. intros HA HB. eexists. split.
  - cbn -[startsWith lit dataURL]. unfold startPreview. rewrite HA.
    cbn -[startsWith lit dataURL]. unfold startPreview. rewrite HB.
    cbn -[startsWith lit dataURL]. reflexivity.
  - cbn -[startsWith lit dataURL]. unfold shownPreview.
    cbn -[startsWith lit dataURL]. rewrite HB.
    split; [reflexivity|]. split; reflexivity.
Qed.

Lemma preview_outlives_reset_witness :
  exists s,
    reacts start [Choose (Some png); Reset; Choose (Some big_png); Loaded 0]
    = Some s
    /\ file (ui s) = Some big_png
    /\ shownPreview (ui s) = Some (dataURL png)
    /\ reading s = [big_png].
Proof.
  apply (preview_outlives_reset png big_png); reflexivity.
Defined.

End ClientRuns.
